(** * MathMaster Pro: a shallow embedding of the solver's helpers and handlers

    The development follows [src/MMP/content.js] (which holds two revisions of
    the application, one after the other) and the earlier revision kept in
    [src/unnamed/part_000].

    - JavaScript strings are sequences of UTF-16 code units ([jsstring]).
    - The React state cells of [MainComponent] are the fields of [ui_state].
    - Event handlers are state transformers; what the handlers cannot decide
      themselves (the result of [JSON.parse], of [fetch], of [upload], the
      clock) is an explicit input of the transformer. *)

From Stdlib Require Import List NArith Bool Arith Lia String Ascii.
From Stdlib Require Import Floats.SpecFloat.
Import ListNotations.

Set Implicit Arguments.

(* ================================================================== *)
(** ** JavaScript strings *)
(* ================================================================== *)

(** A UTF-16 code unit. *)
Definition code_unit := N.

(** A JavaScript string value. *)
Definition jsstring := list code_unit.

(** The code units of an ASCII literal of the source. *)
Fixpoint lit (s : string) : jsstring :=
  match s with
  | EmptyString => []
  | String a rest => N_of_ascii a :: lit rest
  end.

(** Non-ASCII literals of the source: U+222B INTEGRAL and U+221A SQUARE ROOT,
    one code unit each. *)
Definition INTEGRAL : jsstring := [8747%N].
Definition SQRT : jsstring := [8730%N].

Fixpoint jsstring_eqb (a b : jsstring) : bool :=
  match a, b with
  | [], [] => true
  | x :: a', y :: b' => N.eqb x y && jsstring_eqb a' b'
  | _, _ => false
  end.

(** [s.startsWith(p)] *)
Fixpoint startsWith (s p : jsstring) {struct p} : bool :=
  match p, s with
  | [], _ => true
  | _ :: _, [] => false
  | a :: p', b :: s' => N.eqb b a && startsWith s' p'
  end.

(** [s.includes(needle)] *)
Fixpoint includes (s needle : jsstring) : bool :=
  startsWith s needle ||
  match s with
  | [] => false
  | _ :: s' => includes s' needle
  end.

(** What it means for [needle] to occur in [s]. *)
Definition Substring (needle s : jsstring) : Prop :=
  exists pre post, s = pre ++ needle ++ post.

(* ================================================================== *)
(** ** Regular expressions, as far as the source uses them *)
(* ================================================================== *)

(** The patterns of the source are built from literal characters, sequence,
    alternation and the word-boundary assertion [\b]. *)
Inductive regex : Type :=
| REmpty
| RChar (c : code_unit)
| RSeq (r1 r2 : regex)
| RAlt (r1 r2 : regex)
| RWordBoundary.

(** [\w] without the [u] and [i] flags: [A-Za-z0-9_]. *)
Definition is_word_char (c : code_unit) : bool :=
  ((65 <=? c) && (c <=? 90) || (97 <=? c) && (c <=? 122) ||
   (48 <=? c) && (c <=? 57) || (c =? 95))%N.

Definition is_word_at (c : option code_unit) : bool :=
  match c with
  | Some x => is_word_char x
  | None => false
  end.

(** Backtracking matcher in continuation style: [prev] is the code unit
    before the current position (if any), [s] the rest of the input. *)
Fixpoint rmatch (r : regex) (prev : option code_unit) (s : jsstring)
         (k : option code_unit -> jsstring -> bool) : bool :=
  match r with
  | REmpty => k prev s
  | RChar c =>
      match s with
      | x :: s' => N.eqb x c && k (Some x) s'
      | [] => false
      end
  | RSeq r1 r2 => rmatch r1 prev s (fun p t => rmatch r2 p t k)
  | RAlt r1 r2 => rmatch r1 prev s k || rmatch r2 prev s k
  | RWordBoundary => xorb (is_word_at prev) (is_word_at (hd_error s)) && k prev s
  end.

(** Does the pattern match somewhere at or after the current position? *)
Fixpoint rsearch (r : regex) (prev : option code_unit) (s : jsstring) : bool :=
  rmatch r prev s (fun _ _ => true) ||
  match s with
  | [] => false
  | c :: s' => rsearch r (Some c) s'
  end.

(** [s.match(r)] is used for its truth value only: an array on a match,
    [null] otherwise. *)
Definition matches (s : jsstring) (r : regex) : bool := rsearch r None s.

(** The regex of a literal word. *)
Fixpoint RLit (w : jsstring) : regex :=
  match w with
  | [] => REmpty
  | c :: w' => RSeq (RChar c) (RLit w')
  end.

(** [/\b(sin|cos|tan)\b/] *)
Definition TRIG_RE : regex :=
  RSeq RWordBoundary
    (RSeq (RAlt (RLit (lit "sin")) (RAlt (RLit (lit "cos")) (RLit (lit "tan"))))
       RWordBoundary).

(** [str.replace(/c/g, "")] for a pattern [c] that matches single code units:
    every matched code unit is dropped, everything else is copied. *)
Fixpoint replace_all_with_empty (pat : code_unit -> bool) (str : jsstring)
  : jsstring :=
  match str with
  | [] => []
  | c :: rest =>
      if pat c then replace_all_with_empty pat rest
      else c :: replace_all_with_empty pat rest
  end.

Definition BACKSLASH : code_unit := 92%N.
Definition LBRACE : code_unit := 123%N.
Definition RBRACE : code_unit := 125%N.
Definition DOLLAR : code_unit := 36%N.

(** [/\\/g], [/\{|\}/g] and [/\$/g] as single-code-unit patterns. *)
Definition re_backslash (c : code_unit) : bool := N.eqb c BACKSLASH.
Definition re_braces (c : code_unit) : bool := N.eqb c LBRACE || N.eqb c RBRACE.
Definition re_dollar (c : code_unit) : bool := N.eqb c DOLLAR.

(** The characters [cleanEquation] is meant to delete. *)
Definition is_markup (c : code_unit) : bool :=
  N.eqb c BACKSLASH || N.eqb c LBRACE || N.eqb c RBRACE || N.eqb c DOLLAR.

(* ================================================================== *)
(** ** JavaScript values *)
(* ================================================================== *)

(** What [JSON.parse] and [response.json()] can produce.  Numbers are IEEE
    754 doubles; an object is the list of its own properties, and where a
    name is bound twice the later binding is the object's. *)
#[warnings="-register-all"]
Inductive json : Type :=
| JNull
| JBool (b : bool)
| JNumber (x : spec_float)
| JString (s : jsstring)
| JArray (items : list json)
| JObject (props : list (jsstring * json)).

(** A value of the language: [None] is [undefined]. *)
Definition jsvalue := option json.

(** [ToBoolean] *)
Definition truthy (v : jsvalue) : bool :=
  match v with
  | None => false
  | Some JNull => false
  | Some (JBool b) => b
  | Some (JNumber (S754_zero _)) => false
  | Some (JNumber S754_nan) => false
  | Some (JNumber _) => true
  | Some (JString []) => false
  | Some (JString (_ :: _)) => true
  | Some (JArray _) => true
  | Some (JObject _) => true
  end.

Fixpoint own_property (props : list (jsstring * json)) (name : jsstring)
  : jsvalue :=
  match props with
  | [] => None
  | (k, v) :: rest =>
      match own_property rest name with
      | Some w => Some w
      | None => if jsstring_eqb k name then Some v else None
      end
  end.

(** An object literal handed to [JSON.stringify]: properties whose value is
    [undefined] are left out. *)
Fixpoint object_literal (fields : list (jsstring * jsvalue)) : json :=
  match fields with
  | [] => JObject []
  | (k, v) :: rest =>
      match object_literal rest, v with
      | JObject props, Some x => JObject ((k, x) :: props)
      | other, _ => other
      end
  end.

(** A file picked or dropped by the user. *)
Record File : Type := { file_name : jsstring; file_type : jsstring }.

(* ================================================================== *)
(** ** Application state *)
(* ================================================================== *)

Record HistoryEntry : Type := {
  h_input : jsvalue;
  h_solution : json;
  h_timestamp : jsstring
}.

(** The [useState] cells of [MainComponent] that the handlers below read or
    write. *)
Record ui_state : Type := {
  input : jsvalue;
  file : option File;
  solution : jsvalue;
  error : option jsstring;
  streamingResponse : jsvalue;
  history : list HistoryEntry;
  previewImage : option jsstring;
  savedSolutions : jsvalue
}.

(** The initial values given to [useState]. *)
Definition initial_state : ui_state :=
  {| input := Some (JString (lit ""));
     file := None;
     solution := Some JNull;
     error := None;
     streamingResponse := Some (JString (lit ""));
     history := [];
     previewImage := None;
     savedSolutions := Some (JArray []) |}.

(** What a handler does to the outside, in the order it does it. *)
Inductive effect : Type :=
| Fetch (url : jsstring) (body : json)
| Upload (f : option File)
| Call_solveEquation (text : jsvalue).

Record world : Type := { ui : ui_state; effects : list effect }.

(** How the outside answers. *)
Inductive fetch_outcome : Type :=
| NetworkError
| Response (ok : bool) (body : option json).

Inductive upload_outcome : Type :=
| UploadRejected
| UploadResolved (result : jsvalue).

Record environment : Type := {
  JSON_parse : jsstring -> option json;
  fetch_result : jsstring -> json -> fetch_outcome;
  upload_result : option File -> upload_outcome;
  createObjectURL : File -> jsstring;
  toLocaleString_now : jsstring
}.

(* ================================================================== *)
(** ** Handlers as state transformers that may throw *)
(* ================================================================== *)

Inductive completion (A : Type) : Type :=
| Normal (a : A)
| Throw.
Arguments Throw {A}.

Definition M (A : Type) : Type := world -> completion A * world.

Definition ret {A} (a : A) : M A := fun w => (Normal a, w).
Definition throw {A} : M A := fun w => (Throw, w).
Definition bind {A B} (c : M A) (k : A -> M B) : M B :=
  fun w =>
    match c w with
    | (Normal a, w') => k a w'
    | (Throw, w') => (Throw, w')
    end.
(** [try { body } catch { handler }] *)
Definition try_catch {A} (body handler : M A) : M A :=
  fun w =>
    match body w with
    | (Normal a, w') => (Normal a, w')
    | (Throw, w') => handler w'
    end.

(** A call of an async function that is not awaited: what it throws stays
    in its own promise. *)
Definition detached {A} (c : M A) : M unit :=
  fun w => (Normal tt, snd (c w)).

Declare Scope handler_scope.
Delimit Scope handler_scope with handler.
Bind Scope handler_scope with M.
Notation "x <- c ;; k" := (bind c (fun x => k))
  (at level 61, c at next level, right associativity) : handler_scope.
Notation "c ;; k" := (bind c (fun _ => k))
  (at level 61, right associativity) : handler_scope.
Local Open Scope handler_scope.

Definition modify (f : ui_state -> ui_state) : M unit :=
  fun w => (Normal tt, {| ui := f (ui w); effects := effects w |}).
Definition read {A} (f : ui_state -> A) : M A :=
  fun w => (Normal (f (ui w)), w).
Definition emit (e : effect) : M unit :=
  fun w => (Normal tt, {| ui := ui w; effects := effects w ++ [e] |}).

Definition setInput (v : jsvalue) : M unit :=
  modify (fun s =>
    {| input := v; file := file s; solution := solution s; error := error s;
       streamingResponse := streamingResponse s; history := history s;
       previewImage := previewImage s; savedSolutions := savedSolutions s |}).
Definition setFile (v : option File) : M unit :=
  modify (fun s =>
    {| input := input s; file := v; solution := solution s; error := error s;
       streamingResponse := streamingResponse s; history := history s;
       previewImage := previewImage s; savedSolutions := savedSolutions s |}).
Definition setSolution (v : jsvalue) : M unit :=
  modify (fun s =>
    {| input := input s; file := file s; solution := v; error := error s;
       streamingResponse := streamingResponse s; history := history s;
       previewImage := previewImage s; savedSolutions := savedSolutions s |}).
Definition setError (v : option jsstring) : M unit :=
  modify (fun s =>
    {| input := input s; file := file s; solution := solution s; error := v;
       streamingResponse := streamingResponse s; history := history s;
       previewImage := previewImage s; savedSolutions := savedSolutions s |}).
Definition setStreamingResponse (v : jsvalue) : M unit :=
  modify (fun s =>
    {| input := input s; file := file s; solution := solution s;
       error := error s; streamingResponse := v; history := history s;
       previewImage := previewImage s; savedSolutions := savedSolutions s |}).
(** [setHistory] is always called with an updater function. *)
Definition setHistory (f : list HistoryEntry -> list HistoryEntry) : M unit :=
  modify (fun s =>
    {| input := input s; file := file s; solution := solution s;
       error := error s; streamingResponse := streamingResponse s;
       history := f (history s);
       previewImage := previewImage s; savedSolutions := savedSolutions s |}).
Definition setPreviewImage (v : option jsstring) : M unit :=
  modify (fun s =>
    {| input := input s; file := file s; solution := solution s;
       error := error s; streamingResponse := streamingResponse s;
       history := history s;
       previewImage := v; savedSolutions := savedSolutions s |}).
Definition setSavedSolutions (v : jsvalue) : M unit :=
  modify (fun s =>
    {| input := input s; file := file s; solution := solution s;
       error := error s; streamingResponse := streamingResponse s;
       history := history s;
       previewImage := previewImage s; savedSolutions := v |}).

(** [v.name] for the property names the handlers read ([steps],
    [final_answer], [choices], [message], [content], [url], [error]); none of
    them is inherited from a prototype, so only objects have them.  Reading a
    property of [null] or [undefined] throws a TypeError. *)
Definition member (v : jsvalue) (name : jsstring) : M jsvalue :=
  match v with
  | None => throw
  | Some JNull => throw
  | Some (JObject props) => ret (own_property props name)
  | Some _ => ret None
  end.

(** [v?.name] *)
Definition optional_member (v : jsvalue) (name : jsstring) : jsvalue :=
  match v with
  | Some (JObject props) => own_property props name
  | _ => None
  end.

(** [v[0]] *)
Definition element0 (v : jsvalue) : M jsvalue :=
  match v with
  | None => throw
  | Some JNull => throw
  | Some (JArray items) => ret (hd_error items)
  | Some (JString []) => ret None
  | Some (JString (c :: _)) => ret (Some (JString [c]))
  | Some (JObject props) => ret (own_property props (lit "0"))
  | Some _ => ret None
  end.

(** [arr.slice(-n)]: the last [n] elements, all of them when there are fewer. *)
Definition slice_last {A} (n : nat) (arr : list A) : list A :=
  skipn (List.length arr - n) arr.

(** [await fetch(url, {method: "POST", headers, body: JSON.stringify(body)})]:
    the request goes out; the promise rejects on a network failure. *)
Definition fetch (env : environment) (url : jsstring) (body : json)
  : M (bool * option json) :=
  emit (Fetch url body) ;;
  match fetch_result env url body with
  | NetworkError => throw
  | Response ok data => ret (ok, data)
  end.

(** [await response.json()] rejects when the body is not JSON. *)
Definition response_json (response : bool * option json) : M json :=
  match snd response with
  | Some data => ret data
  | None => throw
  end.

(** [await upload({ file })] *)
Definition upload (env : environment) (f : option File) : M jsvalue :=
  emit (Upload f) ;;
  match upload_result env f with
  | UploadRejected => throw
  | UploadResolved r => ret r
  end.

(** [URL.createObjectURL(file)] throws a TypeError unless given a blob. *)
Definition URL_createObjectURL (env : environment) (f : option File)
  : M jsstring :=
  match f with
  | Some blob => ret (createObjectURL env blob)
  | None => throw
  end.

Definition ERR_INCOMPLETE : jsstring :=
  lit "Received incomplete solution data. Please try again.".
Definition ERR_FORMAT : jsstring :=
  lit "Received invalid response format. Please try again.".
Definition ERR_PROCESSING : jsstring :=
  lit "There was a problem processing the solution. Please try again.".
Definition ERR_IMAGE : jsstring :=
  lit "Failed to process the image. Please try again.".
Definition ERR_LOAD_SAVED : jsstring := lit "Failed to load saved solutions".
Definition ERR_FAVORITE : jsstring := lit "Failed to update favorite status".
Definition API_MATH_SOLUTIONS : jsstring := lit "/api/math-solutions".
Definition GPT_VISION : jsstring := lit "/integrations/gpt-vision/".

(** [JSON.parse(message)] throws a SyntaxError on text that is not JSON. *)
Definition parse (env : environment) (message : jsstring) : M json :=
  match JSON_parse env message with
  | Some v => ret v
  | None => throw
  end.

(** The entry [onFinish] appends: [{ input, solution, timestamp }]. *)
Definition new_entry (env : environment) (inp : jsvalue) (parsed : json)
  : HistoryEntry :=
  {| h_input := inp; h_solution := parsed;
     h_timestamp := toLocaleString_now env |}.

(* ================================================================== *)
(** ** The application: [content.js], first revision (lines 1-1144) *)
(* ================================================================== *)

Module Content.

Definition cleanEquation (str : jsstring) : jsstring :=
  replace_all_with_empty re_dollar
    (replace_all_with_empty re_braces
       (replace_all_with_empty re_backslash str)).

(** [cleanEquation(str)] for whatever the caller passes, as the render does
    with the fields of a payload: only a string has a [replace] method, and
    calling it on anything else throws a TypeError. *)
Definition cleanEquation_any (str : jsvalue) : completion jsstring :=
  match str with
  | Some (JString s) => Normal (cleanEquation s)
  | _ => Throw
  end.

Definition detectMathTopic (input : jsstring) : jsstring :=
  if includes input (lit "=") then lit "Algebra"
  else if matches input TRIG_RE then lit "Trigonometry"
  else if includes input INTEGRAL || includes input (lit "d/dx")
    then lit "Calculus"
  else if includes input SQRT then lit "Roots"
  else if includes input (lit "%") then lit "Percentages"
  else if includes input (lit "matrix") || includes input (lit "[")
    then lit "Matrices"
  else lit "General Mathematics".

Definition onChunk (chunk : jsvalue) : M unit := setStreamingResponse chunk.

Definition onFinish (env : environment) (message : jsstring) : M unit :=
  setStreamingResponse (Some (JString (lit ""))) ;;
  try_catch
    (parsed <- parse env message ;;
     if negb (truthy (optional_member (Some parsed) (lit "steps")))
        || negb (truthy (optional_member (Some parsed) (lit "final_answer")))
     then setError (Some ERR_INCOMPLETE)
     else
       setSolution (Some parsed) ;;
       inp <- read input ;;
       setHistory (fun prev =>
         slice_last 5 (prev ++ [new_entry env inp parsed])))
    (setError (Some ERR_FORMAT)).

Definition VISION_PROMPT : jsstring :=
  lit "Read this mathematical problem and express it as a text equation. Only return the equation, nothing else.".

Definition vision_body (prompt : jsstring) (url : jsvalue) : json :=
  object_literal
    [(lit "messages",
      Some (JArray
        [object_literal
           [(lit "role", Some (JString (lit "user")));
            (lit "content",
             Some (JArray
               [object_literal
                  [(lit "type", Some (JString (lit "text")));
                   (lit "text", Some (JString prompt))];
                object_literal
                  [(lit "type", Some (JString (lit "image_url")));
                   (lit "image_url",
                    Some (object_literal [(lit "url", url)]))]]))]]))].

(** The asynchronous handler runs to its end here: each [await] yields
    what the environment answers.  The final [solveEquation(equation)] is
    not awaited; the hand-over is recorded as an effect. *)
Definition handleImageUpload_with (prompt : jsstring) (env : environment)
  : M unit :=
  try_catch
    (f <- read file ;;
     result <- upload env f ;;
     url <- member result (lit "url") ;;
     uploadError <- member result (lit "error") ;;
     if truthy uploadError then throw
     else
       blob <- URL_createObjectURL env f ;;
       setPreviewImage (Some blob) ;;
       response <- fetch env GPT_VISION (vision_body prompt url) ;;
       if negb (fst response) then throw
       else
         data <- response_json response ;;
         choices <- member (Some data) (lit "choices") ;;
         first <- element0 choices ;;
         message <- member first (lit "message") ;;
         equation <- member message (lit "content") ;;
         setInput equation ;;
         emit (Call_solveEquation equation))
    (setError (Some ERR_IMAGE)).

Definition handleImageUpload : environment -> M unit :=
  handleImageUpload_with VISION_PROMPT.

(** [droppedFile] is [e.dataTransfer.files[0]]. *)
Definition handleDrop (env : environment) (droppedFile : option File)
  : M unit :=
  match droppedFile with
  | Some f =>
      if startsWith (file_type f) (lit "image/") then
        setFile droppedFile ;;
        blob <- URL_createObjectURL env droppedFile ;;
        setPreviewImage (Some blob)
      else ret tt
  | None => ret tt
  end.

(** The [onChange] of the file input; [picked] is [e.target.files?.[0]]. *)
Definition fileInput_onChange (env : environment) (picked : option File)
  : M unit :=
  match picked with
  | Some _ =>
      setFile picked ;;
      blob <- URL_createObjectURL env picked ;;
      setPreviewImage (Some blob)
  | None => ret tt
  end.

Definition clearAll : M unit :=
  setInput (Some (JString (lit ""))) ;;
  setFile None ;;
  setSolution (Some JNull) ;;
  setError None ;;
  setPreviewImage None.

Definition fetchSavedSolutions (env : environment) : M unit :=
  try_catch
    (response <- fetch env API_MATH_SOLUTIONS
                   (object_literal
                      [(lit "method", Some (JString (lit "GET")))]) ;;
     if negb (fst response) then throw
     else
       data <- response_json response ;;
       setSavedSolutions (Some data))
    (setError (Some ERR_LOAD_SAVED)).

Definition favorite_patch (id currentStatus : jsvalue) : json :=
  object_literal
    [(lit "method", Some (JString (lit "PATCH")));
     (lit "id", id);
     (lit "is_favorite", Some (JBool (negb (truthy currentStatus))))].

Definition toggleFavorite (env : environment) (id currentStatus : jsvalue)
  : M unit :=
  try_catch
    (_ <- fetch env API_MATH_SOLUTIONS (favorite_patch id currentStatus) ;;
     detached (fetchSavedSolutions env))
    (setError (Some ERR_FAVORITE)).

End Content.

(* ================================================================== *)
(** ** [content.js], second revision (lines 1167-2418) *)
(* ================================================================== *)

(** [cleanEquation] gains a guard on falsy arguments, which for a string is
    the empty string; the other functions are those of the first revision. *)
Module Hosted.

Definition cleanEquation (str : jsstring) : jsstring :=
  match str with
  | [] => lit ""
  | _ :: _ =>
      replace_all_with_empty re_dollar
        (replace_all_with_empty re_braces
           (replace_all_with_empty re_backslash str))
  end.

(** [cleanEquation(str)] for whatever the caller passes: the guard
    [if (!str) return ""] answers every falsy argument, string or not. *)
Definition cleanEquation_any (str : jsvalue) : completion jsstring :=
  if negb (truthy str) then Normal (lit "")
  else
    match str with
    | Some (JString s) =>
        Normal (replace_all_with_empty re_dollar
                  (replace_all_with_empty re_braces
                     (replace_all_with_empty re_backslash s)))
    | _ => Throw
    end.

Definition detectMathTopic := Content.detectMathTopic.
Definition onFinish := Content.onFinish.
Definition handleImageUpload := Content.handleImageUpload.
Definition handleDrop := Content.handleDrop.
Definition toggleFavorite := Content.toggleFavorite.

End Hosted.

(* ================================================================== *)
(** ** The revision of [part_000] *)
(* ================================================================== *)

Module Legacy.

Definition detectMathTopic (input : jsstring) : jsstring :=
  if includes input (lit "=") then lit "Algebra"
  else if includes input (lit "sin") || includes input (lit "cos")
          || includes input (lit "tan")
    then lit "Trigonometry"
  else if includes input INTEGRAL || includes input (lit "d/dx")
    then lit "Calculus"
  else if includes input SQRT then lit "Roots"
  else if includes input (lit "%") then lit "Percentages"
  else if includes input (lit "matrix") || includes input (lit "[")
    then lit "Matrices"
  else lit "General Mathematics".

(** What each failing test of the validation does before it returns. *)
Definition incomplete : M unit := setError (Some ERR_INCOMPLETE).

(** The validation [!parsedSolution || !parsedSolution.steps ||
    !parsedSolution.final_answer] reads a property only when what stands
    before it was truthy. *)
Definition onFinish (env : environment) (message : jsstring) : M unit :=
  try_catch
    (setStreamingResponse (Some (JString (lit ""))) ;;
     parsedSolution <-
       try_catch
         (p <- parse env message ;; ret (Some p))
         (setError (Some ERR_FORMAT) ;; ret None) ;;
     match parsedSolution with
     | None => ret tt
     | Some parsed =>
         if negb (truthy (Some parsed)) then incomplete
         else
           steps <- member (Some parsed) (lit "steps") ;;
           if negb (truthy steps) then incomplete
           else
             final_answer <- member (Some parsed) (lit "final_answer") ;;
             if negb (truthy final_answer) then incomplete
             else
               setSolution (Some parsed) ;;
               inp <- read input ;;
               setHistory (fun prev =>
                 slice_last 5 (prev ++ [new_entry env inp parsed]))
     end)
    (setError (Some ERR_PROCESSING)).

Definition VISION_PROMPT : jsstring :=
  lit "Read this mathematical problem and express it as a text equation. Only return the equation, nothing else. Make sure to properly format fractions, exponents, and special mathematical symbols.".

Definition handleImageUpload : environment -> M unit :=
  Content.handleImageUpload_with VISION_PROMPT.

Definition handleDrop := Content.handleDrop.
Definition toggleFavorite := Content.toggleFavorite.

End Legacy.

(* ================================================================== *)
(** ** Runs of the application *)
(* ================================================================== *)

(** The user and the network drive the component through events; each one
    comes with the answers of the environment while it is handled.  An
    asynchronous handler is run to its end within its event here; [Async]
    below lets [handleImageUpload] give way at its [await]s. *)
Inductive event : Type :=
| Typed (text : jsstring)
| StreamChunk (chunk : jsstring)
| StreamFinish (message : jsstring)
| Dropped (f : option File)
| Picked (f : option File)
| Cleared
| ImageSubmitted
| FavoriteToggled (id currentStatus : jsvalue).

Definition handle (env : environment) (ev : event) : M unit :=
  match ev with
  | Typed text => setInput (Some (JString text))
  | StreamChunk chunk => Content.onChunk (Some (JString chunk))
  | StreamFinish message => Content.onFinish env message
  | Dropped f => Content.handleDrop env f
  | Picked f => Content.fileInput_onChange env f
  | Cleared => Content.clearAll
  | ImageSubmitted => Content.handleImageUpload env
  | FavoriteToggled id st => Content.toggleFavorite env id st
  end.

(** An exception that leaves a handler is reported by the browser and the
    state written so far stays. *)
Definition step (w : world) (occ : environment * event) : world :=
  snd (handle (fst occ) (snd occ) w).

Definition run (evs : list (environment * event)) (w : world) : world :=
  fold_left step evs w.

Definition initial_world : world := {| ui := initial_state; effects := [] |}.

(** Does [onFinish] commit the payload of [message]? *)
Definition accepts (env : environment) (message : jsstring) : bool :=
  match JSON_parse env message with
  | Some parsed =>
      truthy (optional_member (Some parsed) (lit "steps"))
      && truthy (optional_member (Some parsed) (lit "final_answer"))
  | None => false
  end.

(** White space and line terminators, as [trim] understands them. *)
Definition is_js_whitespace (c : code_unit) : bool :=
  existsb (N.eqb c)
    [9; 10; 11; 12; 13; 32; 160; 5760; 8192; 8193; 8194; 8195; 8196; 8197;
     8198; 8199; 8200; 8201; 8202; 8232; 8233; 8239; 8287; 12288; 65279]%N.

(* ================================================================== *)
(** ** The remaining cells of [MainComponent] *)
(* ================================================================== *)

(** The [useState] cells read or written by solving, by the enrichment
    requests and by saving. *)
Record panel_state : Type := {
  notes : jsvalue;
  loading : bool;
  mathTopic : jsstring;
  currentModel : jsstring;
  practiceProblems : jsvalue;
  showPractice : bool;
  alternativeSolutions : jsvalue;
  showAlternativeMethods : bool
}.

Definition initial_panel : panel_state :=
  {| notes := Some (JString (lit ""));
     loading := false;
     mathTopic := lit "";
     currentModel := lit "gemini";
     practiceProblems := Some (JArray []);
     showPractice := false;
     alternativeSolutions := Some (JArray []);
     showAlternativeMethods := false |}.

Record app : Type := { page : world; panel : panel_state }.

Definition initial_app : app :=
  {| page := initial_world; panel := initial_panel |}.

(** What a handler holds of the state in its closure: the cells as they
    were when the component was last rendered, however the state changes
    while the handler waits. *)
Record closure : Type := {
  closure_input : jsvalue;
  closure_solution : jsvalue;
  closure_currentModel : jsstring
}.

Definition snapshot (a : app) : closure :=
  {| closure_input := input (ui (page a));
     closure_solution := solution (ui (page a));
     closure_currentModel := currentModel (panel a) |}.

(** What a response stream does once it is read. *)
Inductive stream_outcome : Type :=
| StreamFailed (chunks : list jsstring) (message : option jsstring)
| StreamCompleted (chunks : list jsstring) (final : jsstring).

(** The answers of the outside that the handlers below need beyond
    [environment]: the [message] of the error a rejected [fetch] or a failed
    operation of the engine carries, the decimal text of [response.status],
    the text a template literal makes of a value that is not a string, what
    the stream of a response delivers, and which of two pending requests is
    answered first. *)
Record host : Type := {
  host_env : environment;
  rejection_message : jsstring -> json -> option jsstring;
  engine_message : option jsstring;
  response_status : jsstring -> json -> jsstring;
  template_text : jsvalue -> jsstring;
  stream_of : jsstring -> json -> stream_outcome;
  second_settles_first : bool
}.

(** *** Handlers whose exceptions carry a message *)

Inductive settled (A : Type) : Type :=
| Fulfilled (a : A)
| Rejected (message : option jsstring).
Arguments Rejected {A}.

Definition H (A : Type) : Type := app -> settled A * app.

Definition retH {A} (x : A) : H A := fun a => (Fulfilled x, a).
Definition raise {A} (message : option jsstring) : H A :=
  fun a => (Rejected message, a).
Definition bindH {A B} (c : H A) (k : A -> H B) : H B :=
  fun a =>
    match c a with
    | (Fulfilled x, a') => k x a'
    | (Rejected m, a') => (Rejected m, a')
    end.
(** [try { body } catch (err) { handler }], the handler being given
    [err.message]. *)
Definition try_catchH {A} (body : H A) (handler : option jsstring -> H A)
  : H A :=
  fun a =>
    match body a with
    | (Fulfilled x, a') => (Fulfilled x, a')
    | (Rejected m, a') => handler m a'
    end.
(** [try { body } catch (err) { handler } finally { final }] *)
Definition try_catch_finally {A} (body : H A)
           (handler : option jsstring -> H A) (final : H unit) : H A :=
  fun a =>
    match try_catchH body handler a with
    | (r, a1) =>
        match final a1 with
        | (Fulfilled _, a2) => (r, a2)
        | (Rejected m, a2) => (Rejected m, a2)
        end
    end.
(** A call that is not awaited. *)
Definition detachedH {A} (c : H A) : H unit :=
  fun a => (Fulfilled tt, snd (c a)).

(** A handler of the first kind run on the page; what it throws carries
    [message]. *)
Definition lift {A} (message : option jsstring) (c : M A) : H A :=
  fun a =>
    match c (page a) with
    | (Normal x, w) => (Fulfilled x, {| page := w; panel := panel a |})
    | (Throw, w) => (Rejected message, {| page := w; panel := panel a |})
    end.

Declare Scope app_scope.
Delimit Scope app_scope with app.
Bind Scope app_scope with H.
Notation "x <- c ;; k" := (bindH c (fun x => k))
  (at level 61, c at next level, right associativity) : app_scope.
Notation "c ;; k" := (bindH c (fun _ => k))
  (at level 61, right associativity) : app_scope.

Definition readP {A} (f : panel_state -> A) : H A :=
  fun a => (Fulfilled (f (panel a)), a).
Definition modifyP (f : panel_state -> panel_state) : H unit :=
  fun a => (Fulfilled tt, {| page := page a; panel := f (panel a) |}).

Definition setNotes (v : jsvalue) : H unit :=
  modifyP (fun p =>
    {| notes := v; loading := loading p; mathTopic := mathTopic p;
       currentModel := currentModel p;
       practiceProblems := practiceProblems p; showPractice := showPractice p;
       alternativeSolutions := alternativeSolutions p;
       showAlternativeMethods := showAlternativeMethods p |}).
Definition setLoading (v : bool) : H unit :=
  modifyP (fun p =>
    {| notes := notes p; loading := v; mathTopic := mathTopic p;
       currentModel := currentModel p;
       practiceProblems := practiceProblems p; showPractice := showPractice p;
       alternativeSolutions := alternativeSolutions p;
       showAlternativeMethods := showAlternativeMethods p |}).
Definition setMathTopic (v : jsstring) : H unit :=
  modifyP (fun p =>
    {| notes := notes p; loading := loading p; mathTopic := v;
       currentModel := currentModel p;
       practiceProblems := practiceProblems p; showPractice := showPractice p;
       alternativeSolutions := alternativeSolutions p;
       showAlternativeMethods := showAlternativeMethods p |}).
Definition setCurrentModel (v : jsstring) : H unit :=
  modifyP (fun p =>
    {| notes := notes p; loading := loading p; mathTopic := mathTopic p;
       currentModel := v;
       practiceProblems := practiceProblems p; showPractice := showPractice p;
       alternativeSolutions := alternativeSolutions p;
       showAlternativeMethods := showAlternativeMethods p |}).
Definition setPracticeProblems (v : jsvalue) : H unit :=
  modifyP (fun p =>
    {| notes := notes p; loading := loading p; mathTopic := mathTopic p;
       currentModel := currentModel p;
       practiceProblems := v; showPractice := showPractice p;
       alternativeSolutions := alternativeSolutions p;
       showAlternativeMethods := showAlternativeMethods p |}).
Definition setShowPractice (v : bool) : H unit :=
  modifyP (fun p =>
    {| notes := notes p; loading := loading p; mathTopic := mathTopic p;
       currentModel := currentModel p;
       practiceProblems := practiceProblems p; showPractice := v;
       alternativeSolutions := alternativeSolutions p;
       showAlternativeMethods := showAlternativeMethods p |}).
Definition setAlternativeSolutions (v : jsvalue) : H unit :=
  modifyP (fun p =>
    {| notes := notes p; loading := loading p; mathTopic := mathTopic p;
       currentModel := currentModel p;
       practiceProblems := practiceProblems p; showPractice := showPractice p;
       alternativeSolutions := v;
       showAlternativeMethods := showAlternativeMethods p |}).
Definition setShowAlternativeMethods (v : bool) : H unit :=
  modifyP (fun p =>
    {| notes := notes p; loading := loading p; mathTopic := mathTopic p;
       currentModel := currentModel p;
       practiceProblems := practiceProblems p; showPractice := showPractice p;
       alternativeSolutions := alternativeSolutions p;
       showAlternativeMethods := v |}).

(** The request goes out ... *)
Definition send (url : jsstring) (body : json) : H unit :=
  lift None (emit (Fetch url body)).
(** ... and the handler resumes when it is answered or rejected. *)
Definition answer (h : host) (url : jsstring) (body : json)
  : H (bool * option json) :=
  match fetch_result (host_env h) url body with
  | NetworkError => raise (rejection_message h url body)
  | Response ok data => retH (ok, data)
  end.
(** [await fetch(url, ...)] *)
Definition fetchH (h : host) (url : jsstring) (body : json)
  : H (bool * option json) :=
  (send url body ;; answer h url body)%app.

(** An operation of the first kind that throws a TypeError of the engine
    when it throws. *)
Definition engine {A} (h : host) (c : M A) : H A := lift (engine_message h) c.
(** A state setter of the page. *)
Definition set {A} (c : M A) : H A := lift None c.

(** [`${v}`] *)
Definition template (h : host) (v : jsvalue) : jsstring :=
  match v with
  | Some (JString s) => s
  | _ => template_text h v
  end.

(** [str.trimStart()], [str.trim()] *)
Fixpoint trimStart (str : jsstring) : jsstring :=
  match str with
  | [] => []
  | c :: rest => if is_js_whitespace c then trimStart rest else str
  end.
Definition trim (str : jsstring) : jsstring :=
  rev (trimStart (rev (trimStart str))).

Fixpoint for_each {A} (f : A -> H unit) (l : list A) : H unit :=
  match l with
  | [] => retH tt
  | x :: rest => bindH (f x) (fun _ => for_each f rest)
  end.

(** Object and string literals of the request bodies. *)
Definition O (fields : list (string * json)) : json :=
  JObject (map (fun kv => (lit (fst kv), snd kv)) fields).
Definition S (s : string) : json := JString (lit s).

Definition GEMINI : jsstring := lit "/integrations/google-gemini-1-5/".
Definition CHAT_GPT : jsstring := lit "/integrations/chat-gpt/conversationgpt4".
Definition ERR_EMPTY : jsstring := lit "Please enter an equation to solve.".
Definition ERR_SOLVE : jsstring :=
  lit "Sorry, there was a problem solving your equation. Please try again in a moment.".
Definition ERR_PRACTICE : jsstring :=
  lit "Failed to generate practice problems".
Definition ERR_ALTERNATIVE : jsstring :=
  lit "Failed to generate alternative methods".
Definition ERR_SAVE : jsstring := lit "Failed to save solution".
Definition ERR_NOTES : jsstring := lit "Failed to update notes".
Definition STATUS_PREFIX : jsstring := lit "Server responded with status: ".

(** [{ messages: [{ role: "user", content }], json_schema }] *)
Definition chat_request (content : jsstring) (json_schema : json)
           (more : list (string * json)) : json :=
  O ([("messages"%string,
       JArray [O [("role"%string, S "user"); ("content"%string, JString content)]]);
      ("json_schema"%string, json_schema)] ++ more).

Definition STRING_TYPE : json := O [("type"%string, S "string")].

Definition STEP_SCHEMA (more : list (string * json)) : json :=
  O ([("type"%string, S "object");
      ("properties"%string,
       O [("explanation"%string, STRING_TYPE); ("equation"%string, STRING_TYPE)]);
      ("required"%string, JArray [S "explanation"; S "equation"])] ++ more).

Definition MATH_SOLUTION_SCHEMA : json :=
  O [("name"%string, S "math_solution");
     ("schema"%string,
      O [("type"%string, S "object");
         ("properties"%string,
          O [("steps"%string, O [("type"%string, S "array"); ("items"%string, STEP_SCHEMA [])]);
             ("final_answer"%string, STRING_TYPE);
             ("difficulty_level"%string, STRING_TYPE);
             ("tips"%string, O [("type"%string, S "array"); ("items"%string, STRING_TYPE)]);
             ("graph_data"%string,
              O [("type"%string, S "object");
                 ("properties"%string,
                  O [("type"%string, STRING_TYPE);
                     ("points"%string,
                      O [("type"%string, S "array");
                         ("items"%string,
                          O [("type"%string, S "object");
                             ("properties"%string,
                              O [("x"%string, O [("type"%string, S "number")]);
                                 ("y"%string, O [("type"%string, S "number")])]);
                             ("required"%string, JArray [S "x"; S "y"])])])]);
                 ("required"%string, JArray [S "type"; S "points"])])]);
         ("required"%string, JArray [S "steps"; S "final_answer"])])].

(** The schemas of the two enrichment requests; [more] is empty in
    [content.js] and [additionalProperties: false] in [part_000]. *)
Definition PRACTICE_SCHEMA (more : list (string * json)) : json :=
  O [("name"%string, S "practice_problems");
     ("schema"%string,
      O ([("type"%string, S "object");
          ("properties"%string,
           O [("problems"%string,
               O [("type"%string, S "array");
                  ("items"%string,
                   O ([("type"%string, S "object");
                       ("properties"%string,
                        O [("problem"%string, STRING_TYPE);
                           ("difficulty"%string, STRING_TYPE);
                           ("solution"%string, STRING_TYPE)]);
                       ("required"%string,
                        JArray [S "problem"; S "difficulty"; S "solution"])]
                      ++ more))])]);
          ("required"%string, JArray [S "problems"])] ++ more))].

Definition ALTERNATIVE_SCHEMA (more : list (string * json)) : json :=
  O [("name"%string, S "alternative_methods");
     ("schema"%string,
      O ([("type"%string, S "object");
          ("properties"%string,
           O [("methods"%string,
               O [("type"%string, S "array");
                  ("items"%string,
                   O ([("type"%string, S "object");
                       ("properties"%string,
                        O [("name"%string, STRING_TYPE);
                           ("steps"%string,
                            O [("type"%string, S "array");
                               ("items"%string, STEP_SCHEMA more)]);
                           ("final_answer"%string, STRING_TYPE)]);
                       ("required"%string,
                        JArray [S "name"; S "steps"; S "final_answer"])]
                      ++ more))])]);
          ("required"%string, JArray [S "methods"])] ++ more))].

Definition practice_request (h : host) (more : list (string * json))
           (inp : jsvalue) : json :=
  chat_request
    (lit "Generate 3 similar practice problems based on this math problem: "
     ++ template h inp
     ++ lit ". Make them slightly different in difficulty.")
    (PRACTICE_SCHEMA more) [].

Definition alternative_request (h : host) (more : list (string * json))
           (inp : jsvalue) : json :=
  chat_request
    (lit "Show two alternative methods to solve this math problem: "
     ++ template h inp ++ lit ". Explain each method step by step.")
    (ALTERNATIVE_SCHEMA more) [].

Definition solve_request (prompt : jsstring) (text : jsstring) : json :=
  chat_request (prompt ++ text) MATH_SOLUTION_SCHEMA
    [("stream"%string, JBool true)].

(** [data.choices[0].message.content] *)
Definition first_choice_content (data : json) : M jsvalue :=
  choices <- member (Some data) (lit "choices") ;;
  first <- element0 choices ;;
  message <- member first (lit "message") ;;
  member message (lit "content").

(** Modelled from the spec: [useHandleStreamResponse] of
    [../utilities/runtime-helpers], which is not among the sources.  The
    function it returns reads the stream of the response, hands every
    partial delivery to [onChunk] and the final accumulated text to
    [onFinish]; it rejects when reading fails. *)
Definition handleStreamResponse (h : host) (onChunk : jsvalue -> M unit)
           (onFinish : jsstring -> M unit) (url : jsstring) (body : json)
  : H unit :=
  match stream_of h url body with
  | StreamFailed chunks message =>
      (for_each (fun c => engine h (onChunk (Some (JString c)))) chunks ;;
       raise message)%app
  | StreamCompleted chunks final =>
      (for_each (fun c => engine h (onChunk (Some (JString c)))) chunks ;;
       engine h (onFinish final))%app
  end.

(** [err.message || fallback] *)
Definition message_or (message : option jsstring) (fallback : jsstring)
  : jsstring :=
  match message with
  | Some (c :: rest) => c :: rest
  | _ => fallback
  end.

(** The two halves of an enrichment request: up to its [await fetch], where
    the request has gone out, and from the answer on. *)
Definition generate_begin (body : json) : H unit := send GEMINI body.

Definition generate_resume (h : host) (body : json) (property : jsstring)
           (store : jsvalue -> H unit) (show : H unit) (failure : jsstring)
  : H unit :=
  try_catchH
    (response <- answer h GEMINI body ;;
     if negb (fst response) then raise (Some failure)
     else
       data <- engine h (response_json response) ;;
       content <- engine h (first_choice_content data) ;;
       items <- engine h (member content property) ;;
       store items ;;
       show)%app
    (fun _ => set (setError (Some failure))).

(** [await Promise.all([first(), second()])] for two calls that never
    reject: both run up to their first [await], then each resumes when it
    is answered. *)
Definition Promise_all2 (h : host) (begin1 resume1 begin2 resume2 : H unit)
  : H unit :=
  (begin1 ;; begin2 ;;
   if second_settles_first h then resume2 ;; resume1
   else resume1 ;; resume2)%app.

(* ================================================================== *)
(** ** Solving, enrichment and saving in [content.js] (both revisions) *)
(* ================================================================== *)

Module App.

Definition SOLVE_PROMPT : jsstring :=
  lit "Solve this mathematical problem and show all steps. Format all mathematical expressions properly without LaTeX or markdown symbols. Make explanations clear and detailed. Problem: ".

Definition generatePracticeProblems_resume (h : host) (inp : jsvalue)
  : H unit :=
  generate_resume h (practice_request h [] inp) (lit "problems")
    setPracticeProblems (setShowPractice true) ERR_PRACTICE.

Definition generatePracticeProblems (h : host) (inp : jsvalue) : H unit :=
  (generate_begin (practice_request h [] inp) ;;
   generatePracticeProblems_resume h inp)%app.

Definition generateAlternativeMethods_resume (h : host) (inp : jsvalue)
  : H unit :=
  generate_resume h (alternative_request h [] inp) (lit "methods")
    setAlternativeSolutions (setShowAlternativeMethods true) ERR_ALTERNATIVE.

Definition generateAlternativeMethods (h : host) (inp : jsvalue) : H unit :=
  (generate_begin (alternative_request h [] inp) ;;
   generateAlternativeMethods_resume h inp)%app.

(** [currentModel === "gemini" ? ... : ...] *)
Definition endpoint (model : jsstring) : jsstring :=
  if jsstring_eqb model (lit "gemini") then GEMINI else CHAT_GPT.

(** [solveEquation(text)], run by the handler that holds [held] in its
    closure.  A [text] that is not a string has no [trim] to call. *)
Definition solveEquation (h : host) (held : closure) (text : jsvalue)
  : H unit :=
  match text with
  | Some (JString t) =>
      if negb (truthy (Some (JString (trim t)))) then
        set (setError (Some ERR_EMPTY))
      else
        (setLoading true ;;
         set (setError None) ;;
         set (setSolution (Some JNull)) ;;
         set (setStreamingResponse (Some (JString (lit "")))) ;;
         setMathTopic (Content.detectMathTopic t) ;;
         setShowAlternativeMethods false ;;
         setShowPractice false ;;
         try_catch_finally
           (let url := endpoint (closure_currentModel held) in
            let body := solve_request SOLVE_PROMPT t in
            response <- fetchH h url body ;;
            if negb (fst response) then
              raise (Some (STATUS_PREFIX ++ response_status h url body))
            else
              handleStreamResponse h Content.onChunk
                (Content.onFinish (host_env h)) url body)
           (fun message =>
              set (setError (Some (message_or message ERR_SOLVE))))
           (setLoading false))%app
  | _ => raise (engine_message h)
  end.

(** The Solve button: [onClick={() => solveEquation(input)}]. *)
Definition solve_clicked (h : host) : H unit :=
  fun a => solveEquation h (snapshot a) (input (ui (page a))) a.

(** The model switch:
    [setCurrentModel(currentModel === "gemini" ? "gpt" : "gemini")]. *)
Definition switch_model : H unit :=
  (model <- readP currentModel ;;
   setCurrentModel
     (if jsstring_eqb model (lit "gemini") then lit "gpt" else lit "gemini"))%app.

Definition saveSolution (h : host) : H unit :=
  try_catchH
    (fun a =>
       (_ <- fetchH h API_MATH_SOLUTIONS
               (object_literal
                  [(lit "method", Some (JString (lit "POST")));
                   (lit "equation", input (ui (page a)));
                   (lit "solution", solution (ui (page a)));
                   (lit "notes", notes (panel a))]) ;;
        setNotes (Some (JString (lit ""))) ;;
        detachedH (set (Content.fetchSavedSolutions (host_env h))))%app a)
    (fun _ => set (setError (Some ERR_SAVE))).

Definition notes_patch (id : jsvalue) (newNotes : jsvalue) : json :=
  object_literal
    [(lit "method", Some (JString (lit "PATCH")));
     (lit "id", id);
     (lit "notes", newNotes)].

Definition updateNotes (h : host) (id newNotes : jsvalue) : H unit :=
  try_catchH
    (_ <- fetchH h API_MATH_SOLUTIONS (notes_patch id newNotes) ;;
     detachedH (set (Content.fetchSavedSolutions (host_env h))))%app
    (fun _ => set (setError (Some ERR_NOTES))).

End App.

(* ================================================================== *)
(** ** Solving and enrichment in [part_000] *)
(* ================================================================== *)

Module LegacyApp.

Definition SOLVE_PROMPT : jsstring :=
  lit "Solve this mathematical problem and show all steps. Format all mathematical expressions properly without LaTeX or markdown symbols. Make explanations clear and detailed, and ensure all math symbols are written in plain text: ".

Definition STRICT : list (string * json) :=
  [("additionalProperties"%string, JBool false)].

Definition onChunk (chunk : jsvalue) : M unit :=
  try_catch (setStreamingResponse chunk) (ret tt).

(** The enrichment functions take no argument here: they read [input] from
    the closure. *)
Definition generatePracticeProblems_resume (h : host) (held : closure)
  : H unit :=
  generate_resume h (practice_request h STRICT (closure_input held))
    (lit "problems") setPracticeProblems (setShowPractice true) ERR_PRACTICE.

Definition generateAlternativeMethods_resume (h : host) (held : closure)
  : H unit :=
  generate_resume h (alternative_request h STRICT (closure_input held))
    (lit "methods") setAlternativeSolutions (setShowAlternativeMethods true)
    ERR_ALTERNATIVE.

(** [solveEquation(text)]: after the stream, the enrichment requests are
    made when [solution] is truthy, which the function reads from its
    closure. *)
Definition solveEquation (h : host) (held : closure) (text : jsvalue)
  : H unit :=
  match text with
  | Some (JString t) =>
      if negb (truthy (Some (JString (trim t)))) then
        set (setError (Some ERR_EMPTY))
      else
        (setLoading true ;;
         set (setError None) ;;
         set (setSolution (Some JNull)) ;;
         set (setStreamingResponse (Some (JString (lit "")))) ;;
         setMathTopic (Legacy.detectMathTopic t) ;;
         try_catch_finally
           (let url := App.endpoint (closure_currentModel held) in
            let body := solve_request SOLVE_PROMPT t in
            response <- fetchH h url body ;;
            if negb (fst response) then
              raise (Some (STATUS_PREFIX ++ response_status h url body))
            else
              handleStreamResponse h onChunk
                (Legacy.onFinish (host_env h)) url body ;;
              if truthy (closure_solution held) then
                try_catchH
                  (Promise_all2 h
                     (generate_begin
                        (practice_request h STRICT (closure_input held)))
                     (generatePracticeProblems_resume h held)
                     (generate_begin
                        (alternative_request h STRICT (closure_input held)))
                     (generateAlternativeMethods_resume h held))
                  (fun _ => retH tt)
              else retH tt)
           (fun message =>
              set (setError (Some (message_or message ERR_SOLVE))))
           (setLoading false))%app
  | _ => raise (engine_message h)
  end.

Definition solve_clicked (h : host) : H unit :=
  fun a => solveEquation h (snapshot a) (input (ui (page a))) a.

End LegacyApp.

(* ================================================================== *)
(** ** [handleImageUpload] between its [await]s *)
(* ================================================================== *)

(** An asynchronous handler gives way at every [await]: other handlers run
    before it resumes, and it resumes with what it holds in its closure.
    [handleImageUpload] waits three times: for the upload, holding the
    [file] of the render in which the button was pressed; for the answer of
    the vision model; and for the body of that answer. *)
Inductive suspended : Type :=
| AwaitingUpload (f : option File)
| AwaitingVision (url : jsvalue)
| AwaitingBody (response : bool * option json).

Module Async.

(** Up to [await upload({ file })]. *)
Definition handleImageUpload_begin : M suspended :=
  f <- read file ;;
  emit (Upload f) ;;
  ret (AwaitingUpload f).

(** From one [await] to the next, or to the end of the handler ([None]);
    [env] holds the answer that has arrived. *)
Definition handleImageUpload_resume (prompt : jsstring) (env : environment)
           (at_await : suspended) : M (option suspended) :=
  try_catch
    (match at_await with
     | AwaitingUpload f =>
         result <- (match upload_result env f with
                    | UploadRejected => throw
                    | UploadResolved r => ret r
                    end) ;;
         url <- member result (lit "url") ;;
         uploadError <- member result (lit "error") ;;
         if truthy uploadError then throw
         else
           blob <- URL_createObjectURL env f ;;
           setPreviewImage (Some blob) ;;
           emit (Fetch GPT_VISION (Content.vision_body prompt url)) ;;
           ret (Some (AwaitingVision url))
     | AwaitingVision url =>
         match fetch_result env GPT_VISION (Content.vision_body prompt url)
         with
         | NetworkError => throw
         | Response ok data =>
             if negb ok then throw else ret (Some (AwaitingBody (ok, data)))
         end
     | AwaitingBody response =>
         data <- response_json response ;;
         choices <- member (Some data) (lit "choices") ;;
         first <- element0 choices ;;
         message <- member first (lit "message") ;;
         equation <- member message (lit "content") ;;
         setInput equation ;;
         emit (Call_solveEquation equation) ;;
         ret None
     end)
    (setError (Some ERR_IMAGE) ;; ret None).

(** The button on the preview: [setFile(null); setPreviewImage(null)]. *)
Definition removeImage : M unit :=
  setFile None ;;
  setPreviewImage None.

(** The page together with the handlers that wait for an answer, oldest
    first. *)
Record session : Type := { shown : world; waiting : list suspended }.

Definition initial_session : session :=
  {| shown := initial_world; waiting := [] |}.

(** What happens next: an event of [handle], run to its end; the image is
    removed; the Process Image button is pressed, which starts a handler
    that then waits; or the answer awaited by the [k]-th waiting handler
    arrives. *)
Inductive occurrence : Type :=
| Handled (ev : event)
| ImageRemoved
| ProcessPressed
| Settled (k : nat).

Definition advance (s : session) (occ : environment * occurrence) : session :=
  match snd occ with
  | Handled ev =>
      {| shown := step (shown s) (fst occ, ev); waiting := waiting s |}
  | ImageRemoved =>
      {| shown := snd (removeImage (shown s)); waiting := waiting s |}
  | ProcessPressed =>
      match handleImageUpload_begin (shown s) with
      | (Normal t, w) => {| shown := w; waiting := waiting s ++ [t] |}
      | (Throw, w) => {| shown := w; waiting := waiting s |}
      end
  | Settled k =>
      match nth_error (waiting s) k with
      | Some t =>
          match handleImageUpload_resume Content.VISION_PROMPT (fst occ) t
                  (shown s)
          with
          | (Normal (Some t'), w) =>
              {| shown := w;
                 waiting := firstn k (waiting s) ++ t'
                            :: skipn (Datatypes.S k) (waiting s) |}
          | (_, w) =>
              {| shown := w;
                 waiting := firstn k (waiting s)
                            ++ skipn (Datatypes.S k) (waiting s) |}
          end
      | None => s
      end
  end.

Definition proceed (occs : list (environment * occurrence)) (s : session)
  : session :=
  fold_left advance occs s.

End Async.

(* ================================================================== *)
(** ** Vocabulary of the statements *)
(* ================================================================== *)

Definition EQUALS : code_unit := 61%N.

(** The three names of the trigonometry pattern. *)
Definition trig_name (w : jsstring) : Prop :=
  w = lit "sin" \/ w = lit "cos" \/ w = lit "tan".

(** The code unit that stands before the position reached by reading [pre],
    when [prev] stood before its start. *)
Fixpoint last_unit (prev : option code_unit) (pre : jsstring)
  : option code_unit :=
  match pre with
  | [] => prev
  | c :: rest => last_unit (Some c) rest
  end.

(** One of the names occurs as a whole word: neither preceded nor followed
    by a word character. *)
Definition WholeWordTrig (input : jsstring) : Prop :=
  exists pre w post,
    input = pre ++ w ++ post /\ trig_name w
    /\ is_word_at (last_unit None pre) = false
    /\ is_word_at (hd_error post) = false.

(** One of the three names occurs somewhere in the input, inside a longer
    word or not. *)
Definition includes_trig (input : jsstring) : bool :=
  includes input (lit "sin") || includes input (lit "cos")
  || includes input (lit "tan").

(** A handler leaves the cell read by [f] as it found it, however it ends. *)
Definition keeps {A B} (f : ui_state -> A) (c : M B) : Prop :=
  forall w, f (ui (snd (c w))) = f (ui w).

(** The history entries committed along a run, oldest first. *)
Definition entry_of (w : world) (occ : environment * event)
  : list HistoryEntry :=
  match snd occ with
  | StreamFinish message =>
      match JSON_parse (fst occ) message with
      | Some parsed =>
          if accepts (fst occ) message
          then [new_entry (fst occ) (input (ui w)) parsed]
          else []
      | None => []
      end
  | _ => []
  end.

Fixpoint solved (evs : list (environment * event)) (w : world)
  : list HistoryEntry :=
  match evs with
  | [] => []
  | occ :: rest => entry_of w occ ++ solved rest (step w occ)
  end.

(** The body of the request that lists the saved solutions. *)
Definition GET_ALL : json :=
  object_literal [(lit "method", Some (JString (lit "GET")))].

(** The upload answered, and what it answered has no truthy [error]: the
    point from which [handleImageUpload] goes on to the preview. *)
Definition upload_succeeds (env : environment) (f : option File) : bool :=
  match upload_result env f with
  | UploadRejected => false
  | UploadResolved None => false
  | UploadResolved (Some JNull) => false
  | UploadResolved (Some (JObject props)) =>
      negb (truthy (own_property props (lit "error")))
  | UploadResolved (Some _) => true
  end.

(** *** Concrete inputs for the examples *)

Definition quoted (s : string) : jsstring := [34%N] ++ lit s ++ [34%N].

(** The text [{"steps":[],"final_answer":"42"}] and its parse. *)
Definition empty_steps_message : jsstring :=
  lit "{" ++ quoted "steps" ++ lit ":[]," ++ quoted "final_answer" ++ lit ":"
  ++ quoted "42" ++ lit "}".
Definition empty_steps_payload : json :=
  JObject [(lit "steps", JArray []); (lit "final_answer", JString (lit "42"))].

(** The text [{"steps":[{"explanation":"add","equation":"1+1"}],
    "final_answer":"2"}] and its parse. *)
Definition good_message : jsstring :=
  lit "{" ++ quoted "steps" ++ lit ":[{" ++ quoted "explanation" ++ lit ":"
  ++ quoted "add" ++ lit "," ++ quoted "equation" ++ lit ":" ++ quoted "1+1"
  ++ lit "}]," ++ quoted "final_answer" ++ lit ":" ++ quoted "2" ++ lit "}".
Definition good_payload : json :=
  JObject
    [(lit "steps",
      JArray [JObject [(lit "explanation", JString (lit "add"));
                       (lit "equation", JString (lit "1+1"))]]);
     (lit "final_answer", JString (lit "2"))].

(** The text [{"steps":[]}], which lacks [final_answer]. *)
Definition no_answer_message : jsstring :=
  lit "{" ++ quoted "steps" ++ lit ":[]}".
Definition no_answer_payload : json := JObject [(lit "steps", JArray [])].

(** [JSON.parse] on the texts of the examples; any other text used there
    (["Sorry, I cannot"]) is not JSON. *)
Definition example_parse (message : jsstring) : option json :=
  if jsstring_eqb message empty_steps_message then Some empty_steps_payload
  else if jsstring_eqb message good_message then Some good_payload
  else if jsstring_eqb message no_answer_message then Some no_answer_payload
  else None.

Definition photo : File :=
  {| file_name := lit "problem.png"; file_type := lit "image/png" |}.

(** An environment in which the network is down and uploads are refused. *)
Definition offline : environment :=
  {| JSON_parse := example_parse;
     fetch_result := fun _ _ => NetworkError;
     upload_result := fun _ => UploadRejected;
     createObjectURL := fun f => lit "blob:" ++ file_name f;
     toLocaleString_now := lit "1/1/2025, 12:00:00 PM" |}.

(** An environment in which every request is answered with status 200 and
    the body [[]], and uploads yield [{url: "https://files/1"}]. *)
Definition online : environment :=
  {| JSON_parse := example_parse;
     fetch_result := fun _ _ => Response true (Some (JArray []));
     upload_result := fun _ =>
       UploadResolved
         (Some (JObject [(lit "url", JString (lit "https://files/1"))]));
     createObjectURL := fun f => lit "blob:" ++ file_name f;
     toLocaleString_now := lit "1/1/2025, 12:00:00 PM" |}.

(** An environment whose vision model answers
    [{choices: [{message: {content: "x+1=2"}}]}]. *)
Definition transcribing : environment :=
  {| JSON_parse := example_parse;
     fetch_result := fun _ _ =>
       Response true
         (Some (JObject
            [(lit "choices",
              JArray
                [JObject
                   [(lit "message",
                     JObject [(lit "content", JString (lit "x+1=2"))])]])]));
     upload_result := fun _ =>
       UploadResolved
         (Some (JObject [(lit "url", JString (lit "https://files/1"))]));
     createObjectURL := fun f => lit "blob:" ++ file_name f;
     toLocaleString_now := lit "1/1/2025, 12:00:00 PM" |}.

(** The initial state after [photo] has been picked. *)
Definition photo_picked : world :=
  snd (Content.fileInput_onChange transcribing (Some photo) initial_world).

(** The seven topic names. *)
Definition TOPICS : list jsstring :=
  [lit "Algebra"; lit "Trigonometry"; lit "Calculus"; lit "Roots";
   lit "Percentages"; lit "Matrices"; lit "General Mathematics"].

(** A payload that passes the validation of [onFinish]. *)
Definition valid_solution (parsed : json) : bool :=
  truthy (optional_member (Some parsed) (lit "steps"))
  && truthy (optional_member (Some parsed) (lit "final_answer")).

(** The events that deliver the chunks of one stream, in order. *)
Definition chunk_events (env : environment) (chunks : list jsstring)
  : list (environment * event) :=
  map (fun chunk => (env, StreamChunk chunk)) chunks.

(** Every history entry holds a validated payload, and what is on display
    is [null] or the payload of the newest entry. *)
Definition history_valid (s : ui_state) : Prop :=
  Forall (fun e => valid_solution (h_solution e) = true) (history s).

Definition newest_entry_shown (s : ui_state) : Prop :=
  solution s = Some JNull
  \/ exists older e, history s = older ++ [e]
                     /\ solution s = Some (h_solution e).

(** A selected file has its preview on display. *)
Definition selected_has_preview (s : ui_state) : Prop :=
  file s = None \/ exists url, previewImage s = Some url.

(** A photo is picked and submitted, and removed again while its upload is
    still under way; then the upload answers. *)
Definition removed_while_uploading
  : list (environment * Async.occurrence) :=
  [(online, Async.Handled (Picked (Some photo)));
   (online, Async.ProcessPressed);
   (online, Async.ImageRemoved);
   (online, Async.Settled 0)].

(** A handler that is not interrupted: pressed, then answered three times
    with nothing in between. *)
Definition uninterrupted (env : environment)
  : list (environment * Async.occurrence) :=
  [(env, Async.ProcessPressed); (env, Async.Settled 0);
   (env, Async.Settled 0); (env, Async.Settled 0)].

(** The body [saveSolution] sends from the state [a]. *)
Definition save_request (a : app) : json :=
  object_literal
    [(lit "method", Some (JString (lit "POST")));
     (lit "equation", input (ui (page a)));
     (lit "solution", solution (ui (page a)));
     (lit "notes", notes (panel a))].

(** What an operation of the first kind yields when it does not depend on
    the state. *)
Definition value_of {A} (c : M A) : option A :=
  match fst (c initial_world) with
  | Normal x => Some x
  | Throw => None
  end.

(** The [url] in what the upload answered. *)
Definition uploaded_url (env : environment) (f : option File) : jsvalue :=
  match upload_result env f with
  | UploadResolved (Some (JObject props)) => own_property props (lit "url")
  | _ => None
  end.

(** What [handleImageUpload] reads as the equation in the answer of the
    vision model: [None] when the request is rejected, the status is not ok,
    the body is not JSON or [choices[0].message] cannot be read; otherwise
    [Some] of what stands under [content], which may be anything. *)
Definition transcription (prompt : jsstring) (env : environment)
           (url : jsvalue) : option jsvalue :=
  match fetch_result env GPT_VISION (Content.vision_body prompt url) with
  | Response true (Some data) => value_of (first_choice_content data)
  | _ => None
  end.

(** The list an enrichment request stores: [None] when the request fails,
    be it by the network, the status, the body or the shape of the answer;
    [Some items] otherwise, where [items] may be [undefined]. *)
Definition enrichment_items (h : host) (body : json) (property : jsstring)
  : option jsvalue :=
  match fetch_result (host_env h) GEMINI body with
  | Response true (Some data) =>
      value_of (content <- first_choice_content data ;;
                member content property)
  | _ => None
  end.

(** [n] presses of the model switch. *)
Fixpoint switches (n : nat) (a : app) : app :=
  match n with
  | 0 => a
  | Datatypes.S m => snd (App.switch_model (switches m a))
  end.

(** The message a solve reports when its request fails: that of the
    rejection, or the status when the answer is not ok; [None] when the
    request is answered ok. *)
Definition request_failure (h : host) (url : jsstring) (body : json)
  : option jsstring :=
  match fetch_result (host_env h) url body with
  | NetworkError => Some (message_or (rejection_message h url body) ERR_SOLVE)
  | Response false _ => Some (STATUS_PREFIX ++ response_status h url body)
  | Response true _ => None
  end.

(** The state in which a solve waits for its answer: the cells are reset,
    the topic is set and the request has gone out.  Only [content.js]
    hides the two enrichment panels. *)
Definition dispatched (topic : jsstring) (hide_panels : bool)
           (url : jsstring) (body : json) (a : app) : app :=
  snd ((setLoading true ;;
        set (setError None) ;;
        set (setSolution (Some JNull)) ;;
        set (setStreamingResponse (Some (JString (lit "")))) ;;
        setMathTopic topic ;;
        (if hide_panels
         then setShowAlternativeMethods false ;; setShowPractice false
         else retH tt) ;;
        send url body)%app a).

(** How a solve ends: the error of a failure is reported, and the loading
    flag goes off in any case. *)
Definition concluded (failure : option (option jsstring)) (a : app) : app :=
  snd (setLoading false
         (match failure with
          | Some message =>
              snd (set (setError (Some (message_or message ERR_SOLVE))) a)
          | None => a
          end)).

(** A text with something to solve in it. *)
Definition nonblank (t : jsstring) : Prop :=
  exists c, In c t /\ is_js_whitespace c = false.

(** The state once the chunks of a stream have been handed to [onChunk]. *)
Definition buffered (chunks : list jsstring) (a : app) : app :=
  match chunks with
  | [] => a
  | c :: rest =>
      snd (set (setStreamingResponse (Some (JString (last rest c)))) a)
  end.

(** An environment whose vision model answers [{choices: [{message: {}}]}],
    a message without [content]. *)
Definition speechless : environment :=
  {| JSON_parse := example_parse;
     fetch_result := fun _ _ =>
       Response true
         (Some (JObject
            [(lit "choices",
              JArray [JObject [(lit "message", JObject [])]])]));
     upload_result := fun _ =>
       UploadResolved
         (Some (JObject [(lit "url", JString (lit "https://files/1"))]));
     createObjectURL := fun f => lit "blob:" ++ file_name f;
     toLocaleString_now := lit "1/1/2025, 12:00:00 PM" |}.

Definition speechless_picked : world :=
  snd (Content.fileInput_onChange speechless (Some photo) initial_world).

(** The request of a solve is answered ok and the stream of the answer
    completes with the accumulated text [final]. *)
Definition completes_with (h : host) (url : jsstring) (body : json)
           (final : jsstring) : Prop :=
  (exists data, fetch_result (host_env h) url body = Response true data)
  /\ exists chunks, stream_of h url body = StreamCompleted chunks final.

(** *** Hosts for the examples *)

Definition base_host (env : environment) (stream : stream_outcome) : host :=
  {| host_env := env;
     rejection_message := fun _ _ => Some (lit "Failed to fetch");
     engine_message := Some (lit "text.trim is not a function");
     response_status := fun _ _ => lit "500";
     template_text := fun _ => lit "undefined";
     stream_of := fun _ _ => stream;
     second_settles_first := false |}.

Definition offline_host : host :=
  base_host offline (StreamFailed [] None).

(** Every request is answered with status 200 and the stream delivers one
    partial text and then the valid payload of the examples. *)
Definition streaming_host : host :=
  base_host online (StreamCompleted [lit "{"] good_message).

(** Every request is answered with status 200 and the stream completes at
    once with [final]. *)
Definition answering (final : jsstring) : host :=
  base_host online (StreamCompleted [] final).

(** The page after a first solve has committed the valid payload of the
    examples. *)
Definition solved_once : app :=
  snd (App.solveEquation streaming_host (snapshot initial_app)
         (Some (JString (lit "1+1"))) initial_app).

(* ================================================================== *)
(** ** Strings: what the primitives compute *)
(* ================================================================== *)

Lemma startsWith_spec (p s : jsstring) :
  startsWith s p = true <-> exists post, s = p ++ post.
Proof.
  revert s; induction p as [|a p IH]; intros s; simpl.
  - split; [intros _; now exists s | reflexivity].
  - destruct s as [|b s].
    + split; [discriminate | intros [post H]; discriminate].
    + rewrite andb_true_iff, N.eqb_eq, IH. split.
      * intros [-> [post ->]]. now exists post.
      * intros [post H]. injection H as -> ->. split; [reflexivity | now exists post].
Qed.

Lemma includes_spec (needle s : jsstring) :
  includes s needle = true <-> Substring needle s.
Proof.
  unfold Substring. induction s as [|c s IH].
  - cbn [includes]. rewrite orb_false_r, startsWith_spec. split.
    + intros [post H]. now exists [], post.
    + intros [pre [post H]]. destruct pre; [now exists post | discriminate].
  - cbn [includes]. rewrite orb_true_iff, startsWith_spec, IH. split.
    + intros [[post H] | [pre [post H]]].
      * now exists [], post.
      * exists (c :: pre), post. now rewrite H.
    + intros [[|x pre] [post H]].
      * left. now exists post.
      * right. injection H as _ H. now exists pre, post.
Qed.

Lemma includes_char (c : code_unit) (s : jsstring) :
  includes s [c] = true <-> In c s.
Proof.
  rewrite includes_spec. split.
  - intros [pre [post ->]]. apply in_or_app. right. now left.
  - intros H. apply in_split in H. destruct H as [pre [post ->]].
    now exists pre, post.
Qed.

Lemma includes_false (needle s : jsstring) :
  ~ Substring needle s -> includes s needle = false.
Proof.
  intros H. destruct (includes s needle) eqn:E; [|reflexivity].
  now apply includes_spec in E.
Qed.

(* ================================================================== *)
(** ** The trigonometry pattern *)
(* ================================================================== *)

Lemma rmatch_RLit_startsWith (w : jsstring) :
  forall prev s k, rmatch (RLit w) prev s k = true -> startsWith s w = true.
Proof.
  induction w as [|c w IH]; intros prev s k H; [reflexivity|].
  cbn [RLit rmatch] in H. destruct s as [|x s]; [discriminate|].
  apply andb_true_iff in H. destruct H as [Hx Hk].
  cbn [startsWith]. rewrite Hx. cbn. eapply IH. exact Hk.
Qed.

Lemma rmatch_TRIG_RE_startsWith prev s k :
  rmatch TRIG_RE prev s k = true ->
  startsWith s (lit "sin") || startsWith s (lit "cos")
  || startsWith s (lit "tan") = true.
Proof.
  unfold TRIG_RE. cbn [rmatch]. intros H.
  apply andb_true_iff in H. destruct H as [_ H].
  rewrite !orb_true_iff in H. rewrite !orb_true_iff.
  destruct H as [H | [H | H]]; apply rmatch_RLit_startsWith in H; auto.
Qed.

Lemma startsWith_includes s p : startsWith s p = true -> includes s p = true.
Proof. intros H. destruct s; cbn [includes]; now rewrite H. Qed.

Lemma includes_cons c s p : includes s p = true -> includes (c :: s) p = true.
Proof. intros H. cbn [includes]. rewrite H. apply orb_true_r. Qed.

Lemma includes_trig_cons c s :
  includes_trig s = true -> includes_trig (c :: s) = true.
Proof.
  unfold includes_trig. rewrite !orb_true_iff.
  intros [[H | H] | H]; auto using includes_cons.
Qed.

(** A match of the word-bounded pattern is in particular an occurrence of
    one of the three names. *)
Lemma rsearch_TRIG_RE_includes s :
  forall prev, rsearch TRIG_RE prev s = true -> includes_trig s = true.
Proof.
  induction s as [|c s IH]; intros prev H; cbn [rsearch] in H;
    apply orb_true_iff in H; destruct H as [H | H].
  - apply rmatch_TRIG_RE_startsWith in H. discriminate.
  - discriminate.
  - apply rmatch_TRIG_RE_startsWith in H. unfold includes_trig.
    rewrite !orb_true_iff in *.
    destruct H as [[H | H] | H]; auto using startsWith_includes.
  - apply includes_trig_cons. eapply IH. exact H.
Qed.

Lemma matches_TRIG_RE_includes input :
  matches input TRIG_RE = true -> includes_trig input = true.
Proof. apply rsearch_TRIG_RE_includes. Qed.

(** What the matcher computes on a literal word: the word is read off the
    input and the continuation takes over behind it. *)
Lemma rmatch_RLit_spec (w : jsstring) :
  forall prev s k,
    rmatch (RLit w) prev s k = true <->
    exists post, s = w ++ post /\ k (last_unit prev w) post = true.
Proof.
  induction w as [|c w IH]; intros prev s k; cbn [RLit rmatch last_unit].
  - split.
    + intros H. now exists s.
    + intros [post [-> H]]. exact H.
  - destruct s as [|x s].
    + split; [discriminate | intros [post [H _]]; discriminate].
    + rewrite andb_true_iff, N.eqb_eq, IH. split.
      * intros [-> [post [-> H]]]. now exists post.
      * intros [post [H Hk]]. injection H as -> ->.
        split; [reflexivity | now exists post].
Qed.

Lemma trig_name_shape w :
  trig_name w ->
  exists a b c, w = [a; b; c] /\ is_word_char a = true
                /\ is_word_char c = true.
Proof.
  intros [-> | [-> | ->]]; do 3 eexists; repeat split.
Qed.

Lemma rmatch_TRIG_RE_spec prev s :
  rmatch TRIG_RE prev s (fun _ _ => true) = true <->
  is_word_at prev = false
  /\ exists w post, trig_name w /\ s = w ++ post
                    /\ is_word_at (hd_error post) = false.
Proof.
  unfold TRIG_RE. cbn [rmatch].
  rewrite andb_true_iff, !orb_true_iff, !rmatch_RLit_spec. split.
  - intros [Hb H].
    assert (Hw : exists w post, trig_name w /\ s = w ++ post
                                /\ is_word_at (hd_error post) = false).
    { unfold trig_name.
      destruct H as [[post [-> H]] | [[post [-> H]] | [post [-> H]]]];
        cbn in H; rewrite andb_true_r in H; apply negb_true_iff in H;
        eauto 10. }
    split; [|exact Hw].
    destruct Hw as (w & post & Hn & -> & _).
    destruct (trig_name_shape Hn) as (a & b & c & -> & Ha & _).
    cbn in Hb. rewrite Ha in Hb. now destruct (is_word_at prev).
  - intros [Hp (w & post & Hn & -> & Hpost)]. split.
    + destruct (trig_name_shape Hn) as (a & b & c & -> & Ha & _).
      cbn. now rewrite Hp, Ha.
    + destruct Hn as [-> | [-> | ->]];
        [left | right; left | right; right]; exists post;
        (split; [reflexivity|]); cbn; now rewrite Hpost.
Qed.

Lemma rsearch_TRIG_RE_spec s :
  forall prev,
    rsearch TRIG_RE prev s = true <->
    exists pre w post,
      s = pre ++ w ++ post /\ trig_name w
      /\ is_word_at (last_unit prev pre) = false
      /\ is_word_at (hd_error post) = false.
Proof.
  induction s as [|c s IH]; intros prev; cbn [rsearch];
    rewrite orb_true_iff, rmatch_TRIG_RE_spec.
  - split.
    + intros [[Hp (w & post & Hn & Hs & Hpost)] | H]; [|discriminate].
      exists [], w, post. auto.
    + intros (pre & w & post & Hs & Hn & _). exfalso.
      destruct (trig_name_shape Hn) as (a & b & c0 & -> & _).
      destruct pre; discriminate.
  - rewrite IH. split.
    + intros [[Hp (w & post & Hn & Hs & Hpost)]
             | (pre & w & post & Hs & Hn & Hpre & Hpost)].
      * exists [], w, post. auto.
      * exists (c :: pre), w, post. rewrite Hs. auto.
    + intros ([|x pre] & w & post & Hs & Hn & Hpre & Hpost).
      * left. split; [exact Hpre|]. exists w, post. auto.
      * right. injection Hs as -> ->. exists pre, w, post. auto.
Qed.

(** The pattern [/\b(sin|cos|tan)\b/] matches exactly the inputs in which
    one of the names occurs as a whole word. *)
Lemma matches_TRIG_RE_spec input :
  matches input TRIG_RE = true <-> WholeWordTrig input.
Proof. apply rsearch_TRIG_RE_spec. Qed.

(* ================================================================== *)
(** ** [cleanEquation] *)
(* ================================================================== *)

Lemma replace_all_with_empty_filter pat str :
  replace_all_with_empty pat str = filter (fun c => negb (pat c)) str.
Proof.
  induction str as [|c str IH]; [reflexivity|].
  cbn [replace_all_with_empty filter]. rewrite IH. now destruct (pat c).
Qed.

Lemma filter_filter {A} (f g : A -> bool) (l : list A) :
  filter f (filter g l) = filter (fun x => g x && f x) l.
Proof.
  induction l as [|x l IH]; [reflexivity|].
  cbn [filter]. destruct (g x); cbn [filter andb]; rewrite IH; reflexivity.
Qed.

Lemma cleanEquation_filter str :
  Content.cleanEquation str = filter (fun c => negb (is_markup c)) str.
Proof.
  unfold Content.cleanEquation. rewrite !replace_all_with_empty_filter.
  rewrite !filter_filter. apply filter_ext. intros c.
  unfold is_markup, re_backslash, re_braces, re_dollar.
  rewrite !negb_orb. now rewrite !andb_assoc.
Qed.

Lemma Hosted_cleanEquation_eq str :
  Hosted.cleanEquation str = Content.cleanEquation str.
Proof. now destruct str. Qed.

Lemma cleanEquation_In c str :
  In c (Content.cleanEquation str) <->
  In c str /\ c <> BACKSLASH /\ c <> LBRACE /\ c <> RBRACE /\ c <> DOLLAR.
Proof.
  rewrite cleanEquation_filter, filter_In. unfold is_markup.
  rewrite negb_true_iff, !orb_false_iff, !N.eqb_neq. tauto.
Qed.

(** C6. For every string, [cleanEquation] returns its characters other than
    backslash, the two braces and the dollar sign, in their order (both
    revisions); a character is in the result exactly when it is in the input
    and is none of the four; and [cleanEquation("\\frac{1}{2}")] is
    ["frac12"]. *)
Theorem cleanEquation_strips_markup :
  forall str : jsstring,
    Content.cleanEquation str = filter (fun c => negb (is_markup c)) str
    /\ Hosted.cleanEquation str = filter (fun c => negb (is_markup c)) str
    /\ (forall c, In c (Content.cleanEquation str) <->
                  In c str /\ c <> BACKSLASH /\ c <> LBRACE
                  /\ c <> RBRACE /\ c <> DOLLAR)
    /\ Content.cleanEquation (lit "\frac{1}{2}") = lit "frac12"
    /\ Hosted.cleanEquation (lit "\frac{1}{2}") = lit "frac12".
Proof.
  intros str. split; [|split; [|split; [|split]]].
  - apply cleanEquation_filter.
  - rewrite Hosted_cleanEquation_eq. apply cleanEquation_filter.
  - intros c. apply cleanEquation_In.
  - reflexivity.
  - reflexivity.
Qed.

Lemma filter_idempotent {A} (f : A -> bool) (l : list A) :
  filter f (filter f l) = filter f l.
Proof.
  rewrite filter_filter. apply filter_ext. intros x. now destruct (f x).
Qed.

(** C10. [cleanEquation] is idempotent, in both revisions. *)
Theorem cleanEquation_idempotent :
  forall s : jsstring,
    Content.cleanEquation (Content.cleanEquation s) = Content.cleanEquation s
    /\ Hosted.cleanEquation (Hosted.cleanEquation s) = Hosted.cleanEquation s.
Proof.
  intros s. rewrite !Hosted_cleanEquation_eq, !cleanEquation_filter.
  split; apply filter_idempotent.
Qed.

(* ================================================================== *)
(** ** [detectMathTopic] *)
(* ================================================================== *)

(** C4. An input that contains the character [=] is classified as Algebra
    by every revision, whatever else it contains. *)
Theorem detectMathTopic_equals_is_Algebra :
  forall input : jsstring,
    In EQUALS input ->
    Content.detectMathTopic input = lit "Algebra"
    /\ Hosted.detectMathTopic input = lit "Algebra"
    /\ Legacy.detectMathTopic input = lit "Algebra".
Proof.
  intros input H. apply includes_char in H.
  unfold Hosted.detectMathTopic, Content.detectMathTopic,
    Legacy.detectMathTopic.
  change (lit "=") with [EQUALS]. rewrite H. auto.
Qed.

Lemma detectMathTopic_equals_witness :
  In EQUALS (lit "sin(x) = [1 2] % 3")
  /\ Content.detectMathTopic (lit "sin(x) = [1 2] % 3") = lit "Algebra"
  /\ Hosted.detectMathTopic (lit "sin(x) = [1 2] % 3") = lit "Algebra"
  /\ Legacy.detectMathTopic (lit "sin(x) = [1 2] % 3") = lit "Algebra".
Proof.
  assert (H : In EQUALS (lit "sin(x) = [1 2] % 3")).
  { apply includes_char. reflexivity. }
  split; [exact H|].
  exact (detectMathTopic_equals_is_Algebra (lit "sin(x) = [1 2] % 3") H).
Defined.

(** C5. A non-empty input in which none of the tokens [=], [sin], [cos],
    [tan], the integral sign, [d/dx], the root sign, [%], [matrix], [[]
    occurs is classified as General Mathematics by every revision. *)
Theorem detectMathTopic_default :
  forall input : jsstring,
    input <> [] ->
    ~ Substring (lit "=") input ->
    ~ Substring (lit "sin") input ->
    ~ Substring (lit "cos") input ->
    ~ Substring (lit "tan") input ->
    ~ Substring INTEGRAL input ->
    ~ Substring (lit "d/dx") input ->
    ~ Substring SQRT input ->
    ~ Substring (lit "%") input ->
    ~ Substring (lit "matrix") input ->
    ~ Substring (lit "[") input ->
    Content.detectMathTopic input = lit "General Mathematics"
    /\ Hosted.detectMathTopic input = lit "General Mathematics"
    /\ Legacy.detectMathTopic input = lit "General Mathematics".
Proof.
  intros input _ Heq Hsin Hcos Htan Hint Hddx Hsqrt Hpct Hmat Hbr.
  apply includes_false in Heq, Hsin, Hcos, Htan, Hint, Hddx, Hsqrt, Hpct,
    Hmat, Hbr.
  assert (Hre : matches input TRIG_RE = false).
  { destruct (matches input TRIG_RE) eqn:E; [|reflexivity].
    apply matches_TRIG_RE_includes in E. unfold includes_trig in E.
    rewrite Hsin, Hcos, Htan in E. discriminate. }
  unfold Hosted.detectMathTopic, Content.detectMathTopic,
    Legacy.detectMathTopic.
  rewrite Heq, Hre, Hsin, Hcos, Htan, Hint, Hddx, Hsqrt, Hpct, Hmat, Hbr.
  auto.
Qed.

Lemma not_Substring_by_computation (needle s : jsstring) :
  includes s needle = false -> ~ Substring needle s.
Proof.
  intros E H. apply includes_spec in H. rewrite H in E. discriminate.
Defined.

Lemma detectMathTopic_default_witness :
  Content.detectMathTopic (lit "2 + 3 * 7") = lit "General Mathematics"
  /\ Hosted.detectMathTopic (lit "2 + 3 * 7") = lit "General Mathematics"
  /\ Legacy.detectMathTopic (lit "2 + 3 * 7") = lit "General Mathematics".
Proof.
  apply (detectMathTopic_default (input := lit "2 + 3 * 7"));
    [discriminate | apply not_Substring_by_computation; reflexivity ..].
Defined.

(** C9 fails as stated: on ["sinx"] the pattern with word boundaries does
    not match, the substring test does. *)
Lemma detectMathTopic_revisions_differ :
  Content.detectMathTopic (lit "sinx") = lit "General Mathematics"
  /\ Legacy.detectMathTopic (lit "sinx") = lit "Trigonometry"
  /\ Content.detectMathTopic (lit "sinx") <> Legacy.detectMathTopic (lit "sinx").
Proof. repeat split. discriminate. Qed.

Lemma includes_trig_spec input :
  includes_trig input = true <->
  exists w, trig_name w /\ Substring w input.
Proof.
  unfold includes_trig, trig_name.
  rewrite !orb_true_iff, !includes_spec. split.
  - intros [[H | H] | H]; eauto 6.
  - intros [w [[-> | [-> | ->]] H]]; auto.
Qed.

(** C9, amended. The two revisions agree on every input except those that
    contain no [=] and contain one of [sin], [cos], [tan] but never as a
    whole word: there the substring revision answers Trigonometry and the
    pattern revision goes on to its later rules.  The pattern matches
    exactly when one of the names occurs with no word character before and
    after it, the substring test exactly when one occurs at all, and a match
    of the pattern always is such an occurrence. *)
Theorem detectMathTopic_revisions_related :
  forall input : jsstring,
    Legacy.detectMathTopic input =
      (if negb (includes input (lit "=")) && negb (matches input TRIG_RE)
          && includes_trig input
       then lit "Trigonometry"
       else Content.detectMathTopic input)
    /\ matches input TRIG_RE && negb (includes_trig input) = false
    /\ (matches input TRIG_RE = true <-> WholeWordTrig input)
    /\ (includes_trig input = true <->
        exists w, trig_name w /\ Substring w input)
    /\ (includes input (lit "=") = true <-> In EQUALS input).
Proof.
  intros input.
  assert (H : matches input TRIG_RE && negb (includes_trig input) = false).
  { destruct (matches input TRIG_RE) eqn:E; [|reflexivity].
    apply matches_TRIG_RE_includes in E. now rewrite E. }
  split; [|split; [exact H|split; [apply matches_TRIG_RE_spec|split]]].
  - unfold Legacy.detectMathTopic, Content.detectMathTopic.
    fold (includes_trig input).
    destruct (includes input (lit "=")); [reflexivity|].
    destruct (matches input TRIG_RE), (includes_trig input);
      try reflexivity; discriminate.
  - apply includes_trig_spec.
  - apply includes_char.
Qed.

(* ================================================================== *)
(** ** Which cells a handler leaves alone *)
(* ================================================================== *)

Section Keeps.
Context {A : Type} (f : ui_state -> A).

Lemma keeps_ret {B} (b : B) : keeps f (ret b).
Proof. intros w. reflexivity. Qed.

Lemma keeps_throw {B} : keeps f (@throw B).
Proof. intros w. reflexivity. Qed.

Lemma keeps_emit e : keeps f (emit e).
Proof. intros w. reflexivity. Qed.

Lemma keeps_read {B} (g : ui_state -> B) : keeps f (read g).
Proof. intros w. reflexivity. Qed.

Lemma keeps_bind {B C} (c : M B) (k : B -> M C) :
  keeps f c -> (forall b, keeps f (k b)) -> keeps f (bind c k).
Proof.
  intros Hc Hk w. unfold bind. specialize (Hc w).
  destruct (c w) as [[b|] w']; cbn [snd] in *; [|exact Hc].
  now rewrite Hk.
Qed.

Lemma keeps_try_catch {B} (body handler : M B) :
  keeps f body -> keeps f handler -> keeps f (try_catch body handler).
Proof.
  intros Hb Hh w. unfold try_catch. specialize (Hb w).
  destruct (body w) as [[b|] w']; cbn [snd] in *; [exact Hb|].
  now rewrite Hh.
Qed.

Lemma keeps_detached {B} (c : M B) : keeps f c -> keeps f (detached c).
Proof. intros Hc w. apply Hc. Qed.

Lemma keeps_modify (g : ui_state -> ui_state) :
  (forall s, f (g s) = f s) -> keeps f (modify g).
Proof. intros H w. apply H. Qed.

Lemma keeps_fetch env url body : keeps f (fetch env url body).
Proof.
  unfold fetch. apply keeps_bind; [apply keeps_emit|]. intros _.
  destruct (fetch_result env url body); [apply keeps_throw | apply keeps_ret].
Qed.

Lemma keeps_upload env file0 : keeps f (upload env file0).
Proof.
  unfold upload. apply keeps_bind; [apply keeps_emit|]. intros _.
  destruct (upload_result env file0); [apply keeps_throw | apply keeps_ret].
Qed.

Lemma keeps_member v name : keeps f (member v name).
Proof.
  destruct v as [[]|]; cbn [member];
    first [apply keeps_throw | apply keeps_ret].
Qed.

Lemma keeps_element0 v : keeps f (element0 v).
Proof.
  destruct v as [[| | |[|]| |]|]; cbn [element0];
    first [apply keeps_throw | apply keeps_ret].
Qed.

Lemma keeps_response_json r : keeps f (response_json r).
Proof.
  unfold response_json. destruct (snd r);
    [apply keeps_ret | apply keeps_throw].
Qed.

Lemma keeps_createObjectURL env file0 : keeps f (URL_createObjectURL env file0).
Proof.
  destruct file0; cbn [URL_createObjectURL];
    [apply keeps_ret | apply keeps_throw].
Qed.

Lemma keeps_parse env message : keeps f (parse env message).
Proof.
  unfold parse. destruct (JSON_parse env message);
    [apply keeps_ret | apply keeps_throw].
Qed.

End Keeps.

Create HintDb keeps.
#[local] Hint Resolve keeps_ret keeps_throw keeps_emit keeps_read keeps_fetch
  keeps_upload keeps_member keeps_element0 keeps_response_json
  keeps_createObjectURL keeps_parse : keeps.

(** Break a handler into its statements; the setters are closed by
    computation when they write another cell. *)
Ltac keeps_step :=
  first
    [ solve [auto with keeps]
    | apply keeps_modify; intros ?; reflexivity
    | match goal with
      | |- keeps _ (bind _ _) => apply keeps_bind; [|intros ?]
      | |- keeps _ (try_catch _ _) => apply keeps_try_catch
      | |- keeps _ (detached _) => apply keeps_detached
      end
    | match goal with
      | |- keeps _ (if ?b then _ else _) => destruct b
      | |- keeps _ (match ?x with _ => _ end) => destruct x
      end ].
Ltac keeps_auto := repeat keeps_step.

(* ================================================================== *)
(** ** [onFinish]: validation of the streamed payload *)
(* ================================================================== *)

Ltac unfold_handler :=
  cbv beta delta
    [Content.onFinish Legacy.onFinish Legacy.incomplete parse bind try_catch
     ret throw read modify setStreamingResponse setError setSolution
     setHistory member] iota.

(** The nested [try] blocks of the older revision and the single one of
    [content.js] come to the same: its outer [catch] is never entered. *)
Lemma Legacy_onFinish_eq env message w :
  Legacy.onFinish env message w = Content.onFinish env message w.
Proof.
  unfold_handler.
  destruct (JSON_parse env message) as [parsed|]; [|reflexivity].
  destruct parsed as [|b|x|str|items|props];
    cbv beta delta [optional_member truthy] iota.
  - reflexivity.
  - now destruct b.
  - now destruct x.
  - now destruct str.
  - reflexivity.
  - fold (truthy (own_property props (lit "steps"))).
    fold (truthy (own_property props (lit "final_answer"))).
    destruct (truthy (own_property props (lit "steps"))); [|reflexivity].
    destruct (truthy (own_property props (lit "final_answer")));
      reflexivity.
Qed.


(** The callback by itself.  When the accumulated text is not JSON,
    [onFinish] (either revision) ends normally having reported "invalid
    response format"; the Solution and the history of the state it runs on
    are as it found them and the streaming buffer is empty.  Within a solve
    that state is the one [solveEquation] has reset. *)
Theorem onFinish_invalid_json_reports_format_error :
  forall (env : environment) (message : jsstring) (w : world),
    JSON_parse env message = None ->
    let w' := snd (Content.onFinish env message w) in
    Legacy.onFinish env message w = Content.onFinish env message w
    /\ fst (Content.onFinish env message w) = Normal tt
    /\ error (ui w') = Some ERR_FORMAT
    /\ ERR_FORMAT = lit "Received invalid response format. Please try again."
    /\ solution (ui w') = solution (ui w)
    /\ history (ui w') = history (ui w)
    /\ streamingResponse (ui w') = Some (JString (lit "")).
Proof.
  intros env message w H w'. split; [apply Legacy_onFinish_eq|].
  subst w'. unfold_handler. rewrite H. cbn. repeat split.
Qed.

Lemma onFinish_invalid_json_witness :
  JSON_parse offline (lit "Sorry, I cannot solve this.") = None
  /\ error (ui (snd (Content.onFinish offline
                       (lit "Sorry, I cannot solve this.") initial_world)))
     = Some ERR_FORMAT
  /\ solution (ui (snd (Content.onFinish offline
                          (lit "Sorry, I cannot solve this.") initial_world)))
     = Some JNull.
Proof.
  split; [reflexivity|].
  destruct (onFinish_invalid_json_reports_format_error offline
              (lit "Sorry, I cannot solve this.") initial_world eq_refl)
    as (_ & _ & He & _ & Hs & _).
  split; [exact He | exact Hs].
Defined.

(** The callback commits the payload [{"steps":[],"final_answer":"42"}],
    whose [steps] is empty: it becomes the Solution and enters the history,
    and nothing is reported. *)
Lemma onFinish_accepts_empty_steps :
  JSON_parse online empty_steps_message = Some empty_steps_payload
  /\ optional_member (Some empty_steps_payload) (lit "steps")
     = Some (JArray [])
  /\ solution (ui initial_world) = Some JNull
  /\ solution (ui (snd (Content.onFinish online empty_steps_message
                          initial_world)))
     = Some empty_steps_payload
  /\ error (ui (snd (Content.onFinish online empty_steps_message
                       initial_world)))
     = None
  /\ List.length (history (ui (snd (Content.onFinish online
                                      empty_steps_message initial_world))))
     = 1
  /\ Legacy.onFinish online empty_steps_message initial_world
     = Content.onFinish online empty_steps_message initial_world.
Proof. repeat split. Qed.

(** The validation of the callback.  When the accumulated text parses,
    [onFinish] (either revision) commits the payload exactly when its
    [steps] and its [final_answer] are both truthy: then the payload becomes
    the Solution and one entry is appended to the history; otherwise
    "incomplete solution data" is reported and the Solution and the history
    of the state it runs on stay as it found them.  In both cases the
    streaming buffer is emptied.  A [final_answer] string is
    truthy exactly when it is not empty; a [steps] array is always truthy,
    the empty one too; a missing property and [null] are not. *)
Theorem onFinish_validates_payload :
  forall (env : environment) (message : jsstring) (parsed : json) (w : world),
    JSON_parse env message = Some parsed ->
    let w' := snd (Content.onFinish env message w) in
    Legacy.onFinish env message w = Content.onFinish env message w
    /\ fst (Content.onFinish env message w) = Normal tt
    /\ streamingResponse (ui w') = Some (JString (lit ""))
    /\ (if truthy (optional_member (Some parsed) (lit "steps"))
           && truthy (optional_member (Some parsed) (lit "final_answer"))
        then solution (ui w') = Some parsed
             /\ history (ui w')
                = slice_last 5
                    (history (ui w) ++ [new_entry env (input (ui w)) parsed])
             /\ error (ui w') = error (ui w)
        else error (ui w') = Some ERR_INCOMPLETE
             /\ solution (ui w') = solution (ui w)
             /\ history (ui w') = history (ui w))
    /\ ERR_INCOMPLETE
       = lit "Received incomplete solution data. Please try again."
    /\ (forall items, truthy (Some (JArray items)) = true)
    /\ (forall s, truthy (Some (JString s)) = negb (jsstring_eqb s (lit "")))
    /\ truthy None = false
    /\ truthy (Some JNull) = false.
Proof.
  intros env message parsed w H w'. split; [apply Legacy_onFinish_eq|].
  subst w'. unfold_handler. rewrite H.
  destruct (truthy (optional_member (Some parsed) (lit "steps")));
    [destruct (truthy (optional_member (Some parsed) (lit "final_answer")))|];
    cbn; repeat split; now destruct s.
Qed.

Lemma onFinish_validates_payload_witness :
  JSON_parse online good_message = Some good_payload
  /\ solution (ui (snd (Content.onFinish online good_message initial_world)))
     = Some good_payload
  /\ JSON_parse online no_answer_message = Some no_answer_payload
  /\ error (ui (snd (Content.onFinish online no_answer_message
                       initial_world)))
     = Some ERR_INCOMPLETE
  /\ solution (ui (snd (Content.onFinish online no_answer_message
                          initial_world)))
     = solution (ui initial_world).
Proof.
  split; [reflexivity|].
  destruct (onFinish_validates_payload online good_message initial_world
              eq_refl) as (_ & _ & _ & Hgood & _).
  destruct (onFinish_validates_payload online no_answer_message initial_world
              eq_refl) as (_ & _ & _ & Hbad & _).
  split; [exact (proj1 Hgood)|].
  split; [reflexivity|].
  split; [exact (proj1 Hbad) | exact (proj1 (proj2 Hbad))].
Defined.

(* ================================================================== *)
(** ** The history: the five most recent solutions *)
(* ================================================================== *)

Lemma slice_last_length {A} n (l : list A) : List.length (slice_last n l) <= n.
Proof. unfold slice_last. rewrite length_skipn. lia. Qed.

Lemma slice_last_short {A} n (l : list A) :
  List.length l <= n -> slice_last n l = l.
Proof.
  intros H. unfold slice_last.
  replace (List.length l - n) with 0 by lia. reflexivity.
Qed.

(** Truncating early does not change what the last [n] elements are. *)
Lemma slice_last_app {A} n (l more : list A) :
  slice_last n (slice_last n l ++ more) = slice_last n (l ++ more).
Proof.
  destruct (Nat.le_gt_cases (List.length l) n) as [H | H].
  - now rewrite (slice_last_short l H).
  - unfold slice_last. rewrite !length_app, length_skipn.
    replace (List.length l - (List.length l - n) + List.length more - n)
      with (List.length more) by lia.
    replace (List.length l + List.length more - n)
      with (List.length more + (List.length l - n)) by lia.
    rewrite <- skipn_skipn. f_equal. rewrite skipn_app.
    replace (List.length l - n - List.length l) with 0 by lia.
    reflexivity.
Qed.

Lemma keeps_history_handleImageUpload prompt env :
  keeps history (Content.handleImageUpload_with prompt env).
Proof. unfold Content.handleImageUpload_with. keeps_auto. Qed.

Lemma keeps_history_fetchSavedSolutions env :
  keeps history (Content.fetchSavedSolutions env).
Proof. unfold Content.fetchSavedSolutions. keeps_auto. Qed.

Lemma keeps_history_toggleFavorite env id st :
  keeps history (Content.toggleFavorite env id st).
Proof.
  unfold Content.toggleFavorite. keeps_auto.
  apply keeps_history_fetchSavedSolutions.
Qed.

Lemma keeps_history_handleDrop env f :
  keeps history (Content.handleDrop env f).
Proof. unfold Content.handleDrop. keeps_auto. Qed.

Lemma keeps_history_fileInput env f :
  keeps history (Content.fileInput_onChange env f).
Proof. unfold Content.fileInput_onChange. keeps_auto. Qed.

Lemma keeps_history_clearAll : keeps history Content.clearAll.
Proof. unfold Content.clearAll. keeps_auto. Qed.

(** [onFinish] is the only writer of the history. *)
Lemma onFinish_history env message w :
  history (ui (snd (Content.onFinish env message w)))
  = match JSON_parse env message with
    | Some parsed =>
        if accepts env message
        then slice_last 5
               (history (ui w) ++ [new_entry env (input (ui w)) parsed])
        else history (ui w)
    | None => history (ui w)
    end.
Proof.
  unfold accepts. unfold_handler.
  destruct (JSON_parse env message) as [parsed|]; [|reflexivity].
  destruct (truthy (optional_member (Some parsed) (lit "steps")));
    [destruct (truthy (optional_member (Some parsed) (lit "final_answer")))|];
    reflexivity.
Qed.

Lemma step_history w occ :
  List.length (history (ui w)) <= 5 ->
  history (ui (step w occ)) = slice_last 5 (history (ui w) ++ entry_of w occ).
Proof.
  intros Hlen. destruct occ as [env ev]. unfold step, entry_of.
  cbn [fst snd handle].
  assert (Hsame : slice_last 5 (history (ui w) ++ []) = history (ui w)).
  { rewrite app_nil_r. now apply slice_last_short. }
  destruct ev; cbn [handle].
  - now rewrite Hsame.
  - now rewrite Hsame.
  - rewrite onFinish_history.
    destruct (JSON_parse env message); [|now rewrite Hsame].
    destruct (accepts env message); [reflexivity | now rewrite Hsame].
  - rewrite keeps_history_handleDrop. now rewrite Hsame.
  - rewrite keeps_history_fileInput. now rewrite Hsame.
  - rewrite keeps_history_clearAll. now rewrite Hsame.
  - unfold Content.handleImageUpload.
    rewrite keeps_history_handleImageUpload. now rewrite Hsame.
  - rewrite keeps_history_toggleFavorite. now rewrite Hsame.
Qed.

Lemma run_history evs :
  forall w,
    List.length (history (ui w)) <= 5 ->
    history (ui (run evs w)) = slice_last 5 (history (ui w) ++ solved evs w).
Proof.
  induction evs as [|occ evs IH]; intros w Hlen.
  - cbn. rewrite app_nil_r. symmetry. now apply slice_last_short.
  - cbn [run fold_left solved]. fold (run evs (step w occ)).
    rewrite IH.
    + rewrite (step_history w occ Hlen), slice_last_app. now rewrite app_assoc.
    + rewrite (step_history w occ Hlen). apply slice_last_length.
Qed.

(** C3. After any run of the application from its initial state the history
    holds at most five entries, and they are the last five (all, when there
    are fewer) of the entries of the successful solves so far, in their
    order: each successful solve appends one entry, and with five entries
    held the oldest leaves as the new one enters.  The older revision's
    [onFinish] acts on the state as this one does. *)
Theorem history_keeps_five_most_recent :
  forall evs : list (environment * event),
    let w := run evs initial_world in
    List.length (history (ui w)) <= 5
    /\ history (ui w) = slice_last 5 (solved evs initial_world)
    /\ (forall env message parsed,
          JSON_parse env message = Some parsed ->
          accepts env message = true ->
          history (ui (step w (env, StreamFinish message)))
          = slice_last 5
              (history (ui w) ++ [new_entry env (input (ui w)) parsed]))
    /\ (forall (e1 e2 e3 e4 e5 e6 : HistoryEntry),
          slice_last 5 ([e1; e2; e3; e4; e5] ++ [e6]) = [e2; e3; e4; e5; e6])
    /\ (forall env message w0,
          Legacy.onFinish env message w0 = Content.onFinish env message w0).
Proof.
  intros evs w.
  assert (Hrun : history (ui w) = slice_last 5 (solved evs initial_world)).
  { subst w. rewrite run_history; [reflexivity | cbn; lia]. }
  split; [rewrite Hrun; apply slice_last_length|].
  split; [exact Hrun|].
  split; [|split; [reflexivity | intros; apply Legacy_onFinish_eq]].
  intros env message parsed Hp Ha. unfold step. cbn [fst snd handle].
  now rewrite onFinish_history, Hp, Ha.
Qed.

(* ================================================================== *)
(** ** Saved solutions: the favorite toggle *)
(* ================================================================== *)

Lemma fetchSavedSolutions_effects env w :
  effects (snd (Content.fetchSavedSolutions env w))
  = effects w ++ [Fetch API_MATH_SOLUTIONS GET_ALL].
Proof.
  cbv beta delta [Content.fetchSavedSolutions try_catch bind fetch emit ret
                  throw] iota.
  fold GET_ALL.
  destruct (fetch_result env API_MATH_SOLUTIONS GET_ALL) as [|[|] [data|]];
    reflexivity.
Qed.

Lemma favorite_patch_fields id currentStatus :
  optional_member (Some (Content.favorite_patch id currentStatus))
    (lit "method") = Some (JString (lit "PATCH"))
  /\ optional_member (Some (Content.favorite_patch id currentStatus))
       (lit "id") = id
  /\ optional_member (Some (Content.favorite_patch id currentStatus))
       (lit "is_favorite") = Some (JBool (negb (truthy currentStatus))).
Proof. destruct id; repeat split. Qed.

(** C7 fails as stated: when the PATCH request is rejected by the network,
    no request for the collection follows. *)
Lemma toggleFavorite_offline_no_refetch :
  effects (snd (Content.toggleFavorite offline (Some (JString (lit "7")))
                  (Some (JBool false)) initial_world))
  = [Fetch API_MATH_SOLUTIONS
       (Content.favorite_patch (Some (JString (lit "7")))
          (Some (JBool false)))]
  /\ error (ui (snd (Content.toggleFavorite offline
                       (Some (JString (lit "7"))) (Some (JBool false))
                       initial_world)))
     = Some ERR_FAVORITE.
Proof. split; reflexivity. Qed.

(** C7, amended. [toggleFavorite] first sends a PATCH for the given id whose
    [is_favorite] is the negation of the current status.  When that request
    is answered, with whatever HTTP status, the request for the whole
    collection follows and nothing else is sent; when it is rejected, nothing
    follows and "Failed to update favorite status" is reported. *)
Theorem toggleFavorite_patch_then_refetch :
  forall (env : environment) (id currentStatus : jsvalue) (w : world),
    let patch := Content.favorite_patch id currentStatus in
    let w' := snd (Content.toggleFavorite env id currentStatus w) in
    optional_member (Some patch) (lit "method") = Some (JString (lit "PATCH"))
    /\ optional_member (Some patch) (lit "id") = id
    /\ optional_member (Some patch) (lit "is_favorite")
       = Some (JBool (negb (truthy currentStatus)))
    /\ (forall b, truthy (Some (JBool b)) = b)
    /\ match fetch_result env API_MATH_SOLUTIONS patch with
       | Response _ _ =>
           effects w'
           = effects w ++ [Fetch API_MATH_SOLUTIONS patch;
                           Fetch API_MATH_SOLUTIONS GET_ALL]
       | NetworkError =>
           effects w' = effects w ++ [Fetch API_MATH_SOLUTIONS patch]
           /\ error (ui w') = Some ERR_FAVORITE
       end
    /\ optional_member (Some GET_ALL) (lit "method")
       = Some (JString (lit "GET"))
    /\ Legacy.toggleFavorite env id currentStatus w
       = Content.toggleFavorite env id currentStatus w
    /\ Hosted.toggleFavorite env id currentStatus w
       = Content.toggleFavorite env id currentStatus w.
Proof.
  intros env id currentStatus w patch w'.
  destruct (favorite_patch_fields id currentStatus) as (Hm & Hid & Hfav).
  repeat (split; [assumption || reflexivity|]).
  split; [|repeat split].
  subst w'.
  cbv beta delta [Content.toggleFavorite try_catch bind fetch emit detached
                  ret throw] iota.
  fold patch.
  destruct (fetch_result env API_MATH_SOLUTIONS patch) as [|ok data];
    cbv beta iota.
  - split; reflexivity.
  - cbn [fst snd]. rewrite fetchSavedSolutions_effects. cbn [effects].
    now rewrite <- app_assoc.
Qed.

(* ================================================================== *)
(** ** From an image to an equation *)
(* ================================================================== *)

(** C8 fails as stated: dropping an image sets the preview at once, before
    anything has been uploaded. *)
Lemma handleDrop_sets_preview_before_upload :
  previewImage (ui initial_world) = None
  /\ previewImage (ui (snd (Content.handleDrop online (Some photo)
                              initial_world)))
     = Some (lit "blob:problem.png")
  /\ effects (snd (Content.handleDrop online (Some photo) initial_world))
     = []
  /\ Legacy.handleDrop online (Some photo) initial_world
     = Content.handleDrop online (Some photo) initial_world.
Proof. repeat split. Qed.

Ltac unfold_upload :=
  cbv beta delta
    [Content.handleImageUpload_with try_catch bind ret throw read modify emit
     upload fetch response_json URL_createObjectURL setPreviewImage setInput
     setError] iota.

Ltac case_split :=
  match goal with
  | |- context [match ?x with _ => _ end] =>
      lazymatch x with
      | context [match _ with _ => _ end] => fail
      | _ => destruct x eqn:?
      end
  end.

Lemma handleImageUpload_upload_failed prompt env w :
  upload_succeeds env (file (ui w)) = false ->
  snd (Content.handleImageUpload_with prompt env w)
  = snd (setError (Some ERR_IMAGE)
           (snd (emit (Upload (file (ui w))) w))).
Proof.
  unfold upload_succeeds. unfold_upload. cbn [ui effects].
  destruct (upload_result env (file (ui w))) as [|[[|b|x|s|items|props]|]];
    cbn [member ret throw]; cbv beta iota; try reflexivity;
    try discriminate.
  intros H. apply negb_false_iff in H. rewrite H. reflexivity.
Qed.

Lemma try_catch_setError_normal (body : M unit) e w :
  fst (try_catch body (setError e) w) = Normal tt.
Proof.
  unfold try_catch. destruct (body w) as [[[]|] w']; reflexivity.
Qed.

(** The whole flow on a picked image: upload, preview, transcription, and
    the hand-over of the transcribed equation to [solveEquation]. *)
Example handleImageUpload_hands_over :
  effects (snd (Content.handleImageUpload transcribing photo_picked))
  = [Upload (Some photo);
     Fetch GPT_VISION
       (Content.vision_body Content.VISION_PROMPT
          (Some (JString (lit "https://files/1"))));
     Call_solveEquation (Some (JString (lit "x+1=2")))]
  /\ input (ui (snd (Content.handleImageUpload transcribing photo_picked)))
     = Some (JString (lit "x+1=2"))
  /\ error (ui (snd (Content.handleImageUpload transcribing photo_picked)))
     = None.
Proof. repeat split. Qed.

(** Reading properties neither reads nor writes the state. *)
Lemma stateless_member v name w :
  member v name w = (fst (member v name initial_world), w).
Proof. destruct v as [[]|]; reflexivity. Qed.

Lemma stateless_element0 v w :
  element0 v w = (fst (element0 v initial_world), w).
Proof. destruct v as [[| | |[|]| |]|]; reflexivity. Qed.

Lemma stateless_first_choice_content data w :
  first_choice_content data w
  = (fst (first_choice_content data initial_world), w).
Proof.
  unfold first_choice_content, bind.
  rewrite (stateless_member (Some data) (lit "choices") w).
  destruct (fst (member (Some data) (lit "choices") initial_world))
    as [choices|] eqn:E1.
  - rewrite (surjective_pairing (member _ _ initial_world)), E1.
    rewrite (stateless_element0 choices w),
      (stateless_element0 choices (snd _)).
    destruct (fst (element0 choices initial_world)) as [first|] eqn:E2;
      [|reflexivity].
    rewrite (stateless_member first (lit "message") w),
      (stateless_member first (lit "message") (snd _)).
    destruct (fst (member first (lit "message") initial_world))
      as [message|] eqn:E3; [|reflexivity].
    rewrite (stateless_member message (lit "content") w),
      (stateless_member message (lit "content") (snd _)).
    reflexivity.
  - rewrite (surjective_pairing (member _ _ initial_world)), E1.
    reflexivity.
Qed.

(** The path [choices[0].message.content] read inside a handler. *)
Lemma first_choice_content_then {A} data (k : jsvalue -> M A) w :
  (choices <- member (Some data) (lit "choices") ;;
   first <- element0 choices ;;
   message <- member first (lit "message") ;;
   equation <- member message (lit "content") ;;
   k equation) w
  = match value_of (first_choice_content data) with
    | Some equation => k equation w
    | None => (Throw, w)
    end.
Proof.
  unfold value_of, first_choice_content.
  cbv beta delta [bind member element0 ret throw] iota.
  repeat case_split; cbn [fst snd] in *; try reflexivity; congruence.
Qed.

(** C8, amended. [handleImageUpload] (each revision, whatever its prompt)
    never lets an exception out.  It sets the preview only after the upload
    has answered without a truthy [error]: when the upload is rejected or
    answers with an error, or no file is selected, the handler only records
    the upload and reports "Failed to process the image. Please try again.",
    the preview and every other cell staying as they were.  After a
    successful upload the handler has put the preview of the file it holds
    on display, and no later failure takes it back; the same message is
    then reported exactly when the answer of the vision model yields no
    [choices[0].message.content] to read: the request is rejected, the status is not ok, the body is not
    JSON, or the path cannot be read; the input is then unchanged and
    [solveEquation] is not called.  What is read is not examined: missing,
    [null], blank or not a string, it becomes the input and the argument of
    [solveEquation], and the handler reports nothing.  (The preview is also
    set by [handleDrop], before any upload.) *)
Theorem handleImageUpload_preview_and_errors :
  forall (prompt : jsstring) (env : environment) (w : world),
    let f := file (ui w) in
    let url := uploaded_url env f in
    let request := Fetch GPT_VISION (Content.vision_body prompt url) in
    let w' := snd (Content.handleImageUpload_with prompt env w) in
    fst (Content.handleImageUpload_with prompt env w) = Normal tt
    /\ (if upload_succeeds env f
        then match f with
             | Some blob =>
                 previewImage (ui w') = Some (createObjectURL env blob)
                 /\ match transcription prompt env url with
                    | Some equation =>
                        input (ui w') = equation
                        /\ error (ui w') = error (ui w)
                        /\ effects w'
                           = effects w ++ [Upload f; request;
                                           Call_solveEquation equation]
                    | None =>
                        error (ui w') = Some ERR_IMAGE
                        /\ input (ui w') = input (ui w)
                        /\ effects w' = effects w ++ [Upload f; request]
                    end
             | None =>
                 w' = snd (setError (Some ERR_IMAGE) (snd (emit (Upload f) w)))
                 /\ previewImage (ui w') = previewImage (ui w)
             end
        else w' = snd (setError (Some ERR_IMAGE) (snd (emit (Upload f) w)))
             /\ previewImage (ui w') = previewImage (ui w))
    /\ ERR_IMAGE = lit "Failed to process the image. Please try again."
    /\ Content.handleImageUpload env w
       = Content.handleImageUpload_with Content.VISION_PROMPT env w
    /\ Legacy.handleImageUpload env w
       = Content.handleImageUpload_with Legacy.VISION_PROMPT env w.
Proof.
  intros prompt env w f url request w'.
  split; [apply try_catch_setError_normal|].
  split; [|repeat split].
  subst w' request url f.
  destruct (upload_succeeds env (file (ui w))) eqn:Hup.
  2:{ rewrite (handleImageUpload_upload_failed prompt env w Hup).
      split; reflexivity. }
  unfold Content.handleImageUpload_with.
  set (tail := fun data : json => bind (member (Some data) (lit "choices")) _).
  assert (Htail : forall data w0,
             tail data w0
             = match value_of (first_choice_content data) with
               | Some equation =>
                   (setInput equation ;; emit (Call_solveEquation equation)) w0
               | None => (Throw, w0)
               end).
  { intros data w0. subst tail. apply first_choice_content_then. }
  clearbody tail.
  unfold upload_succeeds in Hup. unfold uploaded_url, transcription.
  cbv beta delta
    [try_catch bind ret throw read modify emit upload fetch response_json
     URL_createObjectURL setPreviewImage setInput setError] iota.
  cbn [ui effects].
  destruct (file (ui w)) as [blob|] eqn:Hf;
    destruct (upload_result env _) as [|[[|b|x|s|items|props]|]];
    try discriminate Hup; cbn [member]; cbv beta delta [ret throw] iota;
    cbn [truthy fst snd ui effects previewImage];
    try (apply negb_true_iff in Hup; rewrite Hup);
    try (split; reflexivity).
  all: match goal with
       | |- context [fetch_result ?e GPT_VISION ?body] =>
           destruct (fetch_result e GPT_VISION body) as [|[|] [data|]]
       end;
    cbv beta iota; cbn [fst snd negb ui effects previewImage input error];
    rewrite ?Htail;
    try match goal with
        | |- context [value_of (first_choice_content ?d)] =>
            destruct (value_of (first_choice_content d)) as [equation|]
        end;
    cbv beta delta [bind setInput modify emit] iota;
    cbn [fst snd ui effects previewImage input error];
    rewrite <- ?app_assoc; repeat split.
Qed.

(* ================================================================== *)
(** ** More on the topic classification *)
(* ================================================================== *)

(** X1. Whatever the input, every revision of [detectMathTopic] answers
    with one of the seven topic names. *)
Theorem detectMathTopic_range :
  forall input : jsstring,
    In (Content.detectMathTopic input) TOPICS
    /\ In (Hosted.detectMathTopic input) TOPICS
    /\ In (Legacy.detectMathTopic input) TOPICS.
Proof.
  intros input.
  unfold Hosted.detectMathTopic, Content.detectMathTopic,
    Legacy.detectMathTopic, TOPICS.
  repeat match goal with
         | |- context [if ?b then _ else _] => destruct b
         end;
    repeat split; cbn [In]; tauto.
Qed.

(** X2. The pattern revision answers Trigonometry exactly for the inputs
    without [=] in which [sin], [cos] or [tan] stands as a whole word; the
    substring revision exactly for the inputs without [=] in which one of
    them occurs at all. *)
Theorem detectMathTopic_Trigonometry_iff :
  forall input : jsstring,
    (Content.detectMathTopic input = lit "Trigonometry" <->
     ~ In EQUALS input /\ WholeWordTrig input)
    /\ (Legacy.detectMathTopic input = lit "Trigonometry" <->
        ~ In EQUALS input /\ exists w, trig_name w /\ Substring w input).
Proof.
  intros input.
  rewrite <- matches_TRIG_RE_spec, <- includes_trig_spec, <- includes_char.
  unfold Content.detectMathTopic, Legacy.detectMathTopic.
  fold (includes_trig input). change [EQUALS] with (lit "=").
  destruct (includes input (lit "=")).
  - split; (split; [discriminate | intros [H _]; now elim H]).
  - split.
    + destruct (matches input TRIG_RE).
      * split; [intros _; split; [discriminate | reflexivity] | reflexivity].
      * split; [|intros [_ H]; discriminate].
        repeat match goal with
               | |- context [if ?b then _ else _] => destruct b
               end; discriminate.
    + destruct (includes_trig input).
      * split; [intros _; split; [discriminate | reflexivity] | reflexivity].
      * split; [|intros [_ H]; discriminate].
        repeat match goal with
               | |- context [if ?b then _ else _] => destruct b
               end; discriminate.
Qed.

Lemma includes_false_iff needle s :
  includes s needle = false <-> ~ Substring needle s.
Proof.
  rewrite <- includes_spec. destruct (includes s needle).
  - split; [discriminate | intros H; now elim H].
  - split; [discriminate | reflexivity].
Qed.

(** X3. The pattern revision answers General Mathematics exactly when the
    input has no [=], no whole-word [sin], [cos] or [tan], and none of the
    integral sign, [d/dx], the root sign, [%], [matrix] and [[]; the
    substring revision exactly when moreover none of the three names occurs
    anywhere. *)
Theorem detectMathTopic_General_iff :
  forall input : jsstring,
    let no_other_token :=
      ~ Substring INTEGRAL input /\ ~ Substring (lit "d/dx") input
      /\ ~ Substring SQRT input /\ ~ Substring (lit "%") input
      /\ ~ Substring (lit "matrix") input /\ ~ Substring (lit "[") input in
    (Content.detectMathTopic input = lit "General Mathematics" <->
     ~ In EQUALS input /\ ~ WholeWordTrig input /\ no_other_token)
    /\ (Legacy.detectMathTopic input = lit "General Mathematics" <->
        ~ In EQUALS input
        /\ ~ (exists w, trig_name w /\ Substring w input)
        /\ no_other_token).
Proof.
  intros input no_other_token. subst no_other_token.
  rewrite <- matches_TRIG_RE_spec, <- includes_trig_spec, <- includes_char.
  rewrite <- !includes_false_iff.
  unfold Content.detectMathTopic, Legacy.detectMathTopic.
  fold (includes_trig input). change [EQUALS] with (lit "=").
  destruct (includes input (lit "=")), (matches input TRIG_RE),
    (includes_trig input), (includes input INTEGRAL),
    (includes input (lit "d/dx")), (includes input SQRT),
    (includes input (lit "%")), (includes input (lit "matrix")),
    (includes input (lit "["));
    cbn [orb]; split; split;
    first [ discriminate
          | intros (H1 & H2 & H3 & H4 & H5 & H6 & H7 & H8);
            first [ discriminate | now elim H1 | now elim H2 ]
          | intros _; repeat split; first [reflexivity | discriminate]
          | reflexivity ].
Qed.

(* ================================================================== *)
(** ** More on [cleanEquation] *)
(* ================================================================== *)

(** X4. Cleaning a concatenation is concatenating the cleaned parts, in
    both revisions: markup is removed character by character, never across
    a boundary. *)
Theorem cleanEquation_app :
  forall a b : jsstring,
    Content.cleanEquation (a ++ b)
    = Content.cleanEquation a ++ Content.cleanEquation b
    /\ Hosted.cleanEquation (a ++ b)
       = Hosted.cleanEquation a ++ Hosted.cleanEquation b.
Proof.
  intros a b. rewrite !Hosted_cleanEquation_eq, !cleanEquation_filter.
  split; apply filter_app.
Qed.

Lemma filter_id_iff {A} (f : A -> bool) (l : list A) :
  filter f l = l <-> forall x, In x l -> f x = true.
Proof.
  induction l as [|x l IH]; cbn [filter In].
  - split; [intros _ y [] | reflexivity].
  - destruct (f x) eqn:E.
    + split.
      * intros H. injection H as H. intros y [<- | Hy]; [exact E|].
        now apply IH.
      * intros H. f_equal. apply IH. auto.
    + split.
      * intros H. exfalso.
        assert (Hlen : List.length (filter f l) <= List.length l)
          by apply filter_length_le.
        rewrite H in Hlen. cbn in Hlen. lia.
      * intros H. specialize (H x (or_introl eq_refl)). congruence.
Qed.

(** X5. [cleanEquation] never lengthens a string, and it returns its
    argument unchanged exactly when the argument holds no backslash, brace
    or dollar sign.  On strings the two revisions of [content.js] agree.  On
    any other argument the first revision throws, there being no [replace]
    to call, while the second answers the empty string when the argument is
    falsy ([undefined], [null], [0], [NaN], [false]) and throws like the
    first otherwise: the revisions differ exactly on the falsy arguments
    that are not strings. *)
Theorem cleanEquation_fixed_points :
  forall (str : jsstring) (v : jsvalue),
    List.length (Content.cleanEquation str) <= List.length str
    /\ (Content.cleanEquation str = str <->
        forall c, In c str ->
                  c <> BACKSLASH /\ c <> LBRACE /\ c <> RBRACE
                  /\ c <> DOLLAR)
    /\ Content.cleanEquation_any (Some (JString str))
       = Normal (Content.cleanEquation str)
    /\ Hosted.cleanEquation_any (Some (JString str))
       = Normal (Content.cleanEquation str)
    /\ Hosted.cleanEquation_any v
       = (if truthy v then Content.cleanEquation_any v else Normal (lit ""))
    /\ (Content.cleanEquation_any v = Throw <->
        forall s, v <> Some (JString s))
    /\ (Hosted.cleanEquation_any v = Content.cleanEquation_any v <->
        truthy v = true \/ exists s, v = Some (JString s))
    /\ Content.cleanEquation_any None = Throw
    /\ Hosted.cleanEquation_any None = Normal (lit "")
    /\ Content.cleanEquation_any (Some JNull) = Throw
    /\ Hosted.cleanEquation_any (Some JNull) = Normal (lit "").
Proof.
  intros str v.
  assert (Hv : Hosted.cleanEquation_any v
               = (if truthy v then Content.cleanEquation_any v
                  else Normal (lit ""))).
  { unfold Hosted.cleanEquation_any, Content.cleanEquation_any,
      Content.cleanEquation.
    destruct (truthy v); reflexivity. }
  assert (Hs : Hosted.cleanEquation_any (Some (JString str))
               = Normal (Content.cleanEquation str)).
  { destruct str; reflexivity. }
  split; [rewrite cleanEquation_filter; apply filter_length_le|].
  split.
  { rewrite cleanEquation_filter. split.
    - intros H c Hc.
      apply (proj1 (filter_id_iff (fun c => negb (is_markup c)) str) H) in Hc.
      unfold is_markup in Hc.
      rewrite negb_true_iff, !orb_false_iff, !N.eqb_neq in Hc. tauto.
    - intros H. apply filter_id_iff. intros c Hc. specialize (H c Hc).
      unfold is_markup.
      rewrite negb_true_iff, !orb_false_iff, !N.eqb_neq. tauto. }
  split; [reflexivity|]. split; [exact Hs|]. split; [exact Hv|].
  split.
  { split.
    - intros H s ->. discriminate H.
    - intros H. destruct v as [[| | |s| |]|]; try reflexivity.
      now elim (H s). }
  split; [|repeat split].
  rewrite Hv. split.
  - intros H. destruct (truthy v) eqn:Ht; [left; reflexivity|].
    right. destruct v as [[| | |s| |]|]; try discriminate H.
    now exists s.
  - intros [-> | [s ->]]; [reflexivity|].
    destruct s; reflexivity.
Qed.

(* ================================================================== *)
(** ** Dropping and picking files *)
(* ================================================================== *)

(** X6. [handleDrop] takes a dropped file only when its MIME type begins
    with [image/]: then the file and its preview are set and nothing else
    changes; a file of another type, or no file, leaves the whole state as
    it was.  The file input takes any picked file, whatever its type.
    Neither sends anything. *)
Theorem handleDrop_accepts_images_only :
  forall (env : environment) (f : option File) (w : world),
    let dropped := snd (Content.handleDrop env f w) in
    let picked := snd (Content.fileInput_onChange env f w) in
    match f with
    | Some x =>
        (startsWith (file_type x) (lit "image/") = true <->
         exists rest, file_type x = lit "image/" ++ rest)
        /\ (if startsWith (file_type x) (lit "image/")
            then file (ui dropped) = Some x
                 /\ previewImage (ui dropped) = Some (createObjectURL env x)
                 /\ input (ui dropped) = input (ui w)
                 /\ solution (ui dropped) = solution (ui w)
                 /\ error (ui dropped) = error (ui w)
                 /\ history (ui dropped) = history (ui w)
                 /\ effects dropped = effects w
            else dropped = w)
        /\ file (ui picked) = Some x
        /\ previewImage (ui picked) = Some (createObjectURL env x)
        /\ effects picked = effects w
    | None => dropped = w /\ picked = w
    end.
Proof.
  intros env [x|] w dropped picked; subst dropped picked;
    [|split; reflexivity].
  split; [apply startsWith_spec|].
  unfold Content.handleDrop.
  destruct (startsWith (file_type x) (lit "image/")); repeat split.
Qed.

(* ================================================================== *)
(** ** Loading the saved solutions *)
(* ================================================================== *)

(** X7. [fetchSavedSolutions] sends exactly one request, the GET of the
    collection, and never throws.  Only an answer with an ok status and a
    JSON body replaces the cached collection, the error staying as it was;
    a network failure, a status that is not ok, or a body that is not JSON
    leaves the cached collection as it was and reports "Failed to load
    saved solutions".  No other cell changes. *)
Theorem fetchSavedSolutions_outcomes :
  forall (env : environment) (w : world),
    let w' := snd (Content.fetchSavedSolutions env w) in
    fst (Content.fetchSavedSolutions env w) = Normal tt
    /\ effects w' = effects w ++ [Fetch API_MATH_SOLUTIONS GET_ALL]
    /\ match fetch_result env API_MATH_SOLUTIONS GET_ALL with
       | Response true (Some data) =>
           savedSolutions (ui w') = Some data
           /\ error (ui w') = error (ui w)
       | _ =>
           savedSolutions (ui w') = savedSolutions (ui w)
           /\ error (ui w') = Some ERR_LOAD_SAVED
       end
    /\ ERR_LOAD_SAVED = lit "Failed to load saved solutions"
    /\ input (ui w') = input (ui w)
    /\ solution (ui w') = solution (ui w)
    /\ history (ui w') = history (ui w)
    /\ previewImage (ui w') = previewImage (ui w).
Proof.
  intros env w w'. subst w'.
  split; [apply try_catch_setError_normal|].
  split; [apply fetchSavedSolutions_effects|].
  cbv beta delta [Content.fetchSavedSolutions try_catch bind fetch emit ret
                  throw response_json setSavedSolutions setError modify]
    iota.
  fold GET_ALL.
  destruct (fetch_result env API_MATH_SOLUTIONS GET_ALL) as [|[|] [data|]];
    repeat split.
Qed.

(* ================================================================== *)
(** ** The streaming buffer *)
(* ================================================================== *)

Lemma run_app evs1 evs2 w : run (evs1 ++ evs2) w = run evs2 (run evs1 w).
Proof. unfold run. apply fold_left_app. Qed.

Lemma last_nonempty_default {A} (x : A) l d d' :
  last (x :: l) d = last (x :: l) d'.
Proof.
  revert x. induction l as [|y l IH]; intros x; [reflexivity|].
  change (last (y :: l) d = last (y :: l) d'). apply IH.
Qed.

Lemma run_chunks env chunks :
  forall w,
    streamingResponse (ui (run (chunk_events env chunks) w))
    = last (map (fun c => Some (JString c)) chunks)
        (streamingResponse (ui w))
    /\ input (ui (run (chunk_events env chunks) w)) = input (ui w)
    /\ solution (ui (run (chunk_events env chunks) w)) = solution (ui w)
    /\ error (ui (run (chunk_events env chunks) w)) = error (ui w)
    /\ history (ui (run (chunk_events env chunks) w)) = history (ui w)
    /\ effects (run (chunk_events env chunks) w) = effects w.
Proof.
  induction chunks as [|c chunks IH]; intros w; [repeat split|].
  change (run (chunk_events env (c :: chunks)) w)
    with (run (chunk_events env chunks) (step w (env, StreamChunk c))).
  destruct (IH (step w (env, StreamChunk c)))
    as (Hs & Hi & Hsol & He & Hh & Hx).
  rewrite Hs, Hi, Hsol, He, Hh, Hx.
  split; [|repeat split].
  destruct chunks as [|c' chunks]; [reflexivity|].
  cbn [map]. symmetry.
  transitivity
    (last (Some (JString c') :: map (fun c => Some (JString c)) chunks)
       (streamingResponse (ui w)));
    [reflexivity | apply last_nonempty_default].
Qed.

Lemma onFinish_empties_buffer env message w :
  streamingResponse (ui (snd (Content.onFinish env message w)))
  = Some (JString (lit "")).
Proof.
  unfold_handler.
  destruct (JSON_parse env message) as [parsed|]; [|reflexivity].
  destruct (truthy (optional_member (Some parsed) (lit "steps")));
    [destruct (truthy (optional_member (Some parsed) (lit "final_answer")))|];
    reflexivity.
Qed.

(** X8. Each chunk replaces the streaming buffer, it is not appended to it:
    after the chunks of a stream the buffer holds the last one (what it held
    before, when there was none), and input, Solution, error and history are
    as before and nothing was sent.  The end of the stream empties the
    buffer, whatever the final message is. *)
Theorem streaming_buffer_holds_last_chunk :
  forall (env : environment) (chunks : list jsstring) (message : jsstring)
         (w : world),
    let during := run (chunk_events env chunks) w in
    let after :=
      run (chunk_events env chunks ++ [(env, StreamFinish message)]) w in
    streamingResponse (ui during)
    = last (map (fun c => Some (JString c)) chunks)
        (streamingResponse (ui w))
    /\ input (ui during) = input (ui w)
    /\ solution (ui during) = solution (ui w)
    /\ error (ui during) = error (ui w)
    /\ history (ui during) = history (ui w)
    /\ effects during = effects w
    /\ streamingResponse (ui after) = Some (JString (lit "")).
Proof.
  intros env chunks message w during after.
  destruct (run_chunks env chunks w) as (Hs & Hi & Hsol & He & Hh & Hx).
  repeat (split; [assumption|]).
  subst after. rewrite run_app.
  apply (onFinish_empties_buffer env message).
Qed.

(* ================================================================== *)
(** ** What every run keeps true *)
(* ================================================================== *)

Ltac keeps_handler :=
  unfold Content.handleImageUpload, Content.handleImageUpload_with,
    Content.toggleFavorite, Content.fetchSavedSolutions, Content.handleDrop,
    Content.fileInput_onChange, Content.clearAll, Content.onFinish,
    Content.onChunk, parse;
  keeps_auto.

Lemma keeps_solution_handleImageUpload env :
  keeps solution (Content.handleImageUpload env).
Proof. keeps_handler. Qed.

Lemma keeps_solution_fetchSavedSolutions env :
  keeps solution (Content.fetchSavedSolutions env).
Proof. keeps_handler. Qed.

Lemma keeps_solution_toggleFavorite env id st :
  keeps solution (Content.toggleFavorite env id st).
Proof. keeps_handler. Qed.

Lemma keeps_solution_handleDrop env f :
  keeps solution (Content.handleDrop env f).
Proof. keeps_handler. Qed.

Lemma keeps_solution_fileInput env f :
  keeps solution (Content.fileInput_onChange env f).
Proof. keeps_handler. Qed.

Lemma onFinish_solution env message w :
  solution (ui (snd (Content.onFinish env message w)))
  = match JSON_parse env message with
    | Some parsed =>
        if valid_solution parsed then Some parsed else solution (ui w)
    | None => solution (ui w)
    end.
Proof.
  unfold valid_solution. unfold_handler.
  destruct (JSON_parse env message) as [parsed|]; [|reflexivity].
  destruct (truthy (optional_member (Some parsed) (lit "steps")));
    [destruct (truthy (optional_member (Some parsed) (lit "final_answer")))|];
    reflexivity.
Qed.

Lemma accepts_valid env message parsed :
  JSON_parse env message = Some parsed ->
  accepts env message = valid_solution parsed.
Proof. intros H. unfold accepts. now rewrite H. Qed.

Lemma Forall_skipn_of {A} (P : A -> Prop) n (l : list A) :
  Forall P l -> Forall P (skipn n l).
Proof.
  revert l. induction n as [|n IH]; intros l H; [exact H|].
  destruct l as [|x l]; [constructor|].
  cbn [skipn]. apply IH. now inversion H.
Qed.

Lemma slice_last_snoc {A} n (l : list A) (x : A) :
  0 < n -> exists older, slice_last n (l ++ [x]) = older ++ [x].
Proof.
  intros Hn. unfold slice_last. rewrite length_app. cbn [List.length].
  exists (skipn (List.length l + 1 - n) l).
  rewrite skipn_app.
  replace (List.length l + 1 - n - List.length l) with 0 by lia.
  reflexivity.
Qed.

Lemma solution_valid_transfer (s s' : ui_state) :
  history s' = history s -> solution s' = solution s ->
  history_valid s /\ newest_entry_shown s ->
  history_valid s' /\ newest_entry_shown s'.
Proof.
  unfold history_valid, newest_entry_shown. intros -> ->. exact (fun H => H).
Qed.

Lemma step_keeps_solution_valid w occ :
  history_valid (ui w) /\ newest_entry_shown (ui w) ->
  history_valid (ui (step w occ)) /\ newest_entry_shown (ui (step w occ)).
Proof.
  intros H. destruct occ as [env ev]. unfold step.
  cbn [fst snd]. destruct ev; cbn [handle].
  - exact H.
  - exact H.
  - assert (Hh := onFinish_history env message w).
    assert (Hs := onFinish_solution env message w).
    destruct (JSON_parse env message) as [parsed|] eqn:Hp;
      [|now apply (solution_valid_transfer _ Hh Hs)].
    rewrite (accepts_valid _ _ Hp) in Hh.
    destruct (valid_solution parsed) eqn:Hv;
      [|now apply (solution_valid_transfer _ Hh Hs)].
    unfold history_valid, newest_entry_shown. rewrite Hh, Hs. split.
    + apply Forall_skipn_of. apply Forall_app. split; [apply H|].
      constructor; [exact Hv | constructor].
    + right.
      destruct (@slice_last_snoc _ 5 (history (ui w))
                  (new_entry env (input (ui w)) parsed)) as [older Ho];
        [lia|].
      exists older, (new_entry env (input (ui w)) parsed).
      split; [exact Ho | reflexivity].
  - apply (solution_valid_transfer _ (keeps_history_handleDrop env f w)
             (keeps_solution_handleDrop env f w) H).
  - apply (solution_valid_transfer _ (keeps_history_fileInput env f w)
             (keeps_solution_fileInput env f w) H).
  - split; [exact (proj1 H) | left; reflexivity].
  - apply (solution_valid_transfer _
             (keeps_history_handleImageUpload Content.VISION_PROMPT env w)
             (keeps_solution_handleImageUpload env w) H).
  - apply (solution_valid_transfer _
             (keeps_history_toggleFavorite env id currentStatus w)
             (keeps_solution_toggleFavorite env id currentStatus w) H).
Qed.

(** X9. After any run from the initial state, every entry of the history
    holds a payload that passed the validation (truthy [steps] and
    [final_answer]), and the Solution on display is either [null] or the
    payload of the newest history entry. *)
Theorem solution_is_newest_history_entry :
  forall evs : list (environment * event),
    let s := ui (run evs initial_world) in
    Forall (fun e => valid_solution (h_solution e) = true) (history s)
    /\ (solution s = Some JNull
        \/ exists older e, history s = older ++ [e]
                           /\ solution s = Some (h_solution e)
                           /\ valid_solution (h_solution e) = true).
Proof.
  intros evs s. subst s.
  assert (H : forall w,
             history_valid (ui w) /\ newest_entry_shown (ui w) ->
             history_valid (ui (run evs w))
             /\ newest_entry_shown (ui (run evs w))).
  { induction evs as [|occ evs IH]; intros w Hw; [exact Hw|].
    cbn [run fold_left]. fold (run evs (step w occ)).
    apply IH. now apply step_keeps_solution_valid. }
  destruct (H initial_world) as [Hh Hs];
    [split; [constructor | left; reflexivity]|].
  split; [exact Hh|].
  destruct Hs as [Hs | (older & e & Ho & He)]; [left; exact Hs|].
  right. exists older, e. repeat split; try assumption.
  unfold history_valid in Hh.
  rewrite Ho in Hh. apply Forall_app in Hh. destruct Hh as [_ Hh].
  now inversion Hh.
Qed.

Lemma keeps_file_handleImageUpload env :
  keeps file (Content.handleImageUpload env).
Proof. keeps_handler. Qed.

Lemma keeps_file_toggleFavorite env id st :
  keeps file (Content.toggleFavorite env id st).
Proof. keeps_handler. Qed.

Lemma keeps_preview_toggleFavorite env id st :
  keeps previewImage (Content.toggleFavorite env id st).
Proof. keeps_handler. Qed.

Lemma keeps_file_onFinish env message :
  keeps file (Content.onFinish env message).
Proof. keeps_handler. Qed.

Lemma keeps_preview_onFinish env message :
  keeps previewImage (Content.onFinish env message).
Proof. keeps_handler. Qed.

Lemma handleImageUpload_preview_cases prompt env w :
  previewImage (ui (snd (Content.handleImageUpload_with prompt env w)))
  = previewImage (ui w)
  \/ (exists f, file (ui w) = Some f)
     /\ exists blob,
          previewImage (ui (snd (Content.handleImageUpload_with prompt env w)))
          = Some blob.
Proof.
  unfold_upload. cbv beta delta [member element0 ret throw] iota.
  cbn [ui effects].
  repeat case_split;
    cbn [fst snd ui effects previewImage]; cbv beta iota;
    first [ left; reflexivity | right; split; eexists; reflexivity ].
Qed.

Lemma selected_has_preview_transfer (s s' : ui_state) :
  file s' = file s ->
  (previewImage s' = previewImage s \/ exists url, previewImage s' = Some url) ->
  selected_has_preview s -> selected_has_preview s'.
Proof.
  unfold selected_has_preview. intros -> [-> | Hp] [H | H]; auto.
Qed.

Lemma step_keeps_selected_has_preview w occ :
  selected_has_preview (ui w) -> selected_has_preview (ui (step w occ)).
Proof.
  intros H. destruct occ as [env ev]. unfold step.
  cbn [fst snd]. destruct ev; cbn [handle].
  - exact H.
  - exact H.
  - apply (selected_has_preview_transfer _ (keeps_file_onFinish env message w));
      [left; apply keeps_preview_onFinish | exact H].
  - unfold Content.handleDrop. destruct f as [x|]; [|exact H].
    destruct (startsWith (file_type x) (lit "image/")); [|exact H].
    right. eexists. reflexivity.
  - destruct f as [x|]; [|exact H]. right. eexists. reflexivity.
  - left. reflexivity.
  - apply (selected_has_preview_transfer _ (keeps_file_handleImageUpload env w));
      [|exact H].
    unfold Content.handleImageUpload.
    destruct (handleImageUpload_preview_cases Content.VISION_PROMPT env w)
      as [-> | [_ [blob ->]]];
      [left; reflexivity | right; eexists; reflexivity].
  - apply (selected_has_preview_transfer _
             (keeps_file_toggleFavorite env id currentStatus w));
      [left; apply keeps_preview_toggleFavorite | exact H].
Qed.

(** A handler that resumes never touches the selected file, and it either
    leaves the preview as it is or puts one on display. *)
Lemma resume_keeps_file prompt env t :
  keeps file (Async.handleImageUpload_resume prompt env t).
Proof. unfold Async.handleImageUpload_resume. destruct t; keeps_auto. Qed.

Lemma resume_preview_cases prompt env t w :
  previewImage (ui (snd (Async.handleImageUpload_resume prompt env t w)))
  = previewImage (ui w)
  \/ exists url,
       previewImage (ui (snd (Async.handleImageUpload_resume prompt env t w)))
       = Some url.
Proof.
  destruct t as [f|url|response].
  - unfold Async.handleImageUpload_resume. unfold_upload.
    cbv beta delta [member ret throw] iota. cbn [ui effects].
    repeat case_split;
      cbn [fst snd ui effects previewImage]; cbv beta iota;
      first [ left; reflexivity | right; eexists; reflexivity ].
  - left. revert w.
    change (keeps previewImage
              (Async.handleImageUpload_resume prompt env (AwaitingVision url))).
    unfold Async.handleImageUpload_resume. keeps_auto.
  - left. revert w.
    change (keeps previewImage
              (Async.handleImageUpload_resume prompt env
                 (AwaitingBody response))).
    unfold Async.handleImageUpload_resume. keeps_auto.
Qed.

Lemma advance_keeps_selected_has_preview s occ :
  selected_has_preview (ui (Async.shown s)) ->
  selected_has_preview (ui (Async.shown (Async.advance s occ))).
Proof.
  intros H. destruct occ as [env [ev| | |k]]; unfold Async.advance;
    cbn [fst snd].
  - cbn [Async.shown]. now apply step_keeps_selected_has_preview.
  - left. reflexivity.
  - exact H.
  - destruct (nth_error (Async.waiting s) k) as [t|]; [|exact H].
    pose proof (resume_keeps_file Content.VISION_PROMPT env t (Async.shown s))
      as Hf.
    pose proof (resume_preview_cases Content.VISION_PROMPT env t
                  (Async.shown s)) as Hp.
    destruct (Async.handleImageUpload_resume Content.VISION_PROMPT env t
                (Async.shown s)) as [[[t'|]|] w'];
      cbn [Async.shown snd] in *;
      exact (selected_has_preview_transfer _ Hf Hp H).
Qed.

(** Settling the only waiting handler, and settling when none waits. *)
Lemma advance_settled_single env t w :
  Async.advance {| Async.shown := w; Async.waiting := [t] |}
    (env, Async.Settled 0)
  = match Async.handleImageUpload_resume Content.VISION_PROMPT env t w with
    | (Normal (Some t'), w') =>
        {| Async.shown := w'; Async.waiting := [t'] |}
    | (_, w') => {| Async.shown := w'; Async.waiting := [] |}
    end.
Proof. reflexivity. Qed.

Lemma advance_settled_none env w :
  Async.advance {| Async.shown := w; Async.waiting := [] |}
    (env, Async.Settled 0)
  = {| Async.shown := w; Async.waiting := [] |}.
Proof. reflexivity. Qed.

(** Run without interruption, the pieces make up the handler of
    [Content.handleImageUpload]. *)
Lemma handleImageUpload_uninterrupted env w :
  Async.shown
    (Async.proceed (uninterrupted env)
       {| Async.shown := w; Async.waiting := [] |})
  = snd (Content.handleImageUpload env w).
Proof.
  unfold Content.handleImageUpload, Content.handleImageUpload_with.
  set (tail := fun data : json => bind (member (Some data) (lit "choices")) _).
  assert (Htail : forall data w0,
             tail data w0
             = match value_of (first_choice_content data) with
               | Some equation =>
                   (setInput equation ;; emit (Call_solveEquation equation)) w0
               | None => (Throw, w0)
               end).
  { intros data w0. subst tail. apply first_choice_content_then. }
  clearbody tail.
  assert (Hbody : forall data w0,
             Async.handleImageUpload_resume Content.VISION_PROMPT env
               (AwaitingBody (true, Some data)) w0
             = match value_of (first_choice_content data) with
               | Some equation =>
                   (Normal None,
                    snd ((setInput equation ;;
                          emit (Call_solveEquation equation)) w0))
               | None => (Normal None, snd (setError (Some ERR_IMAGE) w0))
               end).
  { intros data w0. unfold Async.handleImageUpload_resume, try_catch.
    unfold bind at 1. cbn [response_json snd ret].
    rewrite (first_choice_content_then data
               (fun equation =>
                  setInput equation ;; emit (Call_solveEquation equation) ;;
                  ret None) w0).
    destruct (value_of (first_choice_content data)); reflexivity. }
  unfold uninterrupted, Async.proceed. cbn [fold_left].
  change (Async.advance {| Async.shown := w; Async.waiting := [] |}
            (env, Async.ProcessPressed))
    with {| Async.shown := snd (emit (Upload (file (ui w))) w);
            Async.waiting := [AwaitingUpload (file (ui w))] |}.
  rewrite advance_settled_single.
  unfold Async.handleImageUpload_resume at 1.
  cbv beta delta
    [try_catch bind ret throw read modify emit upload fetch response_json
     URL_createObjectURL setPreviewImage setInput setError] iota.
  cbn [ui effects].
  destruct (file (ui w)) as [blob|];
    destruct (upload_result env _) as [|[[|b|x|s|items|props]|]];
    cbn [member]; cbv beta delta [ret throw] iota;
    cbn [truthy fst snd ui effects previewImage];
    rewrite ?advance_settled_none; try reflexivity.
  all: try match goal with
           | |- context [truthy ?v] => destruct (truthy v)
           end;
    cbv beta iota; rewrite ?advance_settled_none; try reflexivity.
  all: rewrite advance_settled_single;
    unfold Async.handleImageUpload_resume at 1;
    cbv beta delta [try_catch bind ret throw modify setError] iota;
    match goal with
    | |- context [fetch_result ?e GPT_VISION ?body] =>
        destruct (fetch_result e GPT_VISION body) as [|[|] [data|]]
    end;
    cbv beta iota; cbn [negb fst snd];
    rewrite ?advance_settled_none; try reflexivity.
  all: rewrite advance_settled_single, Hbody, Htail;
    destruct (value_of (first_choice_content data)); reflexivity.
Qed.

(** X10. However the handlers interleave, a selected file has its preview
    on display: after any sequence of events, removals, presses of Process
    Image and answers arriving in any order, either no file is selected or
    a preview is shown.  The converse does not hold: [handleImageUpload]
    sets the preview of the file it holds in its closure when the upload
    answers, so an image removed while its upload is under way leaves a
    preview on display with no file selected.  A handler that is not
    interrupted does what [Content.handleImageUpload] does in one step. *)
Theorem selected_file_has_preview :
  forall occs : list (environment * Async.occurrence),
    let s := ui (Async.shown (Async.proceed occs Async.initial_session)) in
    let r :=
      ui (Async.shown
            (Async.proceed removed_while_uploading Async.initial_session)) in
    (file s = None \/ exists url, previewImage s = Some url)
    /\ (file r = None /\ previewImage r = Some (lit "blob:problem.png"))
    /\ (forall env w,
          Async.shown
            (Async.proceed (uninterrupted env)
               {| Async.shown := w; Async.waiting := [] |})
          = snd (Content.handleImageUpload env w)).
Proof.
  intros occs s r. subst s r.
  split; [|split; [split; reflexivity | apply handleImageUpload_uninterrupted]].
  assert (H : forall s0,
             selected_has_preview (ui (Async.shown s0)) ->
             selected_has_preview
               (ui (Async.shown (Async.proceed occs s0)))).
  { induction occs as [|occ occs IH]; intros s0 Hs; [exact Hs|].
    unfold Async.proceed. cbn [fold_left].
    fold (Async.proceed occs (Async.advance s0 occ)).
    apply IH. now apply advance_keeps_selected_has_preview. }
  apply (H Async.initial_session). left. reflexivity.
Qed.

(* ================================================================== *)
(** ** Saving: every answered mutation is followed by a reload *)
(* ================================================================== *)

Ltac unfold_app :=
  cbv beta delta
    [App.saveSolution App.updateNotes App.switch_model try_catchH
     try_catch_finally bindH retH raise detachedH lift set engine send answer
     fetchH readP modifyP setNotes setLoading setMathTopic setCurrentModel
     setPracticeProblems setShowPractice setAlternativeSolutions
     setShowAlternativeMethods emit setError setSolution setStreamingResponse
     modify]
    iota.

Lemma save_request_fields a :
  optional_member (Some (save_request a)) (lit "method")
  = Some (JString (lit "POST"))
  /\ optional_member (Some (save_request a)) (lit "equation")
     = input (ui (page a))
  /\ optional_member (Some (save_request a)) (lit "solution")
     = solution (ui (page a))
  /\ optional_member (Some (save_request a)) (lit "notes") = notes (panel a).
Proof.
  unfold save_request.
  destruct (input (ui (page a))), (solution (ui (page a))), (notes (panel a));
    repeat split.
Qed.

Lemma notes_patch_fields id newNotes :
  optional_member (Some (App.notes_patch id newNotes)) (lit "method")
  = Some (JString (lit "PATCH"))
  /\ optional_member (Some (App.notes_patch id newNotes)) (lit "id") = id
  /\ optional_member (Some (App.notes_patch id newNotes)) (lit "notes")
     = newNotes.
Proof. destruct id, newNotes; repeat split. Qed.

Lemma saveSolution_result h a :
  snd (App.saveSolution h a)
  = match fetch_result (host_env h) API_MATH_SOLUTIONS (save_request a) with
    | Response _ _ =>
        {| page :=
             snd (Content.fetchSavedSolutions (host_env h)
                    (snd (emit (Fetch API_MATH_SOLUTIONS (save_request a))
                            (page a))));
           panel := panel (snd (setNotes (Some (JString (lit ""))) a)) |}
    | NetworkError =>
        {| page :=
             snd (setError (Some ERR_SAVE)
                    (snd (emit (Fetch API_MATH_SOLUTIONS (save_request a))
                            (page a))));
           panel := panel a |}
    end.
Proof.
  unfold_app. fold (save_request a).
  destruct (fetch_result (host_env h) API_MATH_SOLUTIONS (save_request a))
    as [|ok data]; cbv beta iota; cbn [page panel fst snd]; [reflexivity|].
  match goal with
  | |- context [Content.fetchSavedSolutions ?e ?w] =>
      destruct (Content.fetchSavedSolutions e w) as [[[]|] w1]
  end; reflexivity.
Qed.

Lemma updateNotes_result h id newNotes a :
  snd (App.updateNotes h id newNotes a)
  = match fetch_result (host_env h) API_MATH_SOLUTIONS
            (App.notes_patch id newNotes) with
    | Response _ _ =>
        {| page :=
             snd (Content.fetchSavedSolutions (host_env h)
                    (snd (emit (Fetch API_MATH_SOLUTIONS
                                  (App.notes_patch id newNotes)) (page a))));
           panel := panel a |}
    | NetworkError =>
        {| page :=
             snd (setError (Some ERR_NOTES)
                    (snd (emit (Fetch API_MATH_SOLUTIONS
                                  (App.notes_patch id newNotes)) (page a))));
           panel := panel a |}
    end.
Proof.
  unfold_app.
  destruct (fetch_result (host_env h) API_MATH_SOLUTIONS
              (App.notes_patch id newNotes)) as [|ok data];
    cbv beta iota; cbn [page panel fst snd]; [reflexivity|].
  match goal with
  | |- context [Content.fetchSavedSolutions ?e ?w] =>
      destruct (Content.fetchSavedSolutions e w) as [[[]|] w1]
  end; reflexivity.
Qed.

(** X11. [saveSolution] posts the current input, Solution and notes.  When
    the request is answered, with whatever status, the notes field is
    emptied and the reload of the collection follows; when it is rejected
    the notes stay as typed, nothing follows and "Failed to save solution"
    is reported.  [updateNotes] does the same with a PATCH of the given id
    and notes and the message "Failed to update notes".  Neither touches the
    Solution or the history. *)
Theorem saving_reloads_when_answered :
  forall (h : host) (id newNotes : jsvalue) (a : app),
    let saved := snd (App.saveSolution h a) in
    let noted := snd (App.updateNotes h id newNotes a) in
    let patch := App.notes_patch id newNotes in
    (optional_member (Some (save_request a)) (lit "equation")
     = input (ui (page a))
     /\ optional_member (Some (save_request a)) (lit "solution")
        = solution (ui (page a))
     /\ optional_member (Some (save_request a)) (lit "notes")
        = notes (panel a))
    /\ match fetch_result (host_env h) API_MATH_SOLUTIONS (save_request a) with
       | Response _ _ =>
           effects (page saved)
           = effects (page a)
             ++ [Fetch API_MATH_SOLUTIONS (save_request a);
                 Fetch API_MATH_SOLUTIONS GET_ALL]
           /\ notes (panel saved) = Some (JString (lit ""))
       | NetworkError =>
           effects (page saved)
           = effects (page a) ++ [Fetch API_MATH_SOLUTIONS (save_request a)]
           /\ notes (panel saved) = notes (panel a)
           /\ error (ui (page saved)) = Some ERR_SAVE
       end
    /\ (optional_member (Some patch) (lit "id") = id
        /\ optional_member (Some patch) (lit "notes") = newNotes)
    /\ match fetch_result (host_env h) API_MATH_SOLUTIONS patch with
       | Response _ _ =>
           effects (page noted)
           = effects (page a)
             ++ [Fetch API_MATH_SOLUTIONS patch;
                 Fetch API_MATH_SOLUTIONS GET_ALL]
       | NetworkError =>
           effects (page noted)
           = effects (page a) ++ [Fetch API_MATH_SOLUTIONS patch]
           /\ error (ui (page noted)) = Some ERR_NOTES
       end
    /\ solution (ui (page saved)) = solution (ui (page a))
    /\ history (ui (page saved)) = history (ui (page a))
    /\ solution (ui (page noted)) = solution (ui (page a))
    /\ history (ui (page noted)) = history (ui (page a))
    /\ notes (panel noted) = notes (panel a).
Proof.
  intros h id newNotes a saved noted patch.
  destruct (save_request_fields a) as (_ & He & Hs & Hn).
  destruct (notes_patch_fields id newNotes) as (_ & Hi & Hp).
  split; [auto|].
  pose proof (saveSolution_result h a) as Hsave.
  pose proof (updateNotes_result h id newNotes a) as Hnote.
  fold patch in Hnote. subst saved noted.
  destruct (fetch_result (host_env h) API_MATH_SOLUTIONS (save_request a))
    as [|ok1 data1];
    destruct (fetch_result (host_env h) API_MATH_SOLUTIONS patch)
      as [|ok2 data2];
    rewrite Hsave, Hnote; cbn [page panel ui effects notes];
    rewrite ?fetchSavedSolutions_effects, ?keeps_solution_fetchSavedSolutions,
      ?keeps_history_fetchSavedSolutions;
    cbn [page panel ui effects notes solution history error];
    unfold emit; cbn [snd ui effects];
    rewrite <- ?app_assoc; repeat split; auto.
Qed.

(* ================================================================== *)
(** ** The enrichment requests *)
(* ================================================================== *)

Lemma lift_stateless {A} (c : M A) message a :
  (forall w, c w = (fst (c initial_world), w)) ->
  lift message c a
  = (match value_of c with
     | Some x => Fulfilled x
     | None => Rejected message
     end, a).
Proof.
  intros H. unfold lift, value_of. rewrite (H (page a)).
  destruct (fst (c initial_world)); destruct a; reflexivity.
Qed.

Lemma value_of_items data property :
  value_of (content <- first_choice_content data ;; member content property)
  = match value_of (first_choice_content data) with
    | Some content => value_of (member content property)
    | None => None
    end.
Proof.
  unfold value_of, bind.
  rewrite (stateless_first_choice_content data initial_world).
  destruct (fst (first_choice_content data initial_world)); reflexivity.
Qed.

Lemma generate_resume_result h body property store show failure a :
  (forall v a0, fst (store v a0) = Fulfilled tt) ->
  (forall a0, fst (show a0) = Fulfilled tt) ->
  generate_resume h body property store show failure a
  = match enrichment_items h body property with
    | Some items => (store items ;; show)%app a
    | None => set (setError (Some failure)) a
    end.
Proof.
  intros Hstore Hshow.
  unfold generate_resume, enrichment_items, try_catchH, bindH, answer, raise,
    retH, engine.
  destruct (fetch_result (host_env h) GEMINI body) as [|[|] [data|]];
    cbn [fst snd negb response_json]; try reflexivity.
  rewrite value_of_items.
  rewrite (lift_stateless (ret data)); [|reflexivity].
  cbn [value_of ret fst].
  rewrite lift_stateless by apply stateless_first_choice_content.
  destruct (value_of (first_choice_content data)) as [content|];
    [|reflexivity].
  rewrite lift_stateless by apply stateless_member.
  destruct (value_of (member content property)) as [items|]; [|reflexivity].
  specialize (Hstore items a).
  destruct (store items a) as [[[]|m] a1]; [|discriminate].
  specialize (Hshow a1).
  destruct (show a1) as [[[]|m] a2]; [reflexivity | discriminate].
Qed.

(** X12. An enrichment request goes to the Gemini endpoint, whichever model
    is selected, and never throws.  When the answer is ok and holds a
    [choices[0].message.content], the list found there under [problems]
    (resp. [methods]) is stored, be it [undefined], and the panel is shown;
    the error stays as it was.  In every other case the stored list and the
    visibility flag stay as they were and "Failed to generate practice
    problems" (resp. "... alternative methods") is reported.  The Solution,
    the history and the other panel are never touched. *)
Theorem enrichment_outcomes :
  forall (h : host) (inp : jsvalue) (a : app),
    let practice := practice_request h [] inp in
    let p := snd (App.generatePracticeProblems h inp a) in
    let alternative := alternative_request h [] inp in
    let q := snd (App.generateAlternativeMethods h inp a) in
    (fst (App.generatePracticeProblems h inp a) = Fulfilled tt
     /\ effects (page p) = effects (page a) ++ [Fetch GEMINI practice]
     /\ match enrichment_items h practice (lit "problems") with
        | Some items =>
            practiceProblems (panel p) = items
            /\ showPractice (panel p) = true
            /\ error (ui (page p)) = error (ui (page a))
        | None =>
            practiceProblems (panel p) = practiceProblems (panel a)
            /\ showPractice (panel p) = showPractice (panel a)
            /\ error (ui (page p)) = Some ERR_PRACTICE
        end
     /\ solution (ui (page p)) = solution (ui (page a))
     /\ history (ui (page p)) = history (ui (page a))
     /\ alternativeSolutions (panel p) = alternativeSolutions (panel a)
     /\ showAlternativeMethods (panel p) = showAlternativeMethods (panel a))
    /\ (fst (App.generateAlternativeMethods h inp a) = Fulfilled tt
        /\ effects (page q) = effects (page a) ++ [Fetch GEMINI alternative]
        /\ match enrichment_items h alternative (lit "methods") with
           | Some items =>
               alternativeSolutions (panel q) = items
               /\ showAlternativeMethods (panel q) = true
               /\ error (ui (page q)) = error (ui (page a))
           | None =>
               alternativeSolutions (panel q) = alternativeSolutions (panel a)
               /\ showAlternativeMethods (panel q)
                  = showAlternativeMethods (panel a)
               /\ error (ui (page q)) = Some ERR_ALTERNATIVE
           end
        /\ solution (ui (page q)) = solution (ui (page a))
        /\ history (ui (page q)) = history (ui (page a))
        /\ practiceProblems (panel q) = practiceProblems (panel a)
        /\ showPractice (panel q) = showPractice (panel a)).
Proof.
  intros h inp a practice p alternative q. subst p q.
  assert (Ep : App.generatePracticeProblems h inp a
               = generate_resume h practice (lit "problems")
                   setPracticeProblems (setShowPractice true) ERR_PRACTICE
                   (snd (send GEMINI practice a))) by reflexivity.
  assert (Eq : App.generateAlternativeMethods h inp a
               = generate_resume h alternative (lit "methods")
                   setAlternativeSolutions (setShowAlternativeMethods true)
                   ERR_ALTERNATIVE (snd (send GEMINI alternative a)))
    by reflexivity.
  rewrite Ep, Eq, !generate_resume_result by reflexivity.
  split.
  - destruct (enrichment_items h practice (lit "problems")); repeat split.
  - destruct (enrichment_items h alternative (lit "methods")); repeat split.
Qed.

(* ================================================================== *)
(** ** Solving an equation *)
(* ================================================================== *)

Lemma trimStart_nil_iff s :
  trimStart s = [] <-> forallb is_js_whitespace s = true.
Proof.
  induction s as [|c s IH]; cbn [trimStart forallb]; [tauto|].
  destruct (is_js_whitespace c); cbn [andb]; [exact IH|].
  split; discriminate.
Qed.

Lemma trimStart_head s c rest :
  trimStart s = c :: rest -> is_js_whitespace c = false.
Proof.
  induction s as [|x s IH]; cbn [trimStart]; [discriminate|].
  destruct (is_js_whitespace x) eqn:E; [exact IH|].
  intros H. injection H as -> _. exact E.
Qed.

Lemma forallb_rev {A} (f : A -> bool) l :
  forallb f (rev l) = true <-> forallb f l = true.
Proof.
  rewrite !forallb_forall. split; intros H x Hx; apply H.
  - now apply in_rev in Hx.
  - now apply in_rev.
Qed.

Lemma rev_nil_iff {A} (l : list A) : rev l = [] <-> l = [].
Proof.
  split; [|intros ->; reflexivity].
  intros H. apply (f_equal (@rev A)) in H. now rewrite rev_involutive in H.
Qed.

(** [trim] leaves nothing exactly of the texts made of white space. *)
Lemma trimStart_fixed s :
  forallb is_js_whitespace (trimStart s) = true -> trimStart s = [].
Proof.
  destruct (trimStart s) as [|c rest] eqn:E; [reflexivity|].
  apply trimStart_head in E. cbn [forallb]. rewrite E. discriminate.
Qed.

Lemma trim_nil_iff s :
  trim s = [] <-> forall c, In c s -> is_js_whitespace c = true.
Proof.
  unfold trim. split.
  - intros H. apply rev_nil_iff, trimStart_nil_iff in H.
    apply (proj1 (forallb_rev _ _)) in H.
    apply trimStart_fixed, trimStart_nil_iff in H.
    now apply forallb_forall.
  - intros H. apply forallb_forall, trimStart_nil_iff in H.
    rewrite H. reflexivity.
Qed.

Lemma trim_nonblank s : nonblank s -> truthy (Some (JString (trim s))) = true.
Proof.
  intros (c & Hc & Hw). destruct (trim s) eqn:E; [|reflexivity].
  pose proof (proj1 (trim_nil_iff s) E c Hc) as Hc'. rewrite Hc' in Hw.
  discriminate.
Qed.

(** X13. Asked to solve a text made of white space only, the empty text
    included, [solveEquation] (each revision) reports "Please enter an
    equation to solve." and does nothing else: nothing is sent, and the
    Solution on display, the loading flag and the topic stay as they
    were. *)
Theorem solveEquation_blank_input :
  forall (h : host) (held : closure) (t : jsstring) (a : app),
    (forall c, In c t -> is_js_whitespace c = true) ->
    let a' := snd (App.solveEquation h held (Some (JString t)) a) in
    App.solveEquation h held (Some (JString t)) a
    = set (setError (Some ERR_EMPTY)) a
    /\ LegacyApp.solveEquation h held (Some (JString t)) a
       = set (setError (Some ERR_EMPTY)) a
    /\ error (ui (page a')) = Some ERR_EMPTY
    /\ ERR_EMPTY = lit "Please enter an equation to solve."
    /\ effects (page a') = effects (page a)
    /\ solution (ui (page a')) = solution (ui (page a))
    /\ history (ui (page a')) = history (ui (page a))
    /\ panel a' = panel a.
Proof.
  intros h held t a H a'. subst a'. apply (proj2 (trim_nil_iff t)) in H.
  unfold App.solveEquation, LegacyApp.solveEquation. rewrite H.
  cbn [truthy negb]. repeat split.
Qed.

Lemma solveEquation_blank_witness :
  error (ui (page (snd (App.solveEquation offline_host (snapshot initial_app)
                          (Some (JString (lit "   "))) initial_app))))
  = Some ERR_EMPTY
  /\ effects (page (snd (App.solveEquation offline_host
                           (snapshot initial_app)
                           (Some (JString (lit "   "))) initial_app)))
     = [].
Proof.
  assert (H : forall c, In c (lit "   ") -> is_js_whitespace c = true).
  { intros c [<- | [<- | [<- | []]]]; reflexivity. }
  destruct (solveEquation_blank_input offline_host (snapshot initial_app)
              (lit "   ") initial_app H) as (_ & _ & He & _ & Hx & _).
  split; [exact He | exact Hx].
Defined.

Lemma last_cons_cons {A} (d c : A) r : last (d :: r) c = last r d.
Proof.
  destruct r as [|y r]; [reflexivity|].
  change (last (y :: r) c = last (y :: r) d). apply last_nonempty_default.
Qed.

Lemma for_each_onChunk h chunks :
  forall a,
    for_each (fun c => engine h (Content.onChunk (Some (JString c)))) chunks a
    = (Fulfilled tt, buffered chunks a)
    /\ for_each (fun c => engine h (LegacyApp.onChunk (Some (JString c))))
         chunks a
       = (Fulfilled tt, buffered chunks a).
Proof.
  induction chunks as [|c rest IH]; intros a; [split; reflexivity|].
  cbn [for_each]. unfold bindH.
  change (engine h (Content.onChunk (Some (JString c))) a)
    with (Fulfilled tt, snd (set (setStreamingResponse (Some (JString c))) a)).
  change (engine h (LegacyApp.onChunk (Some (JString c))) a)
    with (Fulfilled tt, snd (set (setStreamingResponse (Some (JString c))) a)).
  cbv beta iota.
  destruct (IH (snd (set (setStreamingResponse (Some (JString c))) a)))
    as [-> ->].
  assert (E : buffered rest
                (snd (set (setStreamingResponse (Some (JString c))) a))
              = buffered (c :: rest) a).
  { destruct rest as [|d r]; [reflexivity|].
    cbn [buffered]. rewrite (last_cons_cons d c r). reflexivity. }
  now rewrite E.
Qed.

Lemma buffered_frame chunks a :
  panel (buffered chunks a) = panel a
  /\ effects (page (buffered chunks a)) = effects (page a)
  /\ input (ui (page (buffered chunks a))) = input (ui (page a))
  /\ solution (ui (page (buffered chunks a))) = solution (ui (page a))
  /\ error (ui (page (buffered chunks a))) = error (ui (page a))
  /\ history (ui (page (buffered chunks a))) = history (ui (page a))
  /\ streamingResponse (ui (page (buffered chunks a)))
     = match chunks with
       | [] => streamingResponse (ui (page a))
       | c :: rest => Some (JString (last rest c))
       end.
Proof. destruct chunks; repeat split. Qed.

Lemma onFinish_outcome env final w :
  let w' := snd (Content.onFinish env final w) in
  fst (Content.onFinish env final w) = Normal tt
  /\ effects w' = effects w
  /\ input (ui w') = input (ui w)
  /\ streamingResponse (ui w') = Some (JString (lit ""))
  /\ match JSON_parse env final with
     | Some parsed =>
         if valid_solution parsed
         then error (ui w') = error (ui w)
              /\ solution (ui w') = Some parsed
              /\ history (ui w')
                 = slice_last 5
                     (history (ui w) ++ [new_entry env (input (ui w)) parsed])
         else error (ui w') = Some ERR_INCOMPLETE
              /\ solution (ui w') = solution (ui w)
              /\ history (ui w') = history (ui w)
     | None =>
         error (ui w') = Some ERR_FORMAT
         /\ solution (ui w') = solution (ui w)
         /\ history (ui w') = history (ui w)
     end.
Proof.
  unfold valid_solution. unfold_handler.
  destruct (JSON_parse env final) as [parsed|]; [|repeat split].
  destruct (truthy (optional_member (Some parsed) (lit "steps")));
    [destruct (truthy (optional_member (Some parsed) (lit "final_answer")))|];
    repeat split.
Qed.

Lemma handleStreamResponse_result h url body a :
  handleStreamResponse h Content.onChunk (Content.onFinish (host_env h))
    url body a
  = match stream_of h url body with
    | StreamFailed chunks message => (Rejected message, buffered chunks a)
    | StreamCompleted chunks final =>
        (Fulfilled tt,
         {| page := snd (Content.onFinish (host_env h) final
                           (page (buffered chunks a)));
            panel := panel (buffered chunks a) |})
    end
  /\ handleStreamResponse h LegacyApp.onChunk (Legacy.onFinish (host_env h))
       url body a
     = handleStreamResponse h Content.onChunk (Content.onFinish (host_env h))
         url body a.
Proof.
  unfold handleStreamResponse.
  destruct (stream_of h url body) as [chunks message | chunks final];
    unfold bindH; destruct (for_each_onChunk h chunks a) as [-> ->].
  - split; reflexivity.
  - unfold engine, lift. rewrite Legacy_onFinish_eq.
    destruct (onFinish_outcome (host_env h) final (page (buffered chunks a)))
      as [Hn _].
    destruct (Content.onFinish (host_env h) final (page (buffered chunks a)))
      as [[[]|] w1]; [split; reflexivity | discriminate].
Qed.

Lemma dispatched_fields topic hide url body a :
  let d := dispatched topic hide url body a in
  effects (page d) = effects (page a) ++ [Fetch url body]
  /\ input (ui (page d)) = input (ui (page a))
  /\ solution (ui (page d)) = Some JNull
  /\ error (ui (page d)) = None
  /\ streamingResponse (ui (page d)) = Some (JString (lit ""))
  /\ history (ui (page d)) = history (ui (page a))
  /\ mathTopic (panel d) = topic
  /\ notes (panel d) = notes (panel a)
  /\ (if hide
      then showPractice (panel d) = false
           /\ showAlternativeMethods (panel d) = false
      else showPractice (panel d) = showPractice (panel a)
           /\ showAlternativeMethods (panel d)
              = showAlternativeMethods (panel a)).
Proof. destruct hide; repeat split. Qed.

Lemma concluded_fields failure a :
  let c := concluded failure a in
  loading (panel c) = false
  /\ effects (page c) = effects (page a)
  /\ input (ui (page c)) = input (ui (page a))
  /\ solution (ui (page c)) = solution (ui (page a))
  /\ streamingResponse (ui (page c)) = streamingResponse (ui (page a))
  /\ history (ui (page c)) = history (ui (page a))
  /\ error (ui (page c))
     = match failure with
       | Some message => Some (message_or message ERR_SOLVE)
       | None => error (ui (page a))
       end
  /\ mathTopic (panel c) = mathTopic (panel a)
  /\ notes (panel c) = notes (panel a)
  /\ showPractice (panel c) = showPractice (panel a)
  /\ showAlternativeMethods (panel c) = showAlternativeMethods (panel a).
Proof. destruct failure; repeat split. Qed.

(** The shape of a solve in [content.js]. *)
Lemma App_solveEquation_nonblank h held t a :
  nonblank t ->
  let url := App.endpoint (closure_currentModel held) in
  let body := solve_request App.SOLVE_PROMPT t in
  let d := dispatched (Content.detectMathTopic t) true url body a in
  App.solveEquation h held (Some (JString t)) a
  = (Fulfilled tt,
     match fetch_result (host_env h) url body with
     | NetworkError => concluded (Some (rejection_message h url body)) d
     | Response false _ =>
         concluded (Some (Some (STATUS_PREFIX ++ response_status h url body)))
           d
     | Response true _ =>
         match handleStreamResponse h Content.onChunk
                 (Content.onFinish (host_env h)) url body d with
         | (Fulfilled _, a2) => concluded None a2
         | (Rejected message, a2) => concluded (Some message) a2
         end
     end).
Proof.
  intros Hn url body d. subst d.
  unfold App.solveEquation. rewrite (trim_nonblank Hn). cbn [negb].
  unfold dispatched, concluded.
  cbv beta zeta delta
    [try_catch_finally try_catchH bindH retH raise lift set engine send answer
     fetchH readP modifyP setLoading setMathTopic setShowPractice
     setShowAlternativeMethods emit setError setSolution setStreamingResponse
     modify negb fst snd page panel ui effects input file solution error
     streamingResponse history previewImage savedSolutions notes loading
     mathTopic currentModel practiceProblems showPractice
     alternativeSolutions showAlternativeMethods]
    iota.
  fold url body.
  destruct (fetch_result (host_env h) url body) as [|[|] data];
    cbv beta iota; try reflexivity.
  match goal with
  | |- context [handleStreamResponse ?h ?c ?f ?u ?b ?x] =>
      destruct (handleStreamResponse h c f u b x) as [[[]|m] a2]
  end; reflexivity.
Qed.

(** X14. When the request of a solve is rejected by the network or is
    answered with a status that is not ok, [solveEquation] of [content.js]
    has sent that one request and nothing else, reports the message of the
    rejection (the fallback text when it has none) resp. "Server responded
    with status: N", and ends with the loading flag off.  The Solution that
    was on display is gone: it was reset to [null] before the request, as
    were the streaming buffer and the topic, which is that of the text. *)
Theorem solveEquation_request_failed :
  forall (h : host) (held : closure) (t : jsstring) (a : app)
         (message : jsstring),
    nonblank t ->
    request_failure h (App.endpoint (closure_currentModel held))
      (solve_request App.SOLVE_PROMPT t) = Some message ->
    let url := App.endpoint (closure_currentModel held) in
    let body := solve_request App.SOLVE_PROMPT t in
    let a' := snd (App.solveEquation h held (Some (JString t)) a) in
    fst (App.solveEquation h held (Some (JString t)) a) = Fulfilled tt
    /\ effects (page a') = effects (page a) ++ [Fetch url body]
    /\ error (ui (page a')) = Some message
    /\ solution (ui (page a')) = Some JNull
    /\ streamingResponse (ui (page a')) = Some (JString (lit ""))
    /\ history (ui (page a')) = history (ui (page a))
    /\ input (ui (page a')) = input (ui (page a))
    /\ loading (panel a') = false
    /\ mathTopic (panel a') = Content.detectMathTopic t
    /\ showPractice (panel a') = false
    /\ showAlternativeMethods (panel a') = false
    /\ notes (panel a') = notes (panel a).
Proof.
  intros h held t a message Hn Hf url body a'. subst a'.
  unfold request_failure in Hf. fold url body in Hf.
  rewrite (App_solveEquation_nonblank h held a Hn). fold url body.
  cbn [fst snd].
  pose proof (dispatched_fields (Content.detectMathTopic t) true url body a)
    as (Hx & Hi & Hs & He & Hb & Hh & Ht & Hnotes & Hp & Ha).
  destruct (fetch_result (host_env h) url body) as [|[|] data];
    [| discriminate |]; injection Hf as <-;
    match goal with
    | |- context [concluded ?f ?d] =>
        pose proof (concluded_fields f d)
          as (Cl & Cx & Ci & Cs & Cb & Ch & Ce & Ct & Cn & Cp & Ca)
    end;
    rewrite Cl, Cx, Ci, Cs, Cb, Ch, Ce, Ct, Cn, Cp, Ca;
    repeat split; assumption.
Qed.

Lemma solveEquation_request_failed_witness :
  error (ui (page (snd (App.solveEquation offline_host
                          (snapshot initial_app)
                          (Some (JString (lit "2x + 5 = 15"))) initial_app))))
  = Some (lit "Failed to fetch")
  /\ loading (panel (snd (App.solveEquation offline_host
                            (snapshot initial_app)
                            (Some (JString (lit "2x + 5 = 15")))
                            initial_app)))
     = false.
Proof.
  assert (Hn : nonblank (lit "2x + 5 = 15")).
  { exists 50%N. split; [left; reflexivity | reflexivity]. }
  destruct (solveEquation_request_failed offline_host (snapshot initial_app)
              initial_app (message := lit "Failed to fetch") Hn eq_refl)
    as (_ & _ & He & _ & _ & _ & _ & Hl & _).
  split; [exact He | exact Hl].
Defined.

Lemma buffered_last chunks a :
  streamingResponse (ui (page a)) = Some (JString (lit "")) ->
  streamingResponse (ui (page (buffered chunks a)))
  = Some (JString (last chunks (lit ""))).
Proof.
  intros H. destruct chunks as [|c rest]; [exact H|].
  cbn [buffered]. rewrite (last_cons_cons c (lit "") rest). reflexivity.
Qed.

(** X15. When the request of a solve in [content.js] is answered ok, the
    outcome is that of the stream, and one request was sent in all.  A
    stream that fails leaves its last partial text in the buffer, reports
    the message of the failure (the fallback text when it has none) and
    leaves no Solution.  A stream that completes empties the buffer; its
    final text becomes the Solution and a history entry when it parses to a
    payload with truthy [steps] and [final_answer], and otherwise the error
    is "incomplete solution data" resp. "invalid response format" and no
    Solution is left: the one shown before the solve is never kept.  The
    loading flag is off at the end in every case. *)
Theorem solveEquation_stream_outcomes :
  forall (h : host) (held : closure) (t : jsstring) (a : app)
         (data : option json),
    nonblank t ->
    fetch_result (host_env h) (App.endpoint (closure_currentModel held))
      (solve_request App.SOLVE_PROMPT t) = Response true data ->
    let url := App.endpoint (closure_currentModel held) in
    let body := solve_request App.SOLVE_PROMPT t in
    let a' := snd (App.solveEquation h held (Some (JString t)) a) in
    fst (App.solveEquation h held (Some (JString t)) a) = Fulfilled tt
    /\ effects (page a') = effects (page a) ++ [Fetch url body]
    /\ loading (panel a') = false
    /\ mathTopic (panel a') = Content.detectMathTopic t
    /\ match stream_of h url body with
       | StreamFailed chunks message =>
           error (ui (page a')) = Some (message_or message ERR_SOLVE)
           /\ solution (ui (page a')) = Some JNull
           /\ history (ui (page a')) = history (ui (page a))
           /\ streamingResponse (ui (page a'))
              = Some (JString (last chunks (lit "")))
       | StreamCompleted chunks final =>
           streamingResponse (ui (page a')) = Some (JString (lit ""))
           /\ match JSON_parse (host_env h) final with
              | Some parsed =>
                  if valid_solution parsed
                  then error (ui (page a')) = None
                       /\ solution (ui (page a')) = Some parsed
                       /\ history (ui (page a'))
                          = slice_last 5
                              (history (ui (page a))
                               ++ [new_entry (host_env h)
                                     (input (ui (page a))) parsed])
                  else error (ui (page a')) = Some ERR_INCOMPLETE
                       /\ solution (ui (page a')) = Some JNull
                       /\ history (ui (page a')) = history (ui (page a))
              | None =>
                  error (ui (page a')) = Some ERR_FORMAT
                  /\ solution (ui (page a')) = Some JNull
                  /\ history (ui (page a')) = history (ui (page a))
              end
       end.
Proof.
  intros h held t a data Hn Hf url body a'. subst a'. fold url body in Hf.
  rewrite (App_solveEquation_nonblank h held a Hn). fold url body.
  rewrite Hf. cbn [fst snd].
  rewrite (proj1 (handleStreamResponse_result h url body _)).
  set (d := dispatched (Content.detectMathTopic t) true url body a).
  pose proof (dispatched_fields (Content.detectMathTopic t) true url body a)
    as (Hx & Hi & Hs & He & Hb & Hh & Ht & Hnotes & Hp & Ha).
  fold d in Hx, Hi, Hs, He, Hb, Hh, Ht, Hnotes, Hp, Ha.
  destruct (stream_of h url body) as [chunks message | chunks final].
  - pose proof (concluded_fields (Some message) (buffered chunks d))
      as (Cl & Cx & Ci & Cs & Cb & Ch & Ce & Ct & Cn & Cp & Ca).
    destruct (buffered_frame chunks d) as (Bp & Bx & Bi & Bs & Be & Bh & Bb).
    rewrite Cl, Cx, Cs, Cb, Ch, Ce, Ct, Bp, Bx, Bs, Bh, Ht, Hx, Hs, Hh.
    rewrite (buffered_last chunks d Hb). repeat split.
  - set (w := page (buffered chunks d)).
    set (f := {| page := snd (Content.onFinish (host_env h) final w);
                 panel := panel (buffered chunks d) |}).
    pose proof (concluded_fields None f)
      as (Cl & Cx & Ci & Cs & Cb & Ch & Ce & Ct & Cn & Cp & Ca).
    destruct (buffered_frame chunks d) as (Bp & Bx & Bi & Bs & Be & Bh & Bb).
    destruct (onFinish_outcome (host_env h) final w)
      as (_ & Fx & Fi & Fb & Fo).
    subst f. cbn [page panel] in *.
    rewrite Cl, Cx, Cs, Cb, Ch, Ce, Ct, Bp, Fx, Fb, Ht. subst w.
    rewrite Bx, Hx.
    repeat (split; [reflexivity|]).
    destruct (JSON_parse (host_env h) final) as [parsed|].
    + destruct (valid_solution parsed);
        destruct Fo as (-> & -> & ->); rewrite ?Be, ?Bs, ?Bh, ?Bi, ?He, ?Hs,
          ?Hh, ?Hi; repeat split.
    + destruct Fo as (-> & -> & ->). rewrite Bs, Bh, Hs, Hh. repeat split.
Qed.

Lemma solveEquation_stream_outcomes_witness :
  solution (ui (page (snd (App.solveEquation streaming_host
                             (snapshot initial_app)
                             (Some (JString (lit "1+1"))) initial_app))))
  = Some good_payload
  /\ loading (panel (snd (App.solveEquation streaming_host
                            (snapshot initial_app)
                            (Some (JString (lit "1+1"))) initial_app)))
     = false.
Proof.
  assert (Hn : nonblank (lit "1+1")).
  { exists 49%N. split; [left; reflexivity | reflexivity]. }
  destruct (solveEquation_stream_outcomes streaming_host
              (snapshot initial_app) initial_app
              (data := Some (JArray [])) Hn eq_refl)
    as (_ & _ & Hl & _ & _ & Hs).
  split; [exact (proj1 (proj2 Hs)) | exact Hl].
Defined.

(* ================================================================== *)
(** ** Enrichment after a solve in [part_000] *)
(* ================================================================== *)

Lemma generate_resume_frame h body property store show failure a :
  (forall v a0, fst (store v a0) = Fulfilled tt) ->
  (forall a0, fst (show a0) = Fulfilled tt) ->
  (forall v a0, page (snd (store v a0)) = page a0) ->
  (forall a0, page (snd (show a0)) = page a0) ->
  let a' := snd (generate_resume h body property store show failure a) in
  fst (generate_resume h body property store show failure a) = Fulfilled tt
  /\ effects (page a') = effects (page a)
  /\ solution (ui (page a')) = solution (ui (page a))
  /\ history (ui (page a')) = history (ui (page a))
  /\ streamingResponse (ui (page a')) = streamingResponse (ui (page a))
  /\ input (ui (page a')) = input (ui (page a)).
Proof.
  intros Hs Hw Ps Pw a'. subst a'.
  rewrite generate_resume_result by assumption.
  destruct (enrichment_items h body property) as [items|];
    [|repeat split].
  unfold bindH. specialize (Hs items a). specialize (Ps items a).
  destruct (store items a) as [[[]|m] a1]; [|discriminate].
  specialize (Hw a1). specialize (Pw a1).
  destruct (show a1) as [[[]|m] a2]; [|discriminate].
  cbn [fst snd] in *. rewrite Pw, Ps. repeat split.
Qed.

Lemma Promise_all2_enrichment h held a :
  let practice := practice_request h LegacyApp.STRICT (closure_input held) in
  let alternative :=
    alternative_request h LegacyApp.STRICT (closure_input held) in
  let a' :=
    snd (try_catchH
           (Promise_all2 h (generate_begin practice)
              (LegacyApp.generatePracticeProblems_resume h held)
              (generate_begin alternative)
              (LegacyApp.generateAlternativeMethods_resume h held))
           (fun _ => retH tt) a) in
  effects (page a')
  = effects (page a) ++ [Fetch GEMINI practice; Fetch GEMINI alternative]
  /\ solution (ui (page a')) = solution (ui (page a))
  /\ history (ui (page a')) = history (ui (page a))
  /\ streamingResponse (ui (page a')) = streamingResponse (ui (page a))
  /\ input (ui (page a')) = input (ui (page a)).
Proof.
  intros practice alternative a'. subst a'.
  unfold Promise_all2, LegacyApp.generatePracticeProblems_resume,
    LegacyApp.generateAlternativeMethods_resume, generate_begin.
  fold practice alternative.
  set (rp := generate_resume h practice (lit "problems") setPracticeProblems
               (setShowPractice true) ERR_PRACTICE).
  set (ra := generate_resume h alternative (lit "methods")
               setAlternativeSolutions (setShowAlternativeMethods true)
               ERR_ALTERNATIVE).
  assert (Hp : forall x,
             fst (rp x) = Fulfilled tt
             /\ effects (page (snd (rp x))) = effects (page x)
             /\ solution (ui (page (snd (rp x)))) = solution (ui (page x))
             /\ history (ui (page (snd (rp x)))) = history (ui (page x))
             /\ streamingResponse (ui (page (snd (rp x))))
                = streamingResponse (ui (page x))
             /\ input (ui (page (snd (rp x)))) = input (ui (page x))).
  { intros x. apply generate_resume_frame; reflexivity. }
  assert (Ha : forall x,
             fst (ra x) = Fulfilled tt
             /\ effects (page (snd (ra x))) = effects (page x)
             /\ solution (ui (page (snd (ra x)))) = solution (ui (page x))
             /\ history (ui (page (snd (ra x)))) = history (ui (page x))
             /\ streamingResponse (ui (page (snd (ra x))))
                = streamingResponse (ui (page x))
             /\ input (ui (page (snd (ra x)))) = input (ui (page x))).
  { intros x. apply generate_resume_frame; reflexivity. }
  clearbody rp ra.
  unfold try_catchH, bindH, send, lift, emit, retH. cbn [fst snd page panel].
  set (x := {| page := _; panel := panel a |}).
  assert (Hx : effects (page x)
               = effects (page a)
                 ++ [Fetch GEMINI practice; Fetch GEMINI alternative]).
  { subst x. cbn [page effects ui]. now rewrite <- app_assoc. }
  assert (Hx' : ui (page x) = ui (page a)) by reflexivity.
  clearbody x.
  destruct (second_settles_first h).
  - destruct (Ha x) as (A1 & A2 & A3 & A4 & A5 & A6).
    destruct (ra x) as [[[]|m] x1]; [|discriminate]. cbn [fst snd] in *.
    destruct (Hp x1) as (P1 & P2 & P3 & P4 & P5 & P6).
    destruct (rp x1) as [[[]|m] x2]; [|discriminate]. cbn [fst snd] in *.
    repeat split; congruence.
  - destruct (Hp x) as (P1 & P2 & P3 & P4 & P5 & P6).
    destruct (rp x) as [[[]|m] x1]; [|discriminate]. cbn [fst snd] in *.
    destruct (Ha x1) as (A1 & A2 & A3 & A4 & A5 & A6).
    destruct (ra x1) as [[[]|m] x2]; [|discriminate]. cbn [fst snd] in *.
    repeat split; congruence.
Qed.

(** The shape of a solve in [part_000]. *)
Lemma Legacy_solveEquation_nonblank h held t a :
  nonblank t ->
  let url := App.endpoint (closure_currentModel held) in
  let body := solve_request LegacyApp.SOLVE_PROMPT t in
  let d := dispatched (Legacy.detectMathTopic t) false url body a in
  LegacyApp.solveEquation h held (Some (JString t)) a
  = (Fulfilled tt,
     match fetch_result (host_env h) url body with
     | NetworkError => concluded (Some (rejection_message h url body)) d
     | Response false _ =>
         concluded (Some (Some (STATUS_PREFIX ++ response_status h url body)))
           d
     | Response true _ =>
         match handleStreamResponse h LegacyApp.onChunk
                 (Legacy.onFinish (host_env h)) url body d with
         | (Fulfilled _, a2) =>
             concluded None
               (if truthy (closure_solution held)
                then snd (try_catchH
                            (Promise_all2 h
                               (generate_begin
                                  (practice_request h LegacyApp.STRICT
                                     (closure_input held)))
                               (LegacyApp.generatePracticeProblems_resume
                                  h held)
                               (generate_begin
                                  (alternative_request h LegacyApp.STRICT
                                     (closure_input held)))
                               (LegacyApp.generateAlternativeMethods_resume
                                  h held))
                            (fun _ => retH tt) a2)
                else a2)
         | (Rejected message, a2) => concluded (Some message) a2
         end
     end).
Proof.
  intros Hn url body d. subst d.
  unfold LegacyApp.solveEquation. rewrite (trim_nonblank Hn). cbn [negb].
  unfold dispatched, concluded.
  set (enrich := try_catchH _ (fun _ => retH tt)).
  assert (He : forall x, fst (enrich x) = Fulfilled tt).
  { intros x. subst enrich. unfold try_catchH.
    match goal with
    | |- context [Promise_all2 ?h ?b1 ?r1 ?b2 ?r2 x] =>
        destruct (Promise_all2 h b1 r1 b2 r2 x) as [[[]|m] x1]
    end; reflexivity. }
  clearbody enrich.
  cbv beta zeta delta
    [try_catch_finally try_catchH bindH retH raise lift set engine send answer
     fetchH readP modifyP setLoading setMathTopic setShowPractice
     setShowAlternativeMethods emit setError setSolution setStreamingResponse
     modify negb fst snd page panel ui effects input file solution error
     streamingResponse history previewImage savedSolutions notes loading
     mathTopic currentModel practiceProblems showPractice
     alternativeSolutions showAlternativeMethods]
    iota.
  fold url body.
  destruct (fetch_result (host_env h) url body) as [|[|] data];
    cbv beta iota; try reflexivity.
  match goal with
  | |- context [handleStreamResponse ?h ?c ?f ?u ?b ?x] =>
      destruct (handleStreamResponse h c f u b x) as [[[]|m] a2]
  end; [|reflexivity].
  destruct (truthy (closure_solution held)); [|reflexivity].
  specialize (He a2). destruct (enrich a2) as [[[]|m] a3];
    [reflexivity | discriminate].
Qed.

(** X16. In [part_000], whether the two enrichment requests follow a solve
    is decided by the Solution the handler holds in its closure, the one on
    display when the solve was started, and not by the payload just
    received: when the stream completes they go out exactly when that
    earlier Solution is truthy, in the order practice problems, alternative
    methods, and they quote the input held in the closure.  A solve started
    with no Solution on display is followed by none, valid payload or not.
    The Solution and the history are those [onFinish] left. *)
Theorem Legacy_enrichment_follows_earlier_solution :
  forall (h : host) (held : closure) (t : jsstring) (a : app)
         (data : option json) (chunks : list jsstring) (final : jsstring),
    nonblank t ->
    fetch_result (host_env h) (App.endpoint (closure_currentModel held))
      (solve_request LegacyApp.SOLVE_PROMPT t) = Response true data ->
    stream_of h (App.endpoint (closure_currentModel held))
      (solve_request LegacyApp.SOLVE_PROMPT t)
    = StreamCompleted chunks final ->
    let url := App.endpoint (closure_currentModel held) in
    let body := solve_request LegacyApp.SOLVE_PROMPT t in
    let a' := snd (LegacyApp.solveEquation h held (Some (JString t)) a) in
    effects (page a')
    = effects (page a)
      ++ Fetch url body
         :: (if truthy (closure_solution held)
             then [Fetch GEMINI
                     (practice_request h LegacyApp.STRICT
                        (closure_input held));
                   Fetch GEMINI
                     (alternative_request h LegacyApp.STRICT
                        (closure_input held))]
             else [])
    /\ loading (panel a') = false
    /\ solution (ui (page a'))
       = match JSON_parse (host_env h) final with
         | Some parsed =>
             if valid_solution parsed then Some parsed else Some JNull
         | None => Some JNull
         end
    /\ LegacyApp.solve_clicked h a
       = LegacyApp.solveEquation h (snapshot a) (input (ui (page a))) a
    /\ closure_solution (snapshot a) = solution (ui (page a)).
Proof.
  intros h held t a data chunks final Hn Hf Hs url body a'. subst a'.
  fold url body in Hf, Hs.
  rewrite (Legacy_solveEquation_nonblank h held a Hn). fold url body.
  rewrite Hf. cbn [fst snd].
  rewrite (proj2 (handleStreamResponse_result h url body _)),
    (proj1 (handleStreamResponse_result h url body _)), Hs.
  set (d := dispatched (Legacy.detectMathTopic t) false url body a).
  pose proof (dispatched_fields (Legacy.detectMathTopic t) false url body a)
    as (Hx & Hi & Hso & He & Hb & Hh & Ht & Hnotes & Hp).
  fold d in Hx, Hi, Hso, He, Hb, Hh, Ht, Hnotes, Hp.
  set (w := page (buffered chunks d)).
  set (f := {| page := snd (Content.onFinish (host_env h) final w);
               panel := panel (buffered chunks d) |}).
  destruct (buffered_frame chunks d) as (Bp & Bx & Bi & Bs & Be & Bh & Bb).
  destruct (onFinish_outcome (host_env h) final w)
    as (_ & Fx & Fi & Fb & Fo).
  assert (Fs : solution (ui (page f))
               = match JSON_parse (host_env h) final with
                 | Some parsed =>
                     if valid_solution parsed then Some parsed
                     else Some JNull
                 | None => Some JNull
                 end).
  { subst f w. cbn [page].
    destruct (JSON_parse (host_env h) final) as [parsed|];
      [destruct (valid_solution parsed)|];
      destruct Fo as (_ & -> & _); rewrite ?Bs, ?Hso; reflexivity. }
  assert (Fe : effects (page f) = effects (page a) ++ [Fetch url body]).
  { subst f w. cbn [page]. now rewrite Fx, Bx, Hx. }
  clearbody f.
  match goal with
  | |- context [concluded None ?x] =>
      pose proof (concluded_fields None x)
        as (Cl & Cx & Ci & Cs & Cb & Ch & Ce & Ct & Cn & Cp & Ca)
  end.
  rewrite Cl, Cx, Cs.
  repeat split.
  - destruct (truthy (closure_solution held)).
    + destruct (Promise_all2_enrichment h held f) as (Px & _).
      rewrite Px, Fe, <- app_assoc. reflexivity.
    + now rewrite Fe.
  - destruct (truthy (closure_solution held)); [|exact Fs].
    destruct (Promise_all2_enrichment h held f) as (_ & Ps & _).
    now rewrite Ps.
Qed.

Lemma Legacy_enrichment_witness :
  effects (page (snd (LegacyApp.solveEquation streaming_host
                        (snapshot initial_app) (Some (JString (lit "1+1")))
                        initial_app)))
  = [Fetch GEMINI (solve_request LegacyApp.SOLVE_PROMPT (lit "1+1"))]
  /\ solution (ui (page (snd (LegacyApp.solveEquation streaming_host
                                (snapshot initial_app)
                                (Some (JString (lit "1+1"))) initial_app))))
     = Some good_payload.
Proof.
  assert (Hn : nonblank (lit "1+1")).
  { exists 49%N. split; [left; reflexivity | reflexivity]. }
  destruct (Legacy_enrichment_follows_earlier_solution streaming_host
              (snapshot initial_app) initial_app
              (data := Some (JArray [])) (chunks := [lit "{"])
              (final := good_message) Hn eq_refl eq_refl)
    as (He & _ & Hs & _).
  split; [exact He | exact Hs].
Defined.

(* ================================================================== *)
(** ** The solve operation on a completed stream *)
(* ================================================================== *)

Lemma generate_resume_error h body property store show failure a :
  (forall v a0, fst (store v a0) = Fulfilled tt) ->
  (forall a0, fst (show a0) = Fulfilled tt) ->
  (forall v a0, page (snd (store v a0)) = page a0) ->
  (forall a0, page (snd (show a0)) = page a0) ->
  let a' := snd (generate_resume h body property store show failure a) in
  error (ui (page a')) = error (ui (page a))
  \/ error (ui (page a')) = Some failure.
Proof.
  intros Hs Hw Ps Pw a'. subst a'.
  rewrite generate_resume_result by assumption.
  destruct (enrichment_items h body property) as [items|];
    [|right; reflexivity].
  left. unfold bindH. specialize (Hs items a). specialize (Ps items a).
  destruct (store items a) as [[[]|m] a1]; [|discriminate].
  specialize (Hw a1). specialize (Pw a1).
  destruct (show a1) as [[[]|m] a2]; [|discriminate].
  cbn [fst snd] in *. now rewrite Pw, Ps.
Qed.

(** The enrichment requests of [part_000] report nothing but their own
    failures. *)
Lemma Promise_all2_error h held a :
  let a' :=
    snd (try_catchH
           (Promise_all2 h
              (generate_begin
                 (practice_request h LegacyApp.STRICT (closure_input held)))
              (LegacyApp.generatePracticeProblems_resume h held)
              (generate_begin
                 (alternative_request h LegacyApp.STRICT
                    (closure_input held)))
              (LegacyApp.generateAlternativeMethods_resume h held))
           (fun _ => retH tt) a) in
  error (ui (page a')) = error (ui (page a))
  \/ error (ui (page a')) = Some ERR_PRACTICE
  \/ error (ui (page a')) = Some ERR_ALTERNATIVE.
Proof.
  intros a'. subst a'.
  unfold Promise_all2, LegacyApp.generatePracticeProblems_resume,
    LegacyApp.generateAlternativeMethods_resume, generate_begin.
  set (practice := practice_request h LegacyApp.STRICT (closure_input held)).
  set (alternative :=
         alternative_request h LegacyApp.STRICT (closure_input held)).
  set (rp := generate_resume h practice (lit "problems") setPracticeProblems
               (setShowPractice true) ERR_PRACTICE).
  set (ra := generate_resume h alternative (lit "methods")
               setAlternativeSolutions (setShowAlternativeMethods true)
               ERR_ALTERNATIVE).
  assert (Hp : forall x,
             fst (rp x) = Fulfilled tt
             /\ (error (ui (page (snd (rp x)))) = error (ui (page x))
                 \/ error (ui (page (snd (rp x)))) = Some ERR_PRACTICE)).
  { intros x. split.
    - apply generate_resume_frame; reflexivity.
    - apply generate_resume_error; reflexivity. }
  assert (Ha : forall x,
             fst (ra x) = Fulfilled tt
             /\ (error (ui (page (snd (ra x)))) = error (ui (page x))
                 \/ error (ui (page (snd (ra x)))) = Some ERR_ALTERNATIVE)).
  { intros x. split.
    - apply generate_resume_frame; reflexivity.
    - apply generate_resume_error; reflexivity. }
  clearbody rp ra.
  unfold try_catchH, bindH, send, lift, emit, retH. cbn [fst snd page panel].
  set (x := {| page := _; panel := panel a |}).
  assert (Hx : error (ui (page x)) = error (ui (page a))) by reflexivity.
  clearbody x.
  destruct (second_settles_first h).
  - destruct (Ha x) as (A1 & A2).
    destruct (ra x) as [[[]|m] x1]; [|discriminate]. cbn [fst snd] in *.
    destruct (Hp x1) as (P1 & P2).
    destruct (rp x1) as [[[]|m] x2]; [|discriminate]. cbn [fst snd] in *.
    destruct P2 as [P2 | P2]; [|right; left; exact P2].
    destruct A2 as [A2 | A2]; [left | right; right]; congruence.
  - destruct (Hp x) as (P1 & P2).
    destruct (rp x) as [[[]|m] x1]; [|discriminate]. cbn [fst snd] in *.
    destruct (Ha x1) as (A1 & A2).
    destruct (ra x1) as [[[]|m] x2]; [|discriminate]. cbn [fst snd] in *.
    destruct A2 as [A2 | A2]; [|right; right; exact A2].
    destruct P2 as [P2 | P2]; [left | right; left]; congruence.
Qed.

(** A solve of [content.js] whose stream completes: what [onFinish] decides
    is what is left, on a page whose Solution the solve has reset. *)
Lemma App_solveEquation_completed h held t a final :
  nonblank t ->
  completes_with h (App.endpoint (closure_currentModel held))
    (solve_request App.SOLVE_PROMPT t) final ->
  let a' := snd (App.solveEquation h held (Some (JString t)) a) in
  fst (App.solveEquation h held (Some (JString t)) a) = Fulfilled tt
  /\ loading (panel a') = false
  /\ streamingResponse (ui (page a')) = Some (JString (lit ""))
  /\ match JSON_parse (host_env h) final with
     | Some parsed =>
         if valid_solution parsed
         then error (ui (page a')) = None
              /\ solution (ui (page a')) = Some parsed
              /\ history (ui (page a'))
                 = slice_last 5
                     (history (ui (page a))
                      ++ [new_entry (host_env h) (input (ui (page a)))
                            parsed])
         else error (ui (page a')) = Some ERR_INCOMPLETE
              /\ solution (ui (page a')) = Some JNull
              /\ history (ui (page a')) = history (ui (page a))
     | None =>
         error (ui (page a')) = Some ERR_FORMAT
         /\ solution (ui (page a')) = Some JNull
         /\ history (ui (page a')) = history (ui (page a))
     end.
Proof.
  intros Hn [[data Hf] [chunks Hs]] a'. subst a'.
  set (url := App.endpoint (closure_currentModel held)) in *.
  set (body := solve_request App.SOLVE_PROMPT t) in *.
  rewrite (App_solveEquation_nonblank h held a Hn). fold url body.
  rewrite Hf. cbn [fst snd].
  rewrite (proj1 (handleStreamResponse_result h url body _)), Hs.
  set (d := dispatched (Content.detectMathTopic t) true url body a).
  pose proof (dispatched_fields (Content.detectMathTopic t) true url body a)
    as (Hx & Hi & Hso & He & Hb & Hh & Ht & Hnotes & Hp & Ha).
  fold d in Hx, Hi, Hso, He, Hb, Hh, Ht, Hnotes, Hp, Ha.
  set (w := page (buffered chunks d)).
  set (f := {| page := snd (Content.onFinish (host_env h) final w);
               panel := panel (buffered chunks d) |}).
  pose proof (concluded_fields None f)
    as (Cl & Cx & Ci & Cs & Cb & Ch & Ce & Ct & Cn & Cp & Ca).
  destruct (buffered_frame chunks d) as (Bp & Bx & Bi & Bs & Be & Bh & Bb).
  destruct (onFinish_outcome (host_env h) final w)
    as (_ & Fx & Fi & Fb & Fo).
  subst f. cbn [page panel] in *.
  rewrite Cl, Cs, Cb, Ch, Ce, Fb. subst w.
  repeat (split; [reflexivity|]).
  destruct (JSON_parse (host_env h) final) as [parsed|].
  - destruct (valid_solution parsed);
      destruct Fo as (-> & -> & ->); rewrite ?Be, ?Bs, ?Bh, ?Bi, ?He, ?Hso,
        ?Hh, ?Hi; repeat split.
  - destruct Fo as (-> & -> & ->). rewrite Bs, Bh, Hso, Hh. repeat split.
Qed.

(** The same in [part_000], where the enrichment requests may follow and
    report a failure of their own. *)
Lemma Legacy_solveEquation_completed h held t a final :
  nonblank t ->
  completes_with h (App.endpoint (closure_currentModel held))
    (solve_request LegacyApp.SOLVE_PROMPT t) final ->
  let a' := snd (LegacyApp.solveEquation h held (Some (JString t)) a) in
  fst (LegacyApp.solveEquation h held (Some (JString t)) a) = Fulfilled tt
  /\ loading (panel a') = false
  /\ streamingResponse (ui (page a')) = Some (JString (lit ""))
  /\ match JSON_parse (host_env h) final with
     | Some parsed =>
         if valid_solution parsed
         then solution (ui (page a')) = Some parsed
              /\ history (ui (page a'))
                 = slice_last 5
                     (history (ui (page a))
                      ++ [new_entry (host_env h) (input (ui (page a)))
                            parsed])
         else solution (ui (page a')) = Some JNull
              /\ history (ui (page a')) = history (ui (page a))
     | None =>
         solution (ui (page a')) = Some JNull
         /\ history (ui (page a')) = history (ui (page a))
     end
  /\ (error (ui (page a'))
      = match JSON_parse (host_env h) final with
        | Some parsed =>
            if valid_solution parsed then None else Some ERR_INCOMPLETE
        | None => Some ERR_FORMAT
        end
      \/ truthy (closure_solution held) = true
         /\ (error (ui (page a')) = Some ERR_PRACTICE
             \/ error (ui (page a')) = Some ERR_ALTERNATIVE)).
Proof.
  intros Hn [[data Hf] [chunks Hs]] a'. subst a'.
  set (url := App.endpoint (closure_currentModel held)) in *.
  set (body := solve_request LegacyApp.SOLVE_PROMPT t) in *.
  rewrite (Legacy_solveEquation_nonblank h held a Hn). fold url body.
  rewrite Hf. cbn [fst snd].
  rewrite (proj2 (handleStreamResponse_result h url body _)),
    (proj1 (handleStreamResponse_result h url body _)), Hs.
  set (d := dispatched (Legacy.detectMathTopic t) false url body a).
  pose proof (dispatched_fields (Legacy.detectMathTopic t) false url body a)
    as (Hx & Hi & Hso & He & Hb & Hh & Ht & Hnotes & Hp).
  fold d in Hx, Hi, Hso, He, Hb, Hh, Ht, Hnotes, Hp.
  set (w := page (buffered chunks d)).
  set (f := {| page := snd (Content.onFinish (host_env h) final w);
               panel := panel (buffered chunks d) |}).
  destruct (buffered_frame chunks d) as (Bp & Bx & Bi & Bs & Be & Bh & Bb).
  destruct (onFinish_outcome (host_env h) final w)
    as (_ & Fx & Fi & Fb & Fo).
  assert (Ff : streamingResponse (ui (page f)) = Some (JString (lit ""))
               /\ match JSON_parse (host_env h) final with
                  | Some parsed =>
                      if valid_solution parsed
                      then error (ui (page f)) = None
                           /\ solution (ui (page f)) = Some parsed
                           /\ history (ui (page f))
                              = slice_last 5
                                  (history (ui (page a))
                                   ++ [new_entry (host_env h)
                                         (input (ui (page a))) parsed])
                      else error (ui (page f)) = Some ERR_INCOMPLETE
                           /\ solution (ui (page f)) = Some JNull
                           /\ history (ui (page f)) = history (ui (page a))
                  | None =>
                      error (ui (page f)) = Some ERR_FORMAT
                      /\ solution (ui (page f)) = Some JNull
                      /\ history (ui (page f)) = history (ui (page a))
                  end).
  { subst f w. cbn [page]. split; [exact Fb|].
    destruct (JSON_parse (host_env h) final) as [parsed|];
      [destruct (valid_solution parsed)|];
      destruct Fo as (-> & -> & ->);
      rewrite ?Be, ?Bs, ?Bh, ?Bi, ?He, ?Hso, ?Hh, ?Hi; repeat split. }
  clearbody f. destruct Ff as (Ffb & Ffo).
  match goal with
  | |- context [concluded None ?x] =>
      pose proof (concluded_fields None x)
        as (Cl & Cx & Ci & Cs & Cb & Ch & Ce & Ct & Cn & Cp & Ca)
  end.
  rewrite Cl, Cs, Cb, Ch, Ce.
  split; [reflexivity|]. split; [reflexivity|].
  destruct (truthy (closure_solution held)).
  - destruct (Promise_all2_enrichment h held f) as (_ & Ps & Ph & Pb & _).
    pose proof (Promise_all2_error h held f) as Pe.
    cbv zeta in Pe. rewrite Ps, Ph, Pb.
    split; [exact Ffb|].
    destruct (JSON_parse (host_env h) final) as [parsed|];
      [destruct (valid_solution parsed)|];
      destruct Ffo as (Fe & Fs & Fh);
      (split; [split; assumption|]);
      (destruct Pe as [Pe | Pe];
       [left; now rewrite Pe | right; split; [reflexivity | exact Pe]]).
  - split; [exact Ffb|].
    destruct (JSON_parse (host_env h) final) as [parsed|];
      [destruct (valid_solution parsed)|];
      destruct Ffo as (Fe & Fs & Fh);
      (split; [split; assumption | left; assumption]).
Qed.

(** C1 fails as stated, on both counts.  A solve whose stream completes
    with [{"steps":[],"final_answer":"42"}] commits that payload, whose
    [steps] is empty, as the Solution and as a history entry, and reports
    nothing.  And a solve started while a Solution is on display, whose
    stream completes with [{"steps":[]}], reports "incomplete solution
    data" and leaves no Solution: the one displayed before is gone. *)
Lemma solveEquation_accepts_empty_steps :
  JSON_parse online empty_steps_message = Some empty_steps_payload
  /\ optional_member (Some empty_steps_payload) (lit "steps")
     = Some (JArray [])
  /\ solution (ui (page (snd (App.solveEquation
                                (answering empty_steps_message)
                                (snapshot initial_app)
                                (Some (JString (lit "1+1"))) initial_app))))
     = Some empty_steps_payload
  /\ error (ui (page (snd (App.solveEquation
                             (answering empty_steps_message)
                             (snapshot initial_app)
                             (Some (JString (lit "1+1"))) initial_app))))
     = None
  /\ List.length
       (history (ui (page (snd (App.solveEquation
                                  (answering empty_steps_message)
                                  (snapshot initial_app)
                                  (Some (JString (lit "1+1")))
                                  initial_app)))))
     = 1
  /\ solution (ui (page solved_once)) = Some good_payload
  /\ error (ui (page (snd (App.solveEquation (answering no_answer_message)
                             (snapshot solved_once)
                             (Some (JString (lit "1+1"))) solved_once))))
     = Some ERR_INCOMPLETE
  /\ solution (ui (page (snd (App.solveEquation (answering no_answer_message)
                                (snapshot solved_once)
                                (Some (JString (lit "1+1"))) solved_once))))
     = Some JNull
  /\ solution (ui (page (snd (LegacyApp.solveEquation
                                (answering no_answer_message)
                                (snapshot solved_once)
                                (Some (JString (lit "1+1"))) solved_once))))
     = Some JNull.
Proof. vm_compute. repeat split. Qed.

(** C1, amended. When the stream of a solve completes with a text that
    parses, the solve operation commits the payload exactly when its
    [steps] and its [final_answer] are both truthy: then the payload becomes
    the Solution and one entry is appended to the history, of which the five
    most recent are kept.  Otherwise "Received incomplete solution data.
    Please try again." is reported and nothing is committed: the history is
    as before and the Solution is [null], not the one on display before the
    solve, which [solveEquation] has reset before sending its request.  In
    both cases the streaming buffer is emptied.  A [final_answer] string is
    truthy exactly when it is not empty; a [steps] array is always truthy,
    the empty one too; a missing property and [null] are not.  In
    [part_000] the enrichment requests that follow a solve started with a
    Solution on display may replace the reported error by their own. *)
Theorem solveEquation_validates_payload :
  forall (h : host) (held : closure) (t : jsstring) (a : app)
         (final : jsstring) (parsed : json),
    nonblank t ->
    JSON_parse (host_env h) final = Some parsed ->
    let url := App.endpoint (closure_currentModel held) in
    let accepted :=
      truthy (optional_member (Some parsed) (lit "steps"))
      && truthy (optional_member (Some parsed) (lit "final_answer")) in
    let committed :=
      slice_last 5
        (history (ui (page a))
         ++ [new_entry (host_env h) (input (ui (page a))) parsed]) in
    let a1 := snd (App.solveEquation h held (Some (JString t)) a) in
    let a2 := snd (LegacyApp.solveEquation h held (Some (JString t)) a) in
    (completes_with h url (solve_request App.SOLVE_PROMPT t) final ->
     streamingResponse (ui (page a1)) = Some (JString (lit ""))
     /\ (if accepted
         then solution (ui (page a1)) = Some parsed
              /\ history (ui (page a1)) = committed
              /\ error (ui (page a1)) = None
         else error (ui (page a1)) = Some ERR_INCOMPLETE
              /\ solution (ui (page a1)) = Some JNull
              /\ history (ui (page a1)) = history (ui (page a))))
    /\ (completes_with h url (solve_request LegacyApp.SOLVE_PROMPT t) final ->
        streamingResponse (ui (page a2)) = Some (JString (lit ""))
        /\ (if accepted
            then solution (ui (page a2)) = Some parsed
                 /\ history (ui (page a2)) = committed
            else solution (ui (page a2)) = Some JNull
                 /\ history (ui (page a2)) = history (ui (page a)))
        /\ (error (ui (page a2))
            = (if accepted then None else Some ERR_INCOMPLETE)
            \/ truthy (closure_solution held) = true
               /\ (error (ui (page a2)) = Some ERR_PRACTICE
                   \/ error (ui (page a2)) = Some ERR_ALTERNATIVE)))
    /\ ERR_INCOMPLETE
       = lit "Received incomplete solution data. Please try again."
    /\ (forall items, truthy (Some (JArray items)) = true)
    /\ (forall s, truthy (Some (JString s)) = negb (jsstring_eqb s (lit "")))
    /\ truthy None = false
    /\ truthy (Some JNull) = false.
Proof.
  intros h held t a final parsed Hn Hp url accepted committed a1 a2.
  subst url accepted committed a1 a2.
  split; [|split; [|repeat split; now destruct s]].
  - intros Hc.
    destruct (@App_solveEquation_completed h held t a final Hn Hc)
      as (_ & _ & Hb & Ho).
    rewrite Hp in Ho. unfold valid_solution in Ho.
    split; [exact Hb|].
    destruct (truthy (optional_member (Some parsed) (lit "steps"))
              && truthy (optional_member (Some parsed) (lit "final_answer")));
      destruct Ho as (He & Hs & Hh); repeat split; assumption.
  - intros Hc.
    destruct (@Legacy_solveEquation_completed h held t a final Hn Hc)
      as (_ & _ & Hb & Ho & He).
    rewrite Hp in Ho, He. unfold valid_solution in Ho, He.
    split; [exact Hb|]. split; [exact Ho | exact He].
Qed.

Lemma solveEquation_validates_payload_witness :
  solution (ui (page (snd (App.solveEquation (answering good_message)
                             (snapshot initial_app)
                             (Some (JString (lit "1+1"))) initial_app))))
  = Some good_payload
  /\ error (ui (page (snd (App.solveEquation (answering no_answer_message)
                             (snapshot solved_once)
                             (Some (JString (lit "1+1"))) solved_once))))
     = Some ERR_INCOMPLETE
  /\ solution (ui (page (snd (LegacyApp.solveEquation
                                (answering no_answer_message)
                                (snapshot initial_app)
                                (Some (JString (lit "1+1"))) initial_app))))
     = Some JNull.
Proof.
  assert (Hn : nonblank (lit "1+1")).
  { exists 49%N. split; [left; reflexivity | reflexivity]. }
  assert (Hc : forall final prompt a,
             completes_with (answering final)
               (App.endpoint (closure_currentModel (snapshot a)))
               (solve_request prompt (lit "1+1")) final).
  { intros final prompt a. split; eexists; reflexivity. }
  destruct (@solveEquation_validates_payload (answering good_message)
              (snapshot initial_app) (lit "1+1") initial_app good_message
              good_payload Hn eq_refl) as (Hgood & _).
  destruct (@solveEquation_validates_payload (answering no_answer_message)
              (snapshot solved_once) (lit "1+1") solved_once
              no_answer_message no_answer_payload Hn eq_refl) as (Hbad & _).
  destruct (@solveEquation_validates_payload (answering no_answer_message)
              (snapshot initial_app) (lit "1+1") initial_app
              no_answer_message no_answer_payload Hn eq_refl)
    as (_ & Hold & _).
  split; [exact (proj1 (proj2 (Hgood (Hc _ _ _))))|].
  split; [exact (proj1 (proj2 (Hbad (Hc _ _ _))))|].
  exact (proj1 (proj1 (proj2 (Hold (Hc _ _ _))))).
Defined.

(** C2 fails as stated: a solve started while a Solution is on display,
    whose stream completes with a text that is not JSON, reports the format
    error and leaves no Solution.  The one displayed before is gone,
    [solveEquation] having reset it before the request was sent. *)
Lemma solveEquation_invalid_json_drops_solution :
  JSON_parse online (lit "Sorry, I cannot solve this.") = None
  /\ solution (ui (page solved_once)) = Some good_payload
  /\ error (ui (page (snd (App.solveEquation
                             (answering (lit "Sorry, I cannot solve this."))
                             (snapshot solved_once)
                             (Some (JString (lit "1+1"))) solved_once))))
     = Some ERR_FORMAT
  /\ solution (ui (page (snd (App.solveEquation
                                (answering (lit "Sorry, I cannot solve this."))
                                (snapshot solved_once)
                                (Some (JString (lit "1+1"))) solved_once))))
     = Some JNull
  /\ solution (ui (page (snd (LegacyApp.solveEquation
                                (answering (lit "Sorry, I cannot solve this."))
                                (snapshot solved_once)
                                (Some (JString (lit "1+1"))) solved_once))))
     = Some JNull.
Proof. vm_compute. repeat split. Qed.

(** C2, amended. When the stream of a solve completes with a text that is
    not JSON, the solve operation ends normally having reported "Received
    invalid response format. Please try again."; the streaming buffer is
    empty, the loading flag is off and the history is as before.  No
    Solution is left: it is [null] whatever was on display before the solve,
    [solveEquation] having reset it before sending its request.  In
    [part_000] the enrichment requests that follow a solve started with a
    Solution on display may replace the reported error by their own. *)
Theorem solveEquation_invalid_json_reports_format_error :
  forall (h : host) (held : closure) (t : jsstring) (a : app)
         (final : jsstring),
    nonblank t ->
    JSON_parse (host_env h) final = None ->
    let url := App.endpoint (closure_currentModel held) in
    let a1 := snd (App.solveEquation h held (Some (JString t)) a) in
    let a2 := snd (LegacyApp.solveEquation h held (Some (JString t)) a) in
    (completes_with h url (solve_request App.SOLVE_PROMPT t) final ->
     fst (App.solveEquation h held (Some (JString t)) a) = Fulfilled tt
     /\ error (ui (page a1)) = Some ERR_FORMAT
     /\ solution (ui (page a1)) = Some JNull
     /\ history (ui (page a1)) = history (ui (page a))
     /\ streamingResponse (ui (page a1)) = Some (JString (lit ""))
     /\ loading (panel a1) = false)
    /\ (completes_with h url (solve_request LegacyApp.SOLVE_PROMPT t) final ->
        fst (LegacyApp.solveEquation h held (Some (JString t)) a)
        = Fulfilled tt
        /\ solution (ui (page a2)) = Some JNull
        /\ history (ui (page a2)) = history (ui (page a))
        /\ streamingResponse (ui (page a2)) = Some (JString (lit ""))
        /\ loading (panel a2) = false
        /\ (error (ui (page a2)) = Some ERR_FORMAT
            \/ truthy (closure_solution held) = true
               /\ (error (ui (page a2)) = Some ERR_PRACTICE
                   \/ error (ui (page a2)) = Some ERR_ALTERNATIVE)))
    /\ ERR_FORMAT = lit "Received invalid response format. Please try again.".
Proof.
  intros h held t a final Hn Hp url a1 a2. subst url a1 a2.
  split; [|split; [|reflexivity]].
  - intros Hc.
    destruct (@App_solveEquation_completed h held t a final Hn Hc)
      as (Hr & Hl & Hb & Ho).
    rewrite Hp in Ho. destruct Ho as (He & Hs & Hh).
    repeat split; assumption.
  - intros Hc.
    destruct (@Legacy_solveEquation_completed h held t a final Hn Hc)
      as (Hr & Hl & Hb & Ho & He).
    rewrite Hp in Ho, He. destruct Ho as (Hs & Hh).
    repeat split; assumption.
Qed.

Lemma solveEquation_invalid_json_witness :
  error (ui (page (snd (App.solveEquation
                          (answering (lit "Sorry, I cannot solve this."))
                          (snapshot solved_once)
                          (Some (JString (lit "1+1"))) solved_once))))
  = Some ERR_FORMAT
  /\ solution (ui (page (snd (App.solveEquation
                                (answering (lit "Sorry, I cannot solve this."))
                                (snapshot solved_once)
                                (Some (JString (lit "1+1"))) solved_once))))
     = Some JNull
  /\ solution (ui (page (snd (LegacyApp.solveEquation
                                (answering (lit "Sorry, I cannot solve this."))
                                (snapshot initial_app)
                                (Some (JString (lit "1+1"))) initial_app))))
     = Some JNull.
Proof.
  assert (Hn : nonblank (lit "1+1")).
  { exists 49%N. split; [left; reflexivity | reflexivity]. }
  assert (Hc : forall final prompt a,
             completes_with (answering final)
               (App.endpoint (closure_currentModel (snapshot a)))
               (solve_request prompt (lit "1+1")) final).
  { intros final prompt a. split; eexists; reflexivity. }
  destruct (@solveEquation_invalid_json_reports_format_error
              (answering (lit "Sorry, I cannot solve this."))
              (snapshot solved_once) (lit "1+1") solved_once
              (lit "Sorry, I cannot solve this.") Hn eq_refl) as (Hnew & _).
  destruct (@solveEquation_invalid_json_reports_format_error
              (answering (lit "Sorry, I cannot solve this."))
              (snapshot initial_app) (lit "1+1") initial_app
              (lit "Sorry, I cannot solve this.") Hn eq_refl)
    as (_ & Hold & _).
  destruct (Hnew (Hc _ _ _)) as (_ & He & Hs & _).
  split; [exact He|]. split; [exact Hs|].
  exact (proj1 (proj2 (Hold (Hc _ _ _)))).
Defined.

(* ================================================================== *)
(** ** The model switch *)
(* ================================================================== *)

Lemma jsstring_eqb_eq a b : jsstring_eqb a b = true <-> a = b.
Proof.
  revert b. induction a as [|x a IH]; intros [|y b]; cbn [jsstring_eqb];
    try (split; [discriminate | discriminate]); [tauto|].
  rewrite andb_true_iff, N.eqb_eq, IH. split.
  - intros [-> ->]. reflexivity.
  - intros H. injection H as -> ->. auto.
Qed.

(** X17. The switch puts "gpt" for "gemini" and "gemini" for anything
    else, and touches nothing besides.  From the initial state, after [n]
    presses the model is "gemini" when [n] is even and "gpt" when it is odd,
    and a solve goes to the Gemini endpoint resp. to the ChatGPT one. *)
Theorem switch_model_alternates :
  forall (n : nat) (a : app),
    let a' := snd (App.switch_model a) in
    let s := switches n initial_app in
    (currentModel (panel a) = lit "gemini"
     /\ currentModel (panel a') = lit "gpt"
     \/ currentModel (panel a) <> lit "gemini"
        /\ currentModel (panel a') = lit "gemini")
    /\ page a' = page a
    /\ notes (panel a') = notes (panel a)
    /\ loading (panel a') = loading (panel a)
    /\ currentModel (panel s)
       = (if Nat.even n then lit "gemini" else lit "gpt")
    /\ App.endpoint (closure_currentModel (snapshot s))
       = (if Nat.even n then GEMINI else CHAT_GPT).
Proof.
  intros n a a' s. subst a' s. split; [|split; [|split; [|split]]];
    try reflexivity.
  - unfold App.switch_model, bindH, readP, setCurrentModel, modifyP.
    cbn [fst snd panel currentModel].
    destruct (jsstring_eqb (currentModel (panel a)) (lit "gemini")) eqn:E.
    + left. apply jsstring_eqb_eq in E. auto.
    + right. split; [|reflexivity]. intros H.
      apply jsstring_eqb_eq in H. congruence.
  - assert (H : currentModel (panel (switches n initial_app))
                = (if Nat.even n then lit "gemini" else lit "gpt")).
    { induction n as [|n IH]; [reflexivity|].
      cbn [switches].
      unfold App.switch_model, bindH, readP, setCurrentModel, modifyP.
      cbn [fst snd panel currentModel]. rewrite IH.
      rewrite Nat.even_succ, <- Nat.negb_even.
      destruct (Nat.even n); reflexivity. }
    split; [exact H|].
    unfold snapshot. cbn [closure_currentModel]. rewrite H.
    destruct (Nat.even n); reflexivity.
Qed.

(* ================================================================== *)
(** ** From the image to the solve *)
(* ================================================================== *)

(** X18. When the upload and the request to the vision model succeed and
    the answer holds a [choices[0].message], [handleImageUpload] hands over
    whatever stands under [content], a string or not: it becomes the input
    and the argument of [solveEquation], and no error is reported.  Given
    something that is not a string, [solveEquation] (each revision) rejects
    at once, leaving the whole state as it was, so that nothing tells the
    user that no solve took place. *)
Theorem image_hands_over_any_content :
  forall (prompt : jsstring) (env : environment) (w : world) (f : File)
         (data : json) (equation : jsvalue),
    file (ui w) = Some f ->
    upload_succeeds env (Some f) = true ->
    (forall url,
       fetch_result env GPT_VISION (Content.vision_body prompt url)
       = Response true (Some data)) ->
    value_of (first_choice_content data) = Some equation ->
    let w' := snd (Content.handleImageUpload_with prompt env w) in
    input (ui w') = equation
    /\ error (ui w') = error (ui w)
    /\ previewImage (ui w') = Some (createObjectURL env f)
    /\ (exists url,
          effects w'
          = effects w ++ [Upload (Some f);
                          Fetch GPT_VISION (Content.vision_body prompt url);
                          Call_solveEquation equation])
    /\ (forall h held a,
          match equation with
          | Some (JString _) => True
          | _ =>
              App.solveEquation h held equation a
              = (Rejected (engine_message h), a)
              /\ LegacyApp.solveEquation h held equation a
                 = (Rejected (engine_message h), a)
          end).
Proof.
  intros prompt env w f data equation Hfile Hup Hfetch Hval w'. subst w'.
  split; [|split; [|split; [|split]]];
    try (intros h held a; destruct equation as [[]|]; try exact I;
         split; reflexivity).
  all: revert Hup Hval; unfold upload_succeeds, value_of.
  all: rewrite (stateless_first_choice_content data initial_world).
  all: cbn [fst].
  all: unfold_upload; rewrite Hfile; cbn [ui effects].
  all: destruct (upload_result env (Some f)) as [|[[|b|x|s|items|props]|]];
    try discriminate; cbn [member]; cbv beta delta [ret throw] iota;
    cbn [truthy fst snd ui effects].
  all: first [ intros Hup; apply negb_true_iff in Hup; rewrite Hup
             | intros _ ].
  all: rewrite Hfetch; cbv beta iota; cbn [fst snd negb].
  all: cbv beta delta [first_choice_content member element0 bind ret throw]
         iota.
  all: repeat case_split; cbn [fst snd ui effects input error previewImage];
    intros Hval; try discriminate Hval; injection Hval as <-.
  all: try solve [exfalso; cbn [fst snd] in *; congruence].
  all: repeat match goal with
              | H : fst (_, _) = _ |- _ =>
                  cbn [fst] in H; first [injection H as <- | injection H as ->]
              end.
  all: try reflexivity.
  all: eexists; rewrite <- !app_assoc; reflexivity.
Qed.

Lemma image_hands_over_witness :
  input (ui (snd (Content.handleImageUpload speechless speechless_picked)))
  = None
  /\ error (ui (snd (Content.handleImageUpload speechless speechless_picked)))
     = None
  /\ App.solveEquation offline_host (snapshot initial_app) None initial_app
     = (Rejected (engine_message offline_host), initial_app).
Proof.
  destruct (image_hands_over_any_content Content.VISION_PROMPT speechless
              speechless_picked (f := photo)
              (data := JObject
                         [(lit "choices",
                           JArray [JObject [(lit "message", JObject [])]])])
              (equation := None) eq_refl eq_refl (fun _ => eq_refl) eq_refl)
    as (Hi & He & _ & _ & Hs).
  split; [exact Hi|]. split; [exact He|].
  exact (proj1 (Hs offline_host (snapshot initial_app) initial_app)).
Defined.

(* ================================================================== *)
(** ** The priority of the topic rules *)
(* ================================================================== *)

(** X19. Each rule of [detectMathTopic] in [content.js] fires exactly when
    its own token occurs and no token of an earlier rule does: Algebra needs
    [=]; Calculus the integral sign or [d/dx], and neither [=] nor a
    whole-word trigonometry name; Roots the root sign and none of the
    former; Percentages [%] and none of the former; Matrices [matrix] or
    [[] and none of the former. *)
Theorem detectMathTopic_priorities :
  forall input : jsstring,
    (Content.detectMathTopic input = lit "Algebra" <-> In EQUALS input)
    /\ (Content.detectMathTopic input = lit "Calculus" <->
        ~ In EQUALS input /\ ~ WholeWordTrig input
        /\ (Substring INTEGRAL input \/ Substring (lit "d/dx") input))
    /\ (Content.detectMathTopic input = lit "Roots" <->
        ~ In EQUALS input /\ ~ WholeWordTrig input
        /\ ~ (Substring INTEGRAL input \/ Substring (lit "d/dx") input)
        /\ Substring SQRT input)
    /\ (Content.detectMathTopic input = lit "Percentages" <->
        ~ In EQUALS input /\ ~ WholeWordTrig input
        /\ ~ (Substring INTEGRAL input \/ Substring (lit "d/dx") input)
        /\ ~ Substring SQRT input
        /\ Substring (lit "%") input)
    /\ (Content.detectMathTopic input = lit "Matrices" <->
        ~ In EQUALS input /\ ~ WholeWordTrig input
        /\ ~ (Substring INTEGRAL input \/ Substring (lit "d/dx") input)
        /\ ~ Substring SQRT input
        /\ ~ Substring (lit "%") input
        /\ (Substring (lit "matrix") input \/ Substring (lit "[") input)).
Proof.
  intros input.
  rewrite <- matches_TRIG_RE_spec, <- includes_char, <- !includes_spec.
  unfold Content.detectMathTopic. change [EQUALS] with (lit "=").
  destruct (includes input (lit "=")), (matches input TRIG_RE),
    (includes input INTEGRAL), (includes input (lit "d/dx")),
    (includes input SQRT), (includes input (lit "%")),
    (includes input (lit "matrix")), (includes input (lit "["));
    cbn [orb];
    (split; [|split; [|split; [|split]]]);
    (split;
     [ intros H; first [discriminate H | intuition discriminate]
     | intros H; first [reflexivity | exfalso; intuition discriminate] ]).
Qed.
